(** * evelink: the character endpoint wrappers of [evelink/char.py]

    A shallow embedding of the [Char] class: every method is a function of
    the [api_result] that the dispatch decorator hands to its body.  Python
    exceptions are results of an error monad, dictionaries keyed by an id
    are finite maps, dictionary literals with fixed keys are records. *)

From Stdlib Require Import ZArith String Ascii List.
From stdpp Require Import base option list gmap strings fin_maps.

Set Warnings "-register-all".
Open Scope Z_scope.
Open Scope string_scope.
Open Scope list_scope.

(** ** Exceptions *)

Inductive PyError := KeyError | ValueError | TypeError | AttributeError.

Inductive pyresult (A : Type) : Type :=
  | Ok (a : A)
  | Raise (e : PyError).
Arguments Ok {A} a.
Arguments Raise {A} e.

#[global] Instance pyresult_ret : MRet pyresult := λ A a, Ok a.
#[global] Instance pyresult_bind : MBind pyresult := λ A B f m,
  match m with Ok a => f a | Raise e => Raise e end.
#[global] Instance pyresult_fmap : FMap pyresult := λ A B f m,
  match m with Ok a => Ok (f a) | Raise e => Raise e end.

Definition succeeds {A} (m : pyresult A) : Prop := ∃ a, m = Ok a.
Definition fails {A} (m : pyresult A) : Prop := ∃ e, m = Raise e.

(** [x.attr] on a value that may be [None]. *)
Definition deref {A} (o : option A) : pyresult A :=
  match o with Some a => Ok a | None => Raise AttributeError end.

(** [d[k]] on a dict. *)
Definition getitem `{Countable K} {V} (d : gmap K V) (k : K) : pyresult V :=
  match d !! k with Some v => Ok v | None => Raise KeyError end.

(** A [for] loop whose body updates the loop state and may raise. *)
Fixpoint for_each {A S} (xs : list A) (body : A → S → pyresult S) (s : S)
  : pyresult S :=
  match xs with
  | [] => Ok s
  | x :: xs' => s' ← body x s; for_each xs' body s'
  end.

(** A list comprehension / a loop that only appends. *)
Fixpoint collect {A B} (f : A → pyresult B) (xs : list A) : pyresult (list B) :=
  match xs with
  | [] => Ok []
  | x :: xs' => y ← f x; ys ← collect f xs'; Ok (y :: ys)
  end.

(** ** Built-ins: [int], [str.split], truth values *)

Definition is_space (c : ascii) : bool :=
  let n := nat_of_ascii c in
  (Nat.eqb n 32 || (Nat.leb 9 n && Nat.leb n 13))%bool.

Definition digit_of (c : ascii) : option Z :=
  let n := nat_of_ascii c in
  if (Nat.leb 48 n && Nat.leb n 57)%bool then Some (Z.of_nat n - 48) else None.

Fixpoint all_space (s : string) : bool :=
  match s with
  | EmptyString => true
  | String c s' => (is_space c && all_space s')%bool
  end.

Fixpoint lstrip (s : string) : string :=
  match s with
  | EmptyString => EmptyString
  | String c s' => if is_space c then lstrip s' else s
  end.

(** Digits, then only white space up to the end. *)
Fixpoint digits_tail (acc : Z) (s : string) : option Z :=
  match s with
  | EmptyString => Some acc
  | String c s' =>
      match digit_of c with
      | Some d => digits_tail (10 * acc + d) s'
      | None => if all_space s then Some acc else None
      end
  end.

Definition unsigned_literal (s : string) : option Z :=
  match s with
  | EmptyString => None
  | String c _ => match digit_of c with
                  | Some _ => digits_tail 0 s
                  | None => None
                  end
  end.

(** [int(s)] for a byte string of ASCII characters, which is what the XML
    attributes of the API hold: optional white space, an optional sign, at
    least one decimal digit, optional white space; anything else is a
    ValueError.  On a [unicode] string [int] also reads the decimal digits and
    the spaces of other scripts; such text is outside this model, and nothing
    below concludes that a call raises from [py_int] refusing a string other
    than the empty one. *)
Definition py_int (s : string) : pyresult Z :=
  let body := lstrip s in
  let parsed :=
    match body with
    | String "+" r => unsigned_literal r
    | String "-" r => Z.opp <$> unsigned_literal r
    | _ => unsigned_literal body
    end in
  match parsed with Some z => Ok z | None => Raise ValueError end.

(** [int(x)] where [x] may be [None] (a TypeError). *)
Definition py_int_of (x : option string) : pyresult Z :=
  match x with Some s => py_int s | None => Raise TypeError end.

(** [s.split(sep)] for a one-character separator. *)
Fixpoint split (sep : ascii) (s : string) : list string :=
  match s with
  | EmptyString => [EmptyString]
  | String c s' =>
      if Ascii.eqb c sep then EmptyString :: split sep s'
      else match split sep s' with
           | [] => [String c EmptyString]
           | w :: ws => String c w :: ws
           end
  end.

(** Truth value of a string, and [x or None]. *)
Definition str_truth (s : string) : bool :=
  match s with EmptyString => false | _ => true end.
Definition str_or_none (s : string) : option string :=
  if str_truth s then Some s else None.
Definition int_or_none (z : Z) : option Z :=
  if Z.eqb z 0 then None else Some z.

(** ** The parsed XML document (ElementTree) *)

Inductive Element :=
  Elem (tag : string) (attrib : gmap string string) (text : option string)
       (children : list Element).

Definition tag (e : Element) := let 'Elem t _ _ _ := e in t.
Definition attrib (e : Element) := let 'Elem _ a _ _ := e in a.
Definition text (e : Element) := let 'Elem _ _ t _ := e in t.
Definition children (e : Element) := let 'Elem _ _ _ c := e in c.

(** [e.findall(tag)]: the direct children with that tag, in document order. *)
Definition findall (e : Element) (t : string) : list Element :=
  filter (λ c, tag c = t) (children e).

(** [e.find(tag)]: the first such child, or [None]. *)
Definition find (e : Element) (t : string) : option Element :=
  head (findall e t).

(** [e.findall('a/b')], [e.find('a/b')] and [e.findtext('a/b')]. *)
Fixpoint findall_path (es : list Element) (path : list string) : list Element :=
  match path with
  | [] => es
  | t :: path' => findall_path (e ← es; findall e t) path'
  end.
Definition find_path (e : Element) (path : list string) : option Element :=
  head (findall_path [e] path).
Definition findtext_path (e : Element) (path : list string) : option string :=
  match find_path e path with
  | Some el => Some (default "" (text el))
  | None => None
  end.

(** [e.findtext(tag)] on an element that is known to exist. *)
Definition findtext (e : Element) (t : string) : option string :=
  findtext_path e [t].

(** [elem.find('rowset').findall('row')], the opening of most extractors. *)
Definition rowset_rows (doc : Element) : pyresult (list Element) :=
  rowset ← deref (find doc "rowset"); Ok (findall rowset "row").

(** ** The response envelope, [api.APIResult] *)

Record APIResult (A : Type) := mkAPIResult {
  result : A;
  timestamp : Z;
  expires : Z;
}.
Arguments mkAPIResult {A} _ _ _.
Arguments result {A} _.
Arguments timestamp {A} _.
Arguments expires {A} _.

(** ** Dictionary keys of mixed type *)

(** Keys of the dictionaries whose keys are not all integers: an [int] and
    the [str] with the same digits are different keys in Python. *)
Inductive PyKey := KInt (z : Z) | KStr (s : string).

#[global] Instance PyKey_eq_dec : EqDecision PyKey.
Proof. solve_decision. Defined.
#[global] Instance PyKey_countable : Countable PyKey.
Proof.
  refine (inj_countable' (λ k, match k with KInt z => inl z | KStr s => inr s end)
                         (λ x, match x with inl z => KInt z | inr s => KStr s end) _).
  by intros [].
Defined.

(** [int(x)] for a key given by the caller. *)
Definition key_int (k : PyKey) : pyresult Z :=
  match k with KInt z => Ok z | KStr s => py_int s end.

(** ** The asset tree *)

(** Modelled from the spec: [evelink.parsing.assets.parse_assets] is not part
    of the sources.  Section 4.3 of the specification gives its input (top-level
    location groups, each a sequence of item elements that may carry their own
    location id and a nested rowset of child items) and its algorithm. *)
Inductive ItemElem :=
  item_elem (itemID typeID quantity : Z) (locationID : option Z) (flag : Z)
            (unpackaged : bool) (rowset : option (list ItemElem)).

Record LocationGroup := mkLocationGroup {
  group_id : Z;
  group_items : list ItemElem;
}.

Inductive AssetItem :=
  asset_item (id item_type_id quantity location_id location_flag : Z)
             (packaged : bool) (contents : option (list AssetItem)).

Record Container := mkContainer {
  container_location_id : Z;
  container_contents : list AssetItem;
}.

Definition own_location (e : ItemElem) : option Z :=
  let 'item_elem _ _ _ l _ _ _ := e in l.
Definition nested_rowset (e : ItemElem) : option (list ItemElem) :=
  let 'item_elem _ _ _ _ _ _ r := e in r.
Definition location_id (a : AssetItem) : Z :=
  let 'asset_item _ _ _ l _ _ _ := a in l.
Definition contents (a : AssetItem) : option (list AssetItem) :=
  let 'asset_item _ _ _ _ _ _ c := a in c.

(** Modelled from the spec: step 2 of section 4.3, one item with the inherited
    [parent_location_id]. *)
Fixpoint normalize_item (parent_location_id : Z) (e : ItemElem) : AssetItem :=
  match e with
  | item_elem i t q loc f u rs =>
      let location := default parent_location_id loc in
      asset_item i t q location f (negb u)
        match rs with
        | Some items => Some (List.map (normalize_item location) items)
        | None => None
        end
  end.

Definition normalize_items (parent_location_id : Z) (items : list ItemElem)
  : list AssetItem :=
  List.map (normalize_item parent_location_id) items.

(** Modelled from the spec: step 1 of section 4.3, one container per top-level
    location group, keyed by the group's id. *)
Definition normalize_groups (groups : list LocationGroup) : gmap Z Container :=
  foldl (λ result g,
           <[group_id g :=
               mkContainer (group_id g)
                           (normalize_items (group_id g) (group_items g))]> result)
        ∅ groups.

(** A position in a tree of items: the index among the siblings at each level. *)
Fixpoint elem_at (path : list nat) (items : list ItemElem) : option ItemElem :=
  match path with
  | [] => None
  | i :: rest =>
      match items !! i with
      | None => None
      | Some e =>
          match rest with
          | [] => Some e
          | _ => match nested_rowset e with
                 | Some sub => elem_at rest sub
                 | None => None
                 end
          end
      end
  end.

Fixpoint item_at (path : list nat) (items : list AssetItem) : option AssetItem :=
  match path with
  | [] => None
  | i :: rest =>
      match items !! i with
      | None => None
      | Some a =>
          match rest with
          | [] => Some a
          | _ => match contents a with
                 | Some sub => item_at rest sub
                 | None => None
                 end
          end
      end
  end.

(** The resolved location id of the parent of the item at [path]: the
    container's for a top-level item. *)
Definition parent_location (c : Container) (path : list nat) : option Z :=
  match removelast path with
  | [] => Some (container_location_id c)
  | up => location_id <$> item_at up (container_contents c)
  end.

(** The explicit location ids met on the way down to [path], the item's own
    included. *)
Fixpoint explicit_on_path (path : list nat) (items : list ItemElem) : list Z :=
  match path with
  | [] => []
  | i :: rest =>
      match items !! i with
      | None => []
      | Some e =>
          option_list (own_location e) ++
          match nested_rowset e with
          | Some sub => explicit_on_path rest sub
          | None => []
          end
      end
  end.

(** ** What the module imports from the rest of the package *)

(** The five accessors returned by [api.elem_getters(elem)]. *)
Record Getters (F T : Type) := mkGetters {
  _str : string → pyresult (option string);
  _int : string → pyresult (option Z);
  _float : string → pyresult (option F);
  _bool : string → pyresult bool;
  _ts : string → pyresult (option T);
}.
Arguments mkGetters {F T} _ _ _ _ _.
Arguments _str {F T} _ _.
Arguments _int {F T} _ _.
Arguments _float {F T} _ _.
Arguments _bool {F T} _ _.
Arguments _ts {F T} _ _.

(** The parsers of [evelink.parsing] that the methods only delegate to. *)
Inductive Parser :=
  | ContactList | ContractBids | ContractItems | Contracts | IndustryJobs
  | Kills | MarketOrders | WalletJournal | WalletTransactions.

(** Everything [char.py] calls and does not define: the built-in [float], the
    helpers of [evelink.api], the role table of [evelink.constants] and the
    parsers of [evelink.parsing].  The development is parametric in them. *)
Class Runtime := {
  pyfloat : Type;
  py_float : string → pyresult pyfloat;
  float_truth : pyfloat → bool;   (* [bool(x)] of a float: [x != 0.0] *)
  ts : Type;
  parse_ts : string → pyresult ts;
  keyval : Type;
  parse_keyval_data : option string → pyresult (gmap string keyval);
  elem_getters : Element → Getters pyfloat ts;
  corp_roles : gmap string string;
  parsed : Parser → Type;
  parse : ∀ p, Element → pyresult (parsed p);
  asset_groups : Element → pyresult (list LocationGroup);
}.

(** ** The methods of [Char] *)

(** The order in which [dict.iteritems()] yields the items of the two
    dictionaries the methods iterate over: any enumeration of the items. *)
Record DictOrder := mkDictOrder {
  name_map_items : list (string * string);
  corp_roles_items : list (string * string);
}.

(** A dictionary literal with the keys ['id'] and ['name']. *)
Record Named (I N : Type) := mkNamed { named_id : I; named_name : N }.
Arguments mkNamed {I N} _ _.
Arguments named_id {I N} _.
Arguments named_name {I N} _.

Section Char.
Context {RT : Runtime}.

(** [int(a[k])], [float(a[k])] and [api.parse_ts(a[k])] on a row's attributes. *)
Definition attr_int (a : gmap string string) (k : string) : pyresult Z :=
  s ← getitem a k; py_int s.
Definition attr_float (a : gmap string string) (k : string) : pyresult pyfloat :=
  s ← getitem a k; py_float s.
Definition attr_ts (a : gmap string string) (k : string) : pyresult ts :=
  s ← getitem a k; parse_ts s.

(** [x or None] for a float, and [_int(name) or None]. *)
Definition float_or_none (x : pyfloat) : option pyfloat :=
  if float_truth x then Some x else None.
Definition opt_int_or_none (x : option Z) : option Z :=
  match x with Some z => int_or_none z | None => None end.

(** [[int(i) for i in s.split(',')] if s else None] *)
Definition int_list_or_none (s : string) : pyresult (option (list Z)) :=
  if str_truth s then ids ← collect py_int (split "," s); Ok (Some ids)
  else Ok None.

(** *** Methods that delegate to a parser of [evelink.parsing] *)

Definition delegate (p : Parser) (api_result : APIResult Element)
  : pyresult (APIResult (parsed p)) :=
  r ← parse p (result api_result);
  Ok (mkAPIResult r (timestamp api_result) (expires api_result)).

(** Modelled from the spec: [parse_assets] is not part of the sources; it reads
    the location groups of the document and normalizes them (section 4.3). *)
Definition parse_assets (doc : Element) : pyresult (gmap Z Container) :=
  groups ← asset_groups doc; Ok (normalize_groups groups).

Definition assets (api_result : APIResult Element)
  : pyresult (APIResult (gmap Z Container)) :=
  r ← parse_assets (result api_result);
  Ok (mkAPIResult r (timestamp api_result) (expires api_result)).

Definition contract_bids := delegate ContractBids.
Definition contract_items := delegate ContractItems.
Definition contracts := delegate Contracts.
Definition wallet_journal := delegate WalletJournal.
Definition wallet_transactions := delegate WalletTransactions.
Definition industry_jobs := delegate IndustryJobs.
Definition kills := delegate Kills.
Definition contacts := delegate ContactList.
Definition orders := delegate MarketOrders.

(** *** wallet_info, wallet_balance *)

Record Wallet := mkWallet {
  wallet_balance_field : pyfloat;   (* 'balance' *)
  wallet_id : Z;                    (* 'id' *)
  wallet_key : Z;                   (* 'key' *)
}.

Definition wallet_info (api_result : APIResult Element)
  : pyresult (APIResult Wallet) :=
  rowset ← deref (find (result api_result) "rowset");
  row ← deref (find rowset "row");
  balance ← attr_float (attrib row) "balance";
  id ← attr_int (attrib row) "accountID";
  key ← attr_int (attrib row) "accountKey";
  Ok (mkAPIResult (mkWallet balance id key)
                  (timestamp api_result) (expires api_result)).

(** [self.wallet_info()] is the decorated call; [api_result] is what the
    transport returns for it. *)
Definition wallet_balance (api_result : APIResult Element)
  : pyresult (APIResult pyfloat) :=
  api_result ← wallet_info api_result;
  Ok (mkAPIResult (wallet_balance_field (result api_result))
                  (timestamp api_result) (expires api_result)).

(** *** notifications, notification_texts *)

Record Notification := mkNotification {
  notification_id : Z;          (* 'id' *)
  notification_type_id : Z;     (* 'type_id' *)
  notification_sender_id : Z;   (* 'sender_id' *)
  notification_timestamp : ts;  (* 'timestamp' *)
  notification_read : bool;     (* 'read' *)
}.

Definition notification_of_row (row : Element) : pyresult Notification :=
  let a := attrib row in
  notification_id ← attr_int a "notificationID";
  type_id ← attr_int a "typeID";
  sender_id ← attr_int a "senderID";
  sent ← attr_ts a "sentDate";
  read ← getitem a "read";
  Ok (mkNotification notification_id type_id sender_id sent
                     (bool_decide (read = "1"))).

Definition notifications (api_result : APIResult Element)
  : pyresult (APIResult (gmap Z Notification)) :=
  rows ← rowset_rows (result api_result);
  result ← for_each rows
    (λ row result,
       n ← notification_of_row row;
       Ok (<[notification_id n := n]> result)) ∅;
  Ok (mkAPIResult result (timestamp api_result) (expires api_result)).

(** The values of a notification text: the id, or a parsed datum. *)
Inductive NoteValue := NoteId (z : Z) | NoteData (v : keyval).

(** [notification = {'id': notification_id}; notification.update(data)] *)
Definition notification_text (notification_id : Z) (data : gmap string keyval)
  : gmap string NoteValue :=
  (NoteData <$> data) ∪ {[ "id" := NoteId notification_id ]}.

Definition notification_texts (api_result : APIResult Element)
  : pyresult (APIResult (gmap PyKey (option (gmap string NoteValue)))) :=
  let doc := result api_result in
  rows ← rowset_rows doc;
  result ← for_each rows
    (λ row result,
       notification_id ← attr_int (attrib row) "notificationID";
       data ← parse_keyval_data (text row);
       Ok (<[KInt notification_id :=
               Some (notification_text notification_id data)]> result)) ∅;
  result ←
    match find doc "missingIDs" with
    | Some missing_ids =>
        t ← deref (text missing_ids);
        Ok (foldl (λ result missing_id, <[KStr missing_id := None]> result)
                  result (split "," t))
    | None => Ok result
    end;
  Ok (mkAPIResult result (timestamp api_result) (expires api_result)).

(** *** standings *)

Record Standing := mkStanding {
  standing_id : Z;          (* 'id' *)
  standing_name : string;   (* 'name' *)
  standing_value : pyfloat; (* 'standing' *)
}.

Definition _name_map : gmap string string :=
  list_to_map [("agents", "agents"); ("corps", "NPCCorporations");
               ("factions", "factions")].

(** [for rowset in elem.findall('rowset'): rowsets[rowset.attrib['name']] = rowset] *)
Definition rowsets_by_name (rowsets : list Element)
  : pyresult (gmap string Element) :=
  for_each rowsets
    (λ rowset rowsets,
       name ← getitem (attrib rowset) "name";
       Ok (<[name := rowset]> rowsets)) ∅.

Definition standing_of_row (row : Element) : pyresult Standing :=
  let a := attrib row in
  from_id ← attr_int a "fromID";
  name ← getitem a "fromName";
  standing ← attr_float a "standing";
  Ok (mkStanding from_id name standing).

Definition standings (order : DictOrder) (api_result : APIResult Element)
  : pyresult (APIResult (gmap string (gmap Z Standing))) :=
  npc ← deref (find (result api_result) "characterNPCStandings");
  rowsets ← rowsets_by_name (findall npc "rowset");
  result ← for_each (name_map_items order)
    (λ '(key, rowset_name) result,
       rowset ← getitem rowsets rowset_name;
       entries ← for_each (findall rowset "row")
         (λ row entries,
            s ← standing_of_row row;
            Ok (<[standing_id s := s]> entries)) ∅;
       Ok (<[key := entries]> result)) ∅;
  Ok (mkAPIResult result (timestamp api_result) (expires api_result)).

(** *** character_sheet *)

Record Clone := mkClone {
  clone_name : option string;     (* 'name' *)
  clone_skillpoints : option Z;   (* 'skillpoints' *)
}.

Record Bonus := mkBonus {
  bonus_name : option string;   (* 'name' *)
  bonus_value : Z;              (* 'value' *)
}.

Record Attribute := mkAttribute {
  attribute_base : Z;              (* 'base' *)
  attribute_total : Z;             (* 'total' *)
  attribute_bonus : option Bonus;  (* 'bonus', when there is an enhancer *)
}.

Record Skill := mkSkill {
  skill_id : Z;           (* 'id' *)
  skill_skillpoints : Z;  (* 'skillpoints' *)
  skill_level : Z;        (* 'level' *)
  skill_published : bool; (* 'published' *)
}.

Record CharacterSheet := mkCharacterSheet {
  sheet_id : option Z;
  sheet_name : option string;
  sheet_create_ts : option ts;
  sheet_race : option string;
  sheet_bloodline : option string;
  sheet_ancestry : option string;
  sheet_gender : option string;
  sheet_corp : Named (option Z) (option string);
  sheet_alliance : Named (option Z) (option string);
  sheet_clone : Clone;
  sheet_balance : option pyfloat;
  sheet_attributes : gmap string Attribute;
  sheet_skills : list Skill;
  sheet_skillpoints : Z;
  sheet_certificates : gset Z;
  sheet_roles : gmap string (gmap Z (Named Z string));
  sheet_titles : gmap Z (Named Z string);
}.

Definition attribute_names : list string :=
  ["intelligence"; "memory"; "charisma"; "perception"; "willpower"].

(** The body of the loop over the five attribute names. *)
Definition attribute_of (doc : Element) (attr : string) : pyresult Attribute :=
  base ← py_int_of (findtext_path doc ["attributes"; attr]);
  match find_path doc ["attributeEnhancers"; attr +:+ "Bonus"] with
  | Some bonus =>
      modifier ← py_int_of (findtext bonus "augmentatorValue");
      Ok (mkAttribute base (base + modifier)
            (Some (mkBonus (findtext bonus "augmentatorName") modifier)))
  | None => Ok (mkAttribute base base None)
  end.

(** The body of the loop over [rowsets['skills']]. *)
Definition skill_of_row (skill : Element) : pyresult Skill :=
  let a := attrib skill in
  sp ← attr_int a "skillpoints";
  id ← attr_int a "typeID";
  level ← attr_int a "level";
  published ← getitem a "published";
  Ok (mkSkill id sp level (bool_decide (published = "1"))).

(** A rowset of rows with an id and a name (roles, titles). *)
Definition named_rows (id_attr name_attr : string) (rows : list Element)
  : pyresult (gmap Z (Named Z string)) :=
  for_each rows
    (λ row entries,
       let a := attrib row in
       id ← attr_int a id_attr;
       name ← getitem a name_attr;
       Ok (<[id := mkNamed id name]> entries)) ∅.

Definition character_sheet (order : DictOrder) (api_result : APIResult Element)
  : pyresult (APIResult CharacterSheet) :=
  let doc := result api_result in
  let g := elem_getters doc in
  id ← _int g "characterID";
  name ← _str g "name";
  create_ts ← _ts g "DoB";
  race ← _str g "race";
  bloodline ← _str g "bloodLine";
  ancestry ← _str g "ancestry";
  gender ← _str g "gender";
  corp_id ← _int g "corporationID";
  corp_name ← _str g "corporationName";
  alliance_id ← _int g "allianceID";
  alliance_name ← _str g "allianceName";
  clone_name ← _str g "cloneName";
  clone_sp ← _int g "cloneSkillPoints";
  balance ← _float g "balance";
  attributes ← for_each attribute_names
    (λ attr attributes,
       a ← attribute_of doc attr; Ok (<[attr := a]> attributes)) ∅;
  rowsets ← rowsets_by_name (findall doc "rowset");
  skills_rowset ← getitem rowsets "skills";
  skills ← collect skill_of_row (children skills_rowset);
  let skillpoints := foldl (λ total s, total + skill_skillpoints s) 0 skills in
  certificates_rowset ← getitem rowsets "certificates";
  certificates ← for_each (children certificates_rowset)
    (λ cert certificates,
       c ← attr_int (attrib cert) "certificateID";
       Ok ({[ c ]} ∪ certificates)) (∅ : gset Z);
  roles ← for_each (corp_roles_items order)
    (λ '(our_role, ccp_role) roles,
       rowset ← getitem rowsets ccp_role;
       entries ← named_rows "roleID" "roleName" (children rowset);
       Ok (<[our_role := entries]> roles)) ∅;
  titles_rowset ← getitem rowsets "corporationTitles";
  titles ← named_rows "titleID" "titleName" (children titles_rowset);
  Ok (mkAPIResult
        (mkCharacterSheet id name create_ts race bloodline ancestry gender
           (mkNamed corp_id corp_name)
           (mkNamed (opt_int_or_none alliance_id) alliance_name)
           (mkClone clone_name clone_sp) balance attributes
           skills skillpoints certificates roles titles)
        (timestamp api_result) (expires api_result)).

(** *** research, current_training, skill_queue *)

Record Research := mkResearch {
  research_id : Z;            (* 'id' *)
  research_skill_id : Z;      (* 'skill_id' *)
  research_timestamp : ts;    (* 'timestamp' *)
  research_per_day : pyfloat;   (* 'per_day' *)
  research_remaining : pyfloat; (* 'remaining' *)
}.

Definition research (api_result : APIResult Element)
  : pyresult (APIResult (gmap Z Research)) :=
  rows ← rowset_rows (result api_result);
  result ← for_each rows
    (λ row result,
       let a := attrib row in
       id ← attr_int a "agentID";
       skill_id ← attr_int a "skillTypeID";
       started ← attr_ts a "researchStartDate";
       per_day ← attr_float a "pointsPerDay";
       remaining ← attr_float a "remainderPoints";
       Ok (<[id := mkResearch id skill_id started per_day remaining]> result)) ∅;
  Ok (mkAPIResult result (timestamp api_result) (expires api_result)).

Record Training := mkTraining {
  training_start_ts : option ts;
  training_end_ts : option ts;
  training_type_id : option Z;
  training_start_sp : option Z;
  training_end_sp : option Z;
  training_current_ts : option ts;
  training_level : option Z;
  training_active : bool;
}.

Definition current_training (api_result : APIResult Element)
  : pyresult (APIResult Training) :=
  let g := elem_getters (result api_result) in
  start_ts ← _ts g "trainingStartTime";
  end_ts ← _ts g "trainingEndTime";
  type_id ← _int g "trainingTypeID";
  start_sp ← _int g "trainingStartSP";
  end_sp ← _int g "trainingDestinationSP";
  current_ts ← _ts g "currentTQTime";
  level ← _int g "trainingToLevel";
  active ← _bool g "skillInTraining";
  Ok (mkAPIResult
        (mkTraining start_ts end_ts type_id start_sp end_sp current_ts level active)
        (timestamp api_result) (expires api_result)).

Record QueueLine := mkQueueLine {
  queue_position : Z;
  queue_type_id : Z;
  queue_level : Z;
  queue_start_sp : Z;
  queue_end_sp : Z;
  queue_start_ts : ts;
  queue_end_ts : ts;
}.

Definition skill_queue (api_result : APIResult Element)
  : pyresult (APIResult (list QueueLine)) :=
  rows ← rowset_rows (result api_result);
  result ← collect
    (λ row,
       let a := attrib row in
       position ← attr_int a "queuePosition";
       type_id ← attr_int a "typeID";
       level ← attr_int a "level";
       start_sp ← attr_int a "startSP";
       end_sp ← attr_int a "endSP";
       start_ts ← attr_ts a "startTime";
       end_ts ← attr_ts a "endTime";
       Ok (mkQueueLine position type_id level start_sp end_sp start_ts end_ts))
    rows;
  Ok (mkAPIResult result (timestamp api_result) (expires api_result)).

(** *** messages, message_bodies, mailing_lists *)

Record Recipients := mkRecipients {
  to_org_id : option Z;            (* 'org_id' *)
  to_char_ids : option (list Z);   (* 'char_ids' *)
  to_list_ids : option (list Z);   (* 'list_ids' *)
}.

Record Message := mkMessage {
  message_id : Z;          (* 'id' *)
  message_sender_id : Z;   (* 'sender_id' *)
  message_timestamp : ts;  (* 'timestamp' *)
  message_title : string;  (* 'title' *)
  message_to : Recipients; (* 'to' *)
}.

Definition message_of_row (row : Element) : pyresult Message :=
  let a := attrib row in
  id ← attr_int a "messageID";
  sender_id ← attr_int a "senderID";
  sent ← attr_ts a "sentDate";
  title ← getitem a "title";
  org_id ← getitem a "toCorpOrAllianceID";
  org ← (if str_truth org_id then Some <$> py_int org_id else Ok None);
  char_ids ← getitem a "toCharacterIDs";
  chars ← int_list_or_none char_ids;
  list_ids ← getitem a "toListID";
  lists ← int_list_or_none list_ids;
  Ok (mkMessage id sender_id sent title (mkRecipients org chars lists)).

Definition messages (api_result : APIResult Element)
  : pyresult (APIResult (list Message)) :=
  rows ← rowset_rows (result api_result);
  results ← collect message_of_row rows;
  Ok (mkAPIResult results (timestamp api_result) (expires api_result)).

Definition message_bodies (api_result : APIResult Element)
  : pyresult (APIResult (gmap Z (option string))) :=
  let doc := result api_result in
  rows ← rowset_rows doc;
  results ← for_each rows
    (λ row results,
       message_id ← attr_int (attrib row) "messageID";
       Ok (<[message_id := text row]> results)) ∅;
  results ←
    match find doc "missingMessageIDs" with
    | Some missing_set =>
        t ← deref (text missing_set);
        missing_ids ← collect py_int (split "," t);
        Ok (foldl (λ results missing_id, <[missing_id := None]> results)
                  results missing_ids)
    | None => Ok results
    end;
  Ok (mkAPIResult results (timestamp api_result) (expires api_result)).

Definition mailing_lists (api_result : APIResult Element)
  : pyresult (APIResult (gmap Z string)) :=
  rows ← rowset_rows (result api_result);
  results ← for_each rows
    (λ row results,
       let a := attrib row in
       (* the right-hand side of the assignment is evaluated first *)
       display_name ← getitem a "displayName";
       list_id ← attr_int a "listID";
       Ok (<[list_id := display_name]> results)) ∅;
  Ok (mkAPIResult results (timestamp api_result) (expires api_result)).

(** *** calendar_events, calendar_attendees, event_attendees *)

Record Event := mkEvent {
  event_id : Z;                            (* 'id' *)
  event_owner : Named Z (option string);   (* 'owner' *)
  event_start_ts : ts;                     (* 'start_ts' *)
  event_title : string;                    (* 'title' *)
  event_duration : Z;                      (* 'duration' *)
  event_important : bool;                  (* 'important' *)
  event_description : string;              (* 'description' *)
  event_response : string;                 (* 'response' *)
}.

Definition event_of_row (row : Element) : pyresult Event :=
  let a := attrib row in
  id ← attr_int a "eventID";
  owner_id ← attr_int a "ownerID";
  owner_name ← getitem a "ownerName";
  start_ts ← attr_ts a "eventDate";
  title ← getitem a "eventTitle";
  duration ← attr_int a "duration";
  importance ← getitem a "importance";
  description ← getitem a "eventText";
  response ← getitem a "response";
  Ok (mkEvent id (mkNamed owner_id (str_or_none owner_name)) start_ts title
              duration (bool_decide (importance = "1")) description response).

Definition calendar_events (api_result : APIResult Element)
  : pyresult (APIResult (gmap Z Event)) :=
  rows ← rowset_rows (result api_result);
  results ← for_each rows
    (λ row results,
       event ← event_of_row row;
       Ok (<[event_id event := event]> results)) ∅;
  Ok (mkAPIResult results (timestamp api_result) (expires api_result)).

Record Attendee := mkAttendee {
  attendee_id : Z;            (* 'id' *)
  attendee_name : string;     (* 'name' *)
  attendee_response : string; (* 'response' *)
}.

Definition attendee_of_row (row : Element) : pyresult Attendee :=
  let a := attrib row in
  id ← attr_int a "characterID";
  name ← getitem a "characterName";
  response ← getitem a "response";
  Ok (mkAttendee id name response).

(** [defaultdict(dict, ((id_, {}) for id_ in event_ids))] *)
Definition empty_events (event_ids : list PyKey) : gmap PyKey (gmap Z Attendee) :=
  foldl (λ results id_, <[id_ := ∅]> results) ∅ event_ids.

(** One pass of the loop: [results[int(a['eventID'])][attendee['id']] = attendee],
    where reading a missing key of the defaultdict yields a fresh [{}]. *)
Definition add_attendee (row : Element) (results : gmap PyKey (gmap Z Attendee))
  : pyresult (gmap PyKey (gmap Z Attendee)) :=
  attendee ← attendee_of_row row;
  event_id ← attr_int (attrib row) "eventID";
  let of_event := default ∅ (results !! KInt event_id) in
  Ok (<[KInt event_id := <[attendee_id attendee := attendee]> of_event]> results).

Definition calendar_attendees (event_ids : list PyKey)
  (api_result : APIResult Element)
  : pyresult (APIResult (gmap PyKey (gmap Z Attendee))) :=
  let results := empty_events event_ids in
  rows ← rowset_rows (result api_result);
  results ← for_each rows add_attendee results;
  Ok (mkAPIResult results (timestamp api_result) (expires api_result)).

(** [self.calendar_attendees([event_id])] is the decorated call; [api_result]
    is what the transport returns for it. *)
Definition event_attendees (event_id : PyKey) (api_result : APIResult Element)
  : pyresult (APIResult (gmap Z Attendee)) :=
  api_result ← calendar_attendees [event_id] api_result;
  key ← key_int event_id;
  of_event ← getitem (result api_result) (KInt key);
  Ok (mkAPIResult of_event (timestamp api_result) (expires api_result)).

(** *** faction_warfare_stats, medals, contact_notifications, locations *)

Record Counts := mkCounts {
  counts_yesterday : option Z;
  counts_week : option Z;
  counts_total : option Z;
}.

Record FactionWarfare := mkFactionWarfare {
  fw_faction : Named (option Z) (option string);
  fw_enlist_ts : option ts;
  fw_rank_current : option Z;
  fw_rank_highest : option Z;
  fw_kills : Counts;
  fw_points : Counts;
}.

Definition faction_warfare_stats (api_result : APIResult Element)
  : pyresult (APIResult FactionWarfare) :=
  let g := elem_getters (result api_result) in
  faction_id ← _int g "factionID";
  faction_name ← _str g "factionName";
  enlisted ← _ts g "enlisted";
  current ← _int g "currentRank";
  highest ← _int g "highestRank";
  kills_yesterday ← _int g "killsYesterday";
  kills_week ← _int g "killsLastWeek";
  kills_total ← _int g "killsTotal";
  points_yesterday ← _int g "victoryPointsYesterday";
  points_week ← _int g "victoryPointsLastWeek";
  points_total ← _int g "victoryPointsTotal";
  Ok (mkAPIResult
        (mkFactionWarfare (mkNamed faction_id faction_name) enlisted
           current highest
           (mkCounts kills_yesterday kills_week kills_total)
           (mkCounts points_yesterday points_week points_total))
        (timestamp api_result) (expires api_result)).

Record Medal := mkMedal {
  medal_id : Z;
  medal_reason : string;
  medal_public : bool;
  medal_issuer_id : Z;
  medal_corp_id : Z;
  medal_title : string;
  medal_description : string;
}.

Definition medal_of_row (row : Element) : pyresult Medal :=
  let a := attrib row in
  medal_id ← attr_int a "medalID";
  reason ← getitem a "reason";
  status ← getitem a "status";
  issuer_id ← attr_int a "issuerID";
  corp_id ← attr_int a "corporationID";
  title ← getitem a "title";
  description ← getitem a "description";
  Ok (mkMedal medal_id reason (bool_decide (status = "public")) issuer_id
              corp_id title description).

Definition _map : gmap string string :=
  list_to_map [("currentCorporation", "current"); ("otherCorporations", "other")].

Definition medals (api_result : APIResult Element)
  : pyresult (APIResult (gmap string (gmap Z Medal))) :=
  result ← for_each (findall (result api_result) "rowset")
    (λ rowset result,
       rowset_name ← getitem (attrib rowset) "name";
       name ← getitem _map rowset_name;
       for_each (findall rowset "row")
         (λ row result,
            medal ← medal_of_row row;
            of_name ← getitem result name;
            Ok (<[name := <[medal_id medal := medal]> of_name]> result))
         result)
    (list_to_map [("current", ∅); ("other", ∅)]);
  Ok (mkAPIResult result (timestamp api_result) (expires api_result)).

Record ContactNote := mkContactNote {
  note_id : Z;
  note_sender : Named Z string;
  note_timestamp : ts;
  note_data : gmap string keyval;
}.

Definition contact_notifications (api_result : APIResult Element)
  : pyresult (APIResult (gmap Z ContactNote)) :=
  rows ← rowset_rows (result api_result);
  results ← for_each rows
    (λ row results,
       let a := attrib row in
       id ← attr_int a "notificationID";
       sender_id ← attr_int a "senderID";
       sender_name ← getitem a "senderName";
       sent ← attr_ts a "sentDate";
       message_data ← getitem a "messageData";
       data ← parse_keyval_data (Some message_data);
       Ok (<[id := mkContactNote id (mkNamed sender_id sender_name) sent data]>
             results)) ∅;
  Ok (mkAPIResult results (timestamp api_result) (expires api_result)).

Record Location := mkLocation {
  location_name : option string;   (* 'name' *)
  location_item_id : option Z;     (* 'id' *)
  location_x : option pyfloat;     (* 'x' *)
  location_y : option pyfloat;     (* 'y' *)
  location_z : option pyfloat;     (* 'z' *)
}.

Definition location_of_row (row : Element) : pyresult Location :=
  let a := attrib row in
  name ← getitem a "itemName";
  id ← attr_int a "itemID";
  x ← attr_float a "x";
  y ← attr_float a "y";
  z ← attr_float a "z";
  Ok (mkLocation (str_or_none name) (int_or_none id)
                 (float_or_none x) (float_or_none y) (float_or_none z)).

Definition locations (api_result : APIResult Element)
  : pyresult (APIResult (gmap (option Z) Location)) :=
  rows ← rowset_rows (result api_result);
  results ← for_each rows
    (λ row results,
       l ← location_of_row row;
       Ok (<[location_item_id l := l]> results)) ∅;
  Ok (mkAPIResult results (timestamp api_result) (expires api_result)).

(** *** The public operations as one family *)

(** Arguments that only become request parameters (ids, paging) are read by
    the dispatch decorator and not by the bodies; they are left out. *)
Inductive Operation :=
  | OpAssets | OpContractBids | OpContractItems | OpContracts | OpWalletJournal
  | OpWalletInfo | OpWalletBalance | OpWalletTransactions | OpIndustryJobs
  | OpKills | OpNotifications | OpNotificationTexts | OpStandings
  | OpCharacterSheet | OpContacts | OpOrders | OpResearch | OpCurrentTraining
  | OpSkillQueue | OpMessages | OpMessageBodies | OpMailingLists
  | OpCalendarEvents
  | OpCalendarAttendees (event_ids : list PyKey)
  | OpEventAttendees (event_id : PyKey)
  | OpFactionWarfareStats | OpMedals | OpContactNotifications | OpLocations.

Definition shape (op : Operation) : Type :=
  match op with
  | OpAssets => gmap Z Container
  | OpContractBids => parsed ContractBids
  | OpContractItems => parsed ContractItems
  | OpContracts => parsed Contracts
  | OpWalletJournal => parsed WalletJournal
  | OpWalletInfo => Wallet
  | OpWalletBalance => pyfloat
  | OpWalletTransactions => parsed WalletTransactions
  | OpIndustryJobs => parsed IndustryJobs
  | OpKills => parsed Kills
  | OpNotifications => gmap Z Notification
  | OpNotificationTexts => gmap PyKey (option (gmap string NoteValue))
  | OpStandings => gmap string (gmap Z Standing)
  | OpCharacterSheet => CharacterSheet
  | OpContacts => parsed ContactList
  | OpOrders => parsed MarketOrders
  | OpResearch => gmap Z Research
  | OpCurrentTraining => Training
  | OpSkillQueue => list QueueLine
  | OpMessages => list Message
  | OpMessageBodies => gmap Z (option string)
  | OpMailingLists => gmap Z string
  | OpCalendarEvents => gmap Z Event
  | OpCalendarAttendees _ => gmap PyKey (gmap Z Attendee)
  | OpEventAttendees _ => gmap Z Attendee
  | OpFactionWarfareStats => FactionWarfare
  | OpMedals => gmap string (gmap Z Medal)
  | OpContactNotifications => gmap Z ContactNote
  | OpLocations => gmap (option Z) Location
  end.

Definition call (order : DictOrder) (op : Operation)
  (api_result : APIResult Element) : pyresult (APIResult (shape op)) :=
  match op return pyresult (APIResult (shape op)) with
  | OpAssets => assets api_result
  | OpContractBids => contract_bids api_result
  | OpContractItems => contract_items api_result
  | OpContracts => contracts api_result
  | OpWalletJournal => wallet_journal api_result
  | OpWalletInfo => wallet_info api_result
  | OpWalletBalance => wallet_balance api_result
  | OpWalletTransactions => wallet_transactions api_result
  | OpIndustryJobs => industry_jobs api_result
  | OpKills => kills api_result
  | OpNotifications => notifications api_result
  | OpNotificationTexts => notification_texts api_result
  | OpStandings => standings order api_result
  | OpCharacterSheet => character_sheet order api_result
  | OpContacts => contacts api_result
  | OpOrders => orders api_result
  | OpResearch => research api_result
  | OpCurrentTraining => current_training api_result
  | OpSkillQueue => skill_queue api_result
  | OpMessages => messages api_result
  | OpMessageBodies => message_bodies api_result
  | OpMailingLists => mailing_lists api_result
  | OpCalendarEvents => calendar_events api_result
  | OpCalendarAttendees event_ids => calendar_attendees event_ids api_result
  | OpEventAttendees event_id => event_attendees event_id api_result
  | OpFactionWarfareStats => faction_warfare_stats api_result
  | OpMedals => medals api_result
  | OpContactNotifications => contact_notifications api_result
  | OpLocations => locations api_result
  end.

(** An enumeration of the items of both dictionaries, each item once. *)
Definition valid_order (order : DictOrder) : Prop :=
  name_map_items order ≡ₚ map_to_list _name_map ∧
  corp_roles_items order ≡ₚ map_to_list corp_roles.

End Char.

(** ** A sample runtime

    The theorems below hold for every [Runtime]; this one makes the methods
    executable on concrete documents. *)

(** Decimal literals without exponent, as mantissa and number of decimals. *)
Fixpoint take_digits (acc : Z) (n : nat) (s : string) : Z * nat * string :=
  match s with
  | EmptyString => (acc, n, s)
  | String c s' =>
      match digit_of c with
      | Some d => take_digits (10 * acc + d) (S n) s'
      | None => (acc, n, s)
      end
  end.

Definition sample_float (s : string) : pyresult (Z * nat) :=
  let body := lstrip s in
  let '(sign, body) :=
    match body with
    | String "+" r => (1, r)
    | String "-" r => (-1, r)
    | _ => (1, body)
    end in
  let '(whole, n1, rest) := take_digits 0 0 body in
  match rest with
  | String "." rest' =>
      let '(mantissa, n2, rest'') := take_digits whole 0 rest' in
      if (negb (Nat.eqb (n1 + n2) 0) && all_space rest'')%bool
      then Ok (sign * mantissa, n2) else Raise ValueError
  | _ =>
      if (negb (Nat.eqb n1 0) && all_space rest)%bool
      then Ok (sign * whole, 0%nat) else Raise ValueError
  end.

(** A time stamp of the form [YYYY-MM-DD HH:MM:SS], kept as it is written. *)
Definition sample_parse_ts (s : string) : pyresult string :=
  if Nat.eqb (String.length s) 19 then Ok s else Raise ValueError.

(** Lines of the form [key: value]. *)
Definition sample_keyval_line (line : string) : option (string * string) :=
  match split ":" line with
  | k :: v :: _ => Some (k, lstrip v)
  | _ => None
  end.

Definition sample_parse_keyval_data (data : option string)
  : pyresult (gmap string string) :=
  s ← deref data;
  Ok (list_to_map (omap sample_keyval_line (split "010" s))).

(** Modelled from the spec: [api.elem_getters] is not part of the sources.
    Section 4.1: the text of the named child, absent when there is no such
    child; an empty string is null for the numeric, float and time stamp
    fields; a boolean is true exactly for the text "1". *)
Definition get_named_value (elem : Element) (field : string) : option string :=
  findtext elem field.

Definition coerced {A} (coerce : string → pyresult A) (v : option string)
  : pyresult (option A) :=
  match v with
  | Some s => if str_truth s then Some <$> coerce s else Ok None
  | None => Ok None
  end.

Definition sample_elem_getters (elem : Element) : Getters (Z * nat) string :=
  mkGetters
    (λ field, Ok (get_named_value elem field))
    (λ field, coerced py_int (get_named_value elem field))
    (λ field, coerced sample_float (get_named_value elem field))
    (λ field, Ok (bool_decide (get_named_value elem field = Some "1")))
    (λ field, coerced sample_parse_ts (get_named_value elem field)).

Definition sample_corp_roles : gmap string string :=
  list_to_map [("global", "corporationRoles");
               ("at_hq", "corporationRolesAtHQ");
               ("at_base", "corporationRolesAtBase");
               ("at_other", "corporationRolesAtOther")].

(** A reading of the asset document: the location groups are the [rowset]
    children of the document with their [locationID]; an item is a [row] with
    [itemID], [typeID], [quantity], [flag], [singleton], an optional
    [locationID] and an optional nested [rowset]. *)
Fixpoint sample_item (e : Element) : pyresult ItemElem :=
  match e with
  | Elem _ a _ cs =>
      i ← attr_int a "itemID";
      t ← attr_int a "typeID";
      q ← attr_int a "quantity";
      loc ← match a !! "locationID" with
            | Some s => Some <$> py_int s
            | None => Ok None
            end;
      f ← attr_int a "flag";
      single ← getitem a "singleton";
      sub ← (fix first_rowset (l : list Element)
               : pyresult (option (list ItemElem)) :=
               match l with
               | [] => Ok None
               | Elem tg _ _ rows :: l' =>
                   if decide (tg = "rowset")
                   then Some <$>
                        (fix items (rs : list Element) : pyresult (list ItemElem) :=
                           match rs with
                           | [] => Ok []
                           | r :: rs' =>
                               if decide (tag r = "row")
                               then x ← sample_item r; xs ← items rs'; Ok (x :: xs)
                               else items rs'
                           end) rows
                   else first_rowset l'
               end) cs;
      Ok (item_elem i t q loc f (bool_decide (single = "1")) sub)
  end.

Definition sample_asset_groups (doc : Element) : pyresult (list LocationGroup) :=
  collect (λ rowset,
             id ← attr_int (attrib rowset) "locationID";
             items ← collect sample_item (findall rowset "row");
             Ok (mkLocationGroup id items))
          (findall doc "rowset").

Definition sample_runtime : Runtime := {|
  pyfloat := Z * nat;
  py_float := sample_float;
  float_truth := λ x, negb (Z.eqb (fst x) 0);
  ts := string;
  parse_ts := sample_parse_ts;
  keyval := string;
  parse_keyval_data := sample_parse_keyval_data;
  elem_getters := sample_elem_getters;
  corp_roles := sample_corp_roles;
  parsed := λ _, list Element;
  parse := λ _, rowset_rows;
  asset_groups := sample_asset_groups;
|}.

Definition sample_order : DictOrder :=
  mkDictOrder [("factions", "factions"); ("agents", "agents");
               ("corps", "NPCCorporations")]
              [("at_base", "corporationRolesAtBase");
               ("global", "corporationRoles");
               ("at_other", "corporationRolesAtOther");
               ("at_hq", "corporationRolesAtHQ")].

(** Documents are written with their attributes as a list of pairs. *)
Definition element (t : string) (attrs : list (string * string))
  (txt : option string) (cs : list Element) : Element :=
  Elem t (list_to_map attrs) txt cs.
Definition row (attrs : list (string * string)) : Element :=
  element "row" attrs None [].
Definition eveapi (cs : list Element) : APIResult Element :=
  mkAPIResult (element "result" [] None cs) 1255885531 1258571131.

(** ** Sample documents *)

Definition sample_order' : DictOrder :=
  mkDictOrder (map_to_list _name_map) (map_to_list sample_corp_roles).

Definition wallet_doc : APIResult Element :=
  eveapi [element "rowset" [("name", "accounts")] None
            [row [("accountID", "4807144"); ("accountKey", "1000");
                  ("balance", "209127823.31")]]].

Definition no_rowset_doc : APIResult Element := eveapi [].

Definition notifications_doc : APIResult Element :=
  eveapi [element "rowset" [("name", "notifications")] None
            [row [("notificationID", "303795523"); ("typeID", "16");
                  ("senderID", "797400947"); ("sentDate", "2009-12-02 10:54:00");
                  ("read", "1")];
             row [("notificationID", "304084087"); ("typeID", "16");
                  ("senderID", "797400947"); ("sentDate", "2009-12-03 11:20:00");
                  ("read", "0")]]].

Definition notifications_without_read : APIResult Element :=
  eveapi [element "rowset" [("name", "notifications")] None
            [row [("notificationID", "303795523"); ("typeID", "16");
                  ("senderID", "797400947");
                  ("sentDate", "2009-12-02 10:54:00")]]].

Definition notification_texts_doc : APIResult Element :=
  eveapi [element "rowset" [("name", "notifications")] None
            [element "row" [("notificationID", "1")] (Some "amount: 25") []];
          element "missingIDs" [] (Some "2") []].

Definition message_bodies_doc : APIResult Element :=
  eveapi [element "rowset" [("name", "messages")] None
            [element "row" [("messageID", "1")] (Some "Hello.") []];
          element "missingMessageIDs" [] (Some "2") []].

Definition zero_location_doc : APIResult Element :=
  eveapi [element "rowset" [("name", "locations")] None
            [row [("itemID", "0"); ("itemName", "x"); ("x", "1.5");
                  ("y", "0.0"); ("z", "-3")]]].

Definition messages_doc : APIResult Element :=
  eveapi [element "rowset" [("name", "messages")] None
            [row [("messageID", "290285276"); ("senderID", "999999999");
                  ("sentDate", "2009-12-01 01:04:00"); ("title", "Corp mail");
                  ("toCorpOrAllianceID", "999999999"); ("toCharacterIDs", "");
                  ("toListID", "")];
             row [("messageID", "290285275"); ("senderID", "999999999");
                  ("sentDate", "2009-12-01 01:04:00"); ("title", "Personal mail");
                  ("toCorpOrAllianceID", ""); ("toCharacterIDs", "999999999,3");
                  ("toListID", "")]]].

Definition attendees_doc : APIResult Element :=
  eveapi [element "rowset" [("name", "eventAttendees")] None
            [row [("eventID", "1"); ("characterID", "123456789");
                  ("characterName", "Jane Doe"); ("response", "Accepted")];
             row [("eventID", "1"); ("characterID", "987654321");
                  ("characterName", "John Doe"); ("response", "Tentative")]]].

Definition standing_rowset (name : string) (rows : list Element) : Element :=
  element "rowset" [("name", name)] None rows.

Definition standings_doc : APIResult Element :=
  eveapi [element "characterNPCStandings" [] None
            [standing_rowset "agents"
               [row [("fromID", "3009841"); ("fromName", "Pausent Ansin");
                     ("standing", "0.1")]];
             standing_rowset "NPCCorporations"
               [row [("fromID", "1000061"); ("fromName", "Freedom Extension");
                     ("standing", "0")]];
             standing_rowset "factions"
               [row [("fromID", "500003"); ("fromName", "Amarr Empire");
                     ("standing", "-0.1")]]]].

Definition standings_without_factions : APIResult Element :=
  eveapi [element "characterNPCStandings" [] None
            [standing_rowset "agents" [];
             standing_rowset "NPCCorporations" []]].

Definition leaf (t txt : string) : Element := element t [] (Some txt) [].

Definition sheet_doc : APIResult Element :=
  eveapi [leaf "characterID" "150337897"; leaf "name" "corpslave";
          leaf "DoB" "2006-01-01 00:00:00"; leaf "race" "Minmatar";
          leaf "bloodLine" "Brutor"; leaf "ancestry" "Slave Child";
          leaf "gender" "Female"; leaf "corporationName" "corpexport Corp";
          leaf "corporationID" "150337746"; leaf "allianceName" "";
          leaf "allianceID" "0"; leaf "cloneName" "Clone Grade Pi";
          leaf "cloneSkillPoints" "54600000"; leaf "balance" "190210393.87";
          element "attributeEnhancers" [] None
            [element "intelligenceBonus" [] None
               [leaf "augmentatorName" "Snake Delta"; leaf "augmentatorValue" "3"]];
          element "attributes" [] None
            [leaf "intelligence" "6"; leaf "memory" "4"; leaf "charisma" "7";
             leaf "perception" "12"; leaf "willpower" "10"];
          standing_rowset "skills"
            [row [("typeID", "3431"); ("skillpoints", "8000"); ("level", "3");
                  ("published", "1")];
             row [("typeID", "3413"); ("skillpoints", "250"); ("level", "1");
                  ("published", "0")]];
          standing_rowset "certificates" [row [("certificateID", "1")]];
          standing_rowset "corporationRoles"
            [row [("roleID", "1"); ("roleName", "roleDirector")]];
          standing_rowset "corporationRolesAtHQ" [];
          standing_rowset "corporationRolesAtBase" [];
          standing_rowset "corporationRolesAtOther" [];
          standing_rowset "corporationTitles"
            [row [("titleID", "1"); ("titleName", "Member")]]].

Definition events_doc : APIResult Element :=
  eveapi [element "rowset" [("name", "upcomingEvents")] None
            [row [("eventID", "93264"); ("ownerID", "1"); ("ownerName", "");
                  ("eventDate", "2011-03-26 09:00:00");
                  ("eventTitle", "EVE Online Fanfest 2011");
                  ("duration", "0"); ("importance", "0");
                  ("eventText", "Join us"); ("response", "Undecided")]]].

(** The end-to-end example of the specification: one location group with one
    item that holds one item without a location id of its own. *)
Definition assets_doc : APIResult Element :=
  eveapi [element "rowset" [("locationID", "60003760")] None
            [element "row" [("itemID", "100"); ("typeID", "34");
                            ("quantity", "5"); ("flag", "0"); ("singleton", "0")]
               None
               [element "rowset" [("name", "contents")] None
                  [row [("itemID", "101"); ("typeID", "21"); ("quantity", "1");
                        ("flag", "0"); ("singleton", "0")]]]]].

Definition repeated_notification_doc : APIResult Element :=
  eveapi [element "rowset" [("name", "notifications")] None
            [row [("notificationID", "7"); ("typeID", "16"); ("senderID", "1");
                  ("sentDate", "2009-12-02 10:54:00"); ("read", "1")];
             row [("notificationID", "7"); ("typeID", "16"); ("senderID", "1");
                  ("sentDate", "2009-12-02 10:54:00"); ("read", "0")]]].

Definition mailing_lists_doc : APIResult Element :=
  eveapi [element "rowset" [("name", "mailingLists")] None
            [row [("listID", "128250439"); ("displayName", "EVETycoonMail")];
             row [("listID", "141157801"); ("displayName", "EVEMarketScanner")]]].

Definition medals_doc : APIResult Element :=
  eveapi [standing_rowset "currentCorporation"
            [row [("medalID", "95079"); ("reason", "For continued support");
                  ("status", "public"); ("issuerID", "146310321");
                  ("corporationID", "1711141370"); ("title", "Medal of Service");
                  ("description", "Awarded for service")]];
          standing_rowset "otherCorporations" []].

Definition skill_queue_doc : APIResult Element :=
  eveapi [element "rowset" [("name", "skillqueue")] None
            [row [("queuePosition", "1"); ("typeID", "11441"); ("level", "3");
                  ("startSP", "7072"); ("endSP", "40000");
                  ("startTime", "2009-03-18 02:01:06");
                  ("endTime", "2009-03-18 15:19:21")];
             row [("queuePosition", "0"); ("typeID", "20533"); ("level", "4");
                  ("startSP", "112000"); ("endSP", "633542");
                  ("startTime", "2009-03-18 15:19:21");
                  ("endTime", "2009-03-30 03:16:14")]]].

Definition trailing_comma_doc : APIResult Element :=
  eveapi [element "rowset" [("name", "messages")] None
            [element "row" [("messageID", "1")] (Some "Hello.") []];
          element "missingMessageIDs" [] (Some "2,") []].

(** ** Vocabulary of the statements *)

(** Loops of the form [for x in xs: k, v = f(x); d[k] = v]. *)
Definition keyed_loop {A K V} `{Countable K} (f : A → pyresult (K * V))
    (xs : list A) (d : gmap K V) : pyresult (gmap K V) :=
  for_each xs (λ x d, kv ← f x; Ok (<[kv.1 := kv.2]> d)) d.

(** The sum of a list of integers. *)
Definition sum_Z (l : list Z) : Z := foldr Z.add 0 l.

(** The ids listed in a companion element such as [missingIDs]. *)
Definition listed_ids (doc : Element) (t : string) : pyresult (list string) :=
  match find doc t with
  | Some missing => s ← deref (text missing); Ok (split "," s)
  | None => Ok []
  end.

(** What the loop of [calendar_attendees] maintains, after the rows [done]. *)
Definition attendees_inv (event_ids : list PyKey) (done : list Element)
    (results : gmap PyKey (gmap Z Attendee)) : Prop :=
  (∀ id_, id_ ∈ event_ids → is_Some (results !! id_)) ∧
  (∀ k of_event c a, results !! k = Some of_event → of_event !! c = Some a →
     ∃ row ev, row ∈ done ∧ attendee_of_row row = Ok a ∧ attendee_id a = c ∧
               attr_int (attrib row) "eventID" = Ok ev ∧ k = KInt ev) ∧
  (∀ row, row ∈ done →
     ∃ a ev of_event, attendee_of_row row = Ok a ∧
       attr_int (attrib row) "eventID" = Ok ev ∧
       results !! KInt ev = Some of_event ∧ is_Some (of_event !! attendee_id a)).

Section Vocabulary.
Context {RT : Runtime}.

(** The attributes of a mail header that are always read, and the three
    recipient attributes, each empty or a list of integers. *)
Definition header_well_formed (row : Element) : Prop :=
  let a := attrib row in
  succeeds (attr_int a "messageID") ∧ succeeds (attr_int a "senderID") ∧
  succeeds (attr_ts a "sentDate") ∧ is_Some (a !! "title").

Definition recipients_well_formed (row : Element) : Prop :=
  let a := attrib row in
  (∃ s, a !! "toCorpOrAllianceID" = Some s ∧ (s = "" ∨ succeeds (py_int s))) ∧
  (∃ s, a !! "toCharacterIDs" = Some s ∧
        (s = "" ∨ succeeds (collect py_int (split "," s)))) ∧
  (∃ s, a !! "toListID" = Some s ∧
        (s = "" ∨ succeeds (collect py_int (split "," s)))).

(** A medal stored under [name] and [k]: read from a row with the medal id
    [k] of a rowset that [_map] sends to [name]. *)
Definition medal_from (rowsets : list Element) (name : string) (k : Z)
    (m : Medal) : Prop :=
  ∃ rowset rowset_name row,
    rowset ∈ rowsets ∧ attrib rowset !! "name" = Some rowset_name ∧
    _map !! rowset_name = Some name ∧ row ∈ findall rowset "row" ∧
    medal_of_row row = Ok m ∧ medal_id m = k.

(** A row and the numbers read from some of its attributes. *)
Definition reads_int (row : Element) (fields : list (string * Z)) : Prop :=
  Forall (λ field, attr_int (attrib row) field.1 = Ok field.2) fields.
Definition reads_float (row : Element) (fields : list (string * pyfloat)) : Prop :=
  Forall (λ field, attr_float (attrib row) field.1 = Ok field.2) fields.

(** Some row of the first rowset of the document has the property. *)
Definition from_row (doc : Element) (P : Element → Prop) : Prop :=
  ∃ rows row, rowset_rows doc = Ok rows ∧ row ∈ rows ∧ P row.

(** The attributes that an operation indexes on every row of the first
    rowset ([a['...']] in the body of its loop over the rows). *)
Definition row_attributes (op : Operation) : list string :=
  match op with
  | OpNotifications =>
      ["notificationID"; "typeID"; "senderID"; "sentDate"; "read"]
  | OpNotificationTexts => ["notificationID"]
  | OpResearch =>
      ["agentID"; "skillTypeID"; "researchStartDate"; "pointsPerDay";
       "remainderPoints"]
  | OpSkillQueue =>
      ["queuePosition"; "typeID"; "level"; "startSP"; "endSP"; "startTime";
       "endTime"]
  | OpMessages =>
      ["messageID"; "senderID"; "sentDate"; "title"; "toCorpOrAllianceID";
       "toCharacterIDs"; "toListID"]
  | OpMessageBodies => ["messageID"]
  | OpMailingLists => ["displayName"; "listID"]
  | OpCalendarEvents =>
      ["eventID"; "ownerID"; "ownerName"; "eventDate"; "eventTitle";
       "duration"; "importance"; "eventText"; "response"]
  | OpCalendarAttendees _ | OpEventAttendees _ =>
      ["characterID"; "characterName"; "response"; "eventID"]
  | OpContactNotifications =>
      ["notificationID"; "senderID"; "senderName"; "sentDate"; "messageData"]
  | OpLocations => ["itemName"; "itemID"; "x"; "y"; "z"]
  | _ => []
  end.

(** The attributes that [character_sheet] indexes on every child of the
    rowset with the given name; the rowsets of the role table are read like
    [corporationRoles]. *)
Definition sheet_row_attributes (name : string) : list string :=
  if decide (name = "skills") then ["skillpoints"; "typeID"; "level"; "published"]
  else if decide (name = "certificates") then ["certificateID"]
  else if decide (name = "corporationTitles") then ["titleID"; "titleName"]
  else [].

Definition medal_attributes : list string :=
  ["medalID"; "reason"; "status"; "issuerID"; "corporationID"; "title";
   "description"].

(** The operations that open with [find('rowset')] and read its rows. *)
Definition single_rowset_operations (event_ids : list PyKey) : list Operation :=
  [OpWalletInfo; OpNotifications; OpNotificationTexts; OpResearch; OpSkillQueue;
   OpMessages; OpMessageBodies; OpMailingLists; OpCalendarEvents;
   OpCalendarAttendees event_ids; OpContactNotifications; OpLocations].

(** The loop of [standings] over [_name_map.iteritems()]. *)
Definition standings_of (rowsets : gmap string Element) (item : string * string)
  : pyresult (string * gmap Z Standing) :=
  rowset ← getitem rowsets item.2;
  entries ← for_each (findall rowset "row")
    (λ row entries, s ← standing_of_row row; Ok (<[standing_id s := s]> entries)) ∅;
  Ok (item.1, entries).

(** The loop of [character_sheet] over [corp_roles.iteritems()]. *)
Definition roles_of (rowsets : gmap string Element) (item : string * string)
  : pyresult (string * gmap Z (Named Z string)) :=
  rowset ← getitem rowsets item.2;
  entries ← named_rows "roleID" "roleName" (children rowset);
  Ok (item.1, entries).

End Vocabulary.

(** * Properties *)

(** ** The built-ins on examples *)

Example py_int_examples :
  py_int "42" = Ok 42 ∧ py_int " -7 " = Ok (-7) ∧ py_int "0" = Ok 0 ∧
  py_int "" = Raise ValueError ∧ py_int "1,2" = Raise ValueError.
Proof. repeat split; reflexivity. Qed.

Example split_examples :
  split "," "" = [""] ∧ split "," "1,2" = ["1"; "2"] ∧ split "," "7," = ["7"; ""].
Proof. repeat split; reflexivity. Qed.


(** ** The error monad and the loops *)

Lemma bind_Ok {A B} (m : pyresult A) (f : A → pyresult B) (b : B) :
  m ≫= f = Ok b ↔ ∃ a, m = Ok a ∧ f a = Ok b.
Proof.
  destruct m as [a|e]; simpl; split.
  - intros Hf. by exists a.
  - by intros (a' & [= <-] & Hf).
  - discriminate.
  - by intros (a' & [=] & _).
Qed.

Lemma bind_fails_l {A B} (m : pyresult A) (f : A → pyresult B) :
  fails m → fails (m ≫= f).
Proof. intros [e ->]. by exists e. Qed.

Lemma bind_fails_r {A B} (m : pyresult A) (f : A → pyresult B) :
  (∀ a, fails (f a)) → fails (m ≫= f).
Proof. intros Hf. destruct m as [a|e]; simpl; [apply Hf | by exists e]. Qed.

Lemma fails_not_Ok {A} (m : pyresult A) (a : A) : fails m → m ≠ Ok a.
Proof. by intros [e ->]. Qed.

Lemma succeeds_or_fails {A} (m : pyresult A) : succeeds m ∨ fails m.
Proof. destruct m as [a|e]; [left; by exists a | right; by exists e]. Qed.

(** Splits [H : (x ← m; k x) = Ok b] into the results of the steps. *)
Ltac bind_inv H :=
  repeat match type of H with
         | (?m ≫= _) = Ok _ =>
             let E := fresh "E" in
             destruct m eqn:E; cbn [mbind pyresult_bind] in H;
             [| discriminate H]
         end.

Lemma getitem_Ok `{Countable K} {V} (d : gmap K V) (k : K) (v : V) :
  getitem d k = Ok v ↔ d !! k = Some v.
Proof.
  unfold getitem. destruct (d !! k); split; intros Hv; by simplify_eq.
Qed.

Lemma getitem_absent `{Countable K} {V} (d : gmap K V) (k : K) :
  d !! k = None → getitem d k = Raise KeyError.
Proof. unfold getitem. by intros ->. Qed.

(** A loop fails as soon as one pass fails in every state. *)
Lemma for_each_fails_at {A S} (xs : list A) (body : A → S → pyresult S)
    (s : S) (x : A) :
  x ∈ xs → (∀ s', fails (body x s')) → fails (for_each xs body s).
Proof.
  intros Hx Hbody. revert s.
  induction xs as [|y xs IH]; intros s; [by apply elem_of_nil in Hx|].
  apply elem_of_cons in Hx as [<- | Hx]; simpl.
  - apply bind_fails_l, Hbody.
  - apply bind_fails_r. intros s'. by apply IH.
Qed.

(** Loop invariants. *)
Lemma for_each_invariant {A S} (P : list A → S → Prop) (xs : list A)
    (body : A → S → pyresult S) (s s' : S) :
  P [] s →
  (∀ done x t t', P done t → body x t = Ok t' → P (done ++ [x]) t') →
  for_each xs body s = Ok s' → P xs s'.
Proof.
  intros Hinit Hstep.
  cut (∀ done, P done s → for_each xs body s = Ok s' → P (done ++ xs) s').
  { intros Hgen. by apply (Hgen []). }
  clear Hinit. revert s.
  induction xs as [|x xs IH]; intros s done HP Hrun; simpl in Hrun.
  - simplify_eq. by rewrite app_nil_r.
  - apply bind_Ok in Hrun as (t & Hx & Hrest).
    replace (done ++ x :: xs) with ((done ++ [x]) ++ xs)
      by by rewrite <- app_assoc.
    eapply IH; [|done]. by eapply Hstep.
Qed.

Lemma collect_Ok_Forall2 {A B} (f : A → pyresult B) (xs : list A) (ys : list B) :
  collect f xs = Ok ys ↔ Forall2 (λ x y, f x = Ok y) xs ys.
Proof.
  revert ys. induction xs as [|x xs IH]; intros ys; simpl.
  - split; [intros [= <-]; constructor | by inversion 1].
  - split.
    + intros Hrun. apply bind_Ok in Hrun as (y & Hy & Hrun).
      apply bind_Ok in Hrun as (ys' & Hys & [= <-]).
      constructor; [done | by apply IH].
    + inversion 1 as [|? y ? ys' Hy Hys]; subst.
      rewrite Hy. simpl. apply IH in Hys. by rewrite Hys.
Qed.

Lemma collect_succeeds {A B} (f : A → pyresult B) (xs : list A) :
  Forall (λ x, succeeds (f x)) xs → succeeds (collect f xs).
Proof.
  induction 1 as [|x xs [y Hy] _ [ys Hys]]; simpl; [by eexists|].
  rewrite Hy. simpl. rewrite Hys. by eexists.
Qed.

Lemma collect_fails_at {A B} (f : A → pyresult B) (xs : list A) (x : A) :
  x ∈ xs → fails (f x) → fails (collect f xs).
Proof.
  intros Hx Hf.
  induction xs as [|y xs IH]; [by apply elem_of_nil in Hx|].
  apply elem_of_cons in Hx as [<- | Hx]; simpl.
  - by apply bind_fails_l.
  - apply bind_fails_r. intros b. apply bind_fails_l. by apply IH.
Qed.

Lemma for_each_ext {A S} (xs : list A) (body body' : A → S → pyresult S) (s : S) :
  (∀ x t, body x t = body' x t) → for_each xs body s = for_each xs body' s.
Proof.
  intros Hext. revert s. induction xs as [|x xs IH]; intros s; simpl; [done|].
  rewrite Hext. destruct (body' x s); simpl; [apply IH | done].
Qed.

Lemma keyed_loop_each_Ok {A K V} `{Countable K} (f : A → pyresult (K * V))
    (xs : list A) (d d' : gmap K V) (x : A) :
  keyed_loop f xs d = Ok d' → x ∈ xs → succeeds (f x).
Proof.
  intros Hrun Hx. destruct (succeeds_or_fails (f x)) as [|Hf]; [done|].
  exfalso. eapply fails_not_Ok; [|exact Hrun].
  unfold keyed_loop.
  eapply for_each_fails_at; [done|]. intros t. by apply bind_fails_l.
Qed.

(** An entry of the final dictionary was there at the start or was stored by
    some pass. *)
Lemma keyed_loop_lookup {A K V} `{Countable K} (f : A → pyresult (K * V))
    (xs : list A) (d d' : gmap K V) (k : K) (v : V) :
  keyed_loop f xs d = Ok d' → d' !! k = Some v →
  d !! k = Some v ∨ ∃ x, x ∈ xs ∧ f x = Ok (k, v).
Proof.
  unfold keyed_loop.
  revert d. induction xs as [|x xs IH]; intros d Hrun Hk; simpl in Hrun.
  - simplify_eq. by left.
  - apply bind_Ok in Hrun as (d1 & Hx & Hrun).
    apply bind_Ok in Hx as ([k1 v1] & Hf & [= <-]).
    destruct (IH _ Hrun Hk) as [Hd1 | (y & Hy & Hfy)].
    + simpl in Hd1. destruct (decide (k1 = k)) as [->|Hne].
      * rewrite lookup_insert_eq in Hd1. simplify_eq.
        right. exists x. split; [left | done].
      * rewrite lookup_insert_ne in Hd1 by done. by left.
    + right. exists y. split; [by right | done].
Qed.

(** The keys of the final dictionary: those at the start and those stored. *)
Lemma keyed_loop_dom {A K V} `{Countable K} (f : A → pyresult (K * V))
    (xs : list A) (d d' : gmap K V) (k : K) :
  keyed_loop f xs d = Ok d' →
  k ∈ dom d' ↔ k ∈ dom d ∨ ∃ x v, x ∈ xs ∧ f x = Ok (k, v).
Proof.
  unfold keyed_loop.
  revert d. induction xs as [|x xs IH]; intros d Hrun; simpl in Hrun.
  - simplify_eq. split; [by left|]. intros [Hk | (x & v & Hx & _)]; [done|].
    by apply elem_of_nil in Hx.
  - apply bind_Ok in Hrun as (d1 & Hx & Hrun).
    apply bind_Ok in Hx as ([k1 v1] & Hf & [= <-]).
    rewrite (IH _ Hrun). simpl. rewrite dom_insert, elem_of_union, elem_of_singleton.
    split.
    + intros [[-> | Hk] | (y & v & Hy & Hfy)].
      * right. exists x, v1. split; [left | done].
      * by left.
      * right. exists y, v. split; [by right | done].
    + intros [Hk | (y & v & Hy & Hfy)]; [left; by right|].
      apply elem_of_cons in Hy as [-> | Hy].
      * rewrite Hf in Hfy. simplify_eq. left. by left.
      * right. by exists y, v.
Qed.

(** An entry of the final dictionary was there at the start and no pass
    stored under its key, or it is what the last pass that stored under its
    key computed. *)
Lemma keyed_loop_lookup_last {A K V} `{Countable K} (f : A → pyresult (K * V))
    (xs : list A) (d d' : gmap K V) (k : K) (v : V) :
  keyed_loop f xs d = Ok d' → d' !! k = Some v →
  (d !! k = Some v ∧ ∀ x v', x ∈ xs → f x ≠ Ok (k, v')) ∨
  ∃ before x after, xs = before ++ x :: after ∧ f x = Ok (k, v) ∧
                    ∀ y v', y ∈ after → f y ≠ Ok (k, v').
Proof.
  unfold keyed_loop.
  revert d. induction xs as [|x xs IH]; intros d Hrun Hk; simpl in Hrun.
  - simplify_eq. left. split; [done|]. intros x v' Hx. by apply elem_of_nil in Hx.
  - apply bind_Ok in Hrun as (d1 & Hx & Hrun).
    apply bind_Ok in Hx as ([k1 v1] & Hf & [= <-]).
    destruct (IH _ Hrun Hk)
      as [[Hd1 Hnone] | (before & y & after & -> & Hfy & Hafter)].
    + simpl in Hd1. destruct (decide (k1 = k)) as [->|Hne].
      * rewrite lookup_insert_eq in Hd1. simplify_eq.
        right. by exists [], x, xs.
      * rewrite lookup_insert_ne in Hd1 by done. left. split; [done|].
        intros y v' [-> | Hy]%elem_of_cons; [congruence | by apply Hnone].
    + right. by exists (x :: before), y, after.
Qed.

(** [for k in ks: d[g(k)] = v] *)
Lemma foldl_insert_const_lookup {A K V} `{Countable K} (g : A → K) (v : V)
    (ks : list A) (d : gmap K V) (k : K) :
  foldl (λ d x, <[g x := v]> d) d ks !! k =
    if decide (k ∈ g <$> ks) then Some v else d !! k.
Proof.
  revert d. induction ks as [|x ks IH]; intros d.
  - rewrite decide_False; [done | apply not_elem_of_nil].
  - cbn [foldl]. rewrite IH, fmap_cons.
    destruct (decide (k = g x)) as [->|Hne].
    + rewrite (decide_True (P := g x ∈ g x :: _)) by left.
      case_decide; [done | apply lookup_insert_eq].
    + rewrite lookup_insert_ne by done.
      destruct (decide (k ∈ g <$> ks)) as [Hin|Hnin].
      * by rewrite decide_True by by right.
      * rewrite decide_False; [done|]. by intros [?|?]%elem_of_cons.
Qed.

(** A loop that stores under the first component of each item does not depend
    on the order of the items when no two items share that component. *)
Lemma keyed_loop_perm {A K V} `{Countable K} (f : K * A → pyresult (K * V))
    (xs ys : list (K * A)) :
  (∀ x k v, f x = Ok (k, v) → k = x.1) →
  xs ≡ₚ ys → NoDup (xs.*1) →
  ∀ d d', keyed_loop f xs d = Ok d' → keyed_loop f ys d = Ok d'.
Proof.
  intros Hkey Hperm. unfold keyed_loop.
  induction Hperm as [|x xs ys Hperm IH|x y xs|xs ys zs Hxy IHxy Hyz IHyz];
    intros Hnodup d d' Hrun.
  - done.
  - simpl in *. apply bind_Ok in Hrun as (d1 & Hx & Hrun). rewrite Hx. simpl.
    apply IH; [|done]. by apply NoDup_cons in Hnodup as [_ ?].
  - simpl in *.
    apply bind_Ok in Hrun as (d1 & Hy & Hrun).
    apply bind_Ok in Hy as ([ky vy] & Hfy & [= <-]).
    apply bind_Ok in Hrun as (d2 & Hx & Hrun).
    apply bind_Ok in Hx as ([kx vx] & Hfx & [= <-]).
    rewrite Hfx, Hfy. simpl in *. rewrite insert_insert_ne; [done|].
    apply Hkey in Hfx, Hfy. subst.
    apply NoDup_cons in Hnodup as [Hnotin _]. set_solver.
  - apply IHyz; [by rewrite <- Hxy|]. by apply IHxy.
Qed.

Section Properties.
Context {RT : Runtime}.

(** ** The envelope *)

Lemma wallet_info_envelope (api_result : APIResult Element) (e : APIResult Wallet) :
  wallet_info api_result = Ok e →
  timestamp e = timestamp api_result ∧ expires e = expires api_result.
Proof.
  unfold wallet_info. intros Hrun. bind_inv Hrun. by simplify_eq.
Qed.

Lemma calendar_attendees_envelope (event_ids : list PyKey)
    (api_result : APIResult Element) (e : APIResult (gmap PyKey (gmap Z Attendee))) :
  calendar_attendees event_ids api_result = Ok e →
  timestamp e = timestamp api_result ∧ expires e = expires api_result.
Proof.
  unfold calendar_attendees. intros Hrun. bind_inv Hrun. by simplify_eq.
Qed.

(** C7. Whenever a public operation returns an envelope, its two time stamps
    are the ones of the [api_result] that the transport supplied for the
    call, whatever the operation and the document. *)
Theorem envelope_timestamps_pass_through (order : DictOrder) (op : Operation)
    (api_result : APIResult Element) (e : APIResult (shape op)) :
  call order op api_result = Ok e →
  timestamp e = timestamp api_result ∧ expires e = expires api_result.
Proof.
  destruct op; cbn [call shape] in *; intros Hrun.
  all: try (unfold assets, contract_bids, contract_items, contracts,
              wallet_journal, wallet_transactions, industry_jobs, kills,
              contacts, orders, delegate, notifications, notification_texts,
              standings, character_sheet, research, current_training,
              skill_queue, messages, message_bodies, mailing_lists,
              calendar_events, faction_warfare_stats, medals,
              contact_notifications, locations in Hrun;
            bind_inv Hrun; by simplify_eq).
  - by apply wallet_info_envelope.
  - unfold wallet_balance in Hrun. bind_inv Hrun. simplify_eq. simpl.
    by eapply wallet_info_envelope.
  - by eapply calendar_attendees_envelope.
  - unfold event_attendees in Hrun. bind_inv Hrun. simplify_eq. simpl.
    by eapply calendar_attendees_envelope.
Qed.

(** C10. [wallet_balance] returns the ['balance'] field of what [wallet_info]
    returns on the same document, under the same two time stamps, and raises
    what [wallet_info] raises. *)
Theorem wallet_balance_of_wallet_info (api_result : APIResult Element) :
  match wallet_info api_result with
  | Ok info =>
      wallet_balance api_result =
        Ok (mkAPIResult (wallet_balance_field (result info))
                        (timestamp info) (expires info))
  | Raise err => wallet_balance api_result = Raise err
  end.
Proof.
  unfold wallet_balance.
  destruct (wallet_info api_result) as [info|err] eqn:Hinfo; simpl.
  - reflexivity.
  - reflexivity.
Qed.

(** ** Operations with a list of missing ids *)

(** The key set of [message_bodies] is the union of the ids of the rows and
    of the ids listed as missing, and every id listed as missing maps to
    [None]. *)
Lemma message_bodies_keys (api_result : APIResult Element)
    (e : APIResult (gmap Z (option string))) :
  message_bodies api_result = Ok e →
  ∃ rows missing,
    rowset_rows (result api_result) = Ok rows ∧
    (listed_ids (result api_result) "missingMessageIDs" ≫= collect py_int)
      = Ok missing ∧
    (∀ k, k ∈ dom (result e) ↔
          (∃ row, row ∈ rows ∧ attr_int (attrib row) "messageID" = Ok k) ∨
          k ∈ missing) ∧
    (∀ k, k ∈ missing → result e !! k = Some None).
Proof.
  unfold message_bodies. intros Hrun. bind_inv Hrun. simplify_eq. simpl.
  rename a into rows, a0 into by_row, a1 into results.
  erewrite (for_each_ext _ _
    (λ x d, kv ← (k ← attr_int (attrib x) "messageID"; Ok (k, text x));
            Ok (<[kv.1 := kv.2]> d))) in E0.
  2:{ intros x t. by destruct (attr_int (attrib x) "messageID"). }
  assert (∃ missing,
    (listed_ids (result api_result) "missingMessageIDs" ≫= collect py_int)
      = Ok missing ∧
    results = foldl (λ d m, <[m := None]> d) by_row missing)
    as (missing & Hmissing & ->).
  { unfold listed_ids.
    destruct (find (result api_result) "missingMessageIDs") as [el|].
    - bind_inv E1. simplify_eq. simpl. eauto.
    - simplify_eq. by exists []. }
  exists rows, missing. split_and!; [done | done | |].
  - intros k. rewrite elem_of_dom.
    rewrite (foldl_insert_const_lookup (λ m, m)), list_fmap_id.
    case_decide as Hk.
    + split; [by right | by eexists].
    + rewrite <- elem_of_dom, (keyed_loop_dom _ _ _ _ k E0), dom_empty.
      split.
      * intros [Hin | (row & v & Hrow & Hf)]; [set_solver|].
        left. exists row. split; [done|].
        by destruct (attr_int (attrib row) "messageID"); simplify_eq/=.
      * intros [(row & Hrow & Hid) | Hin]; [|done].
        right. exists row, (text row). by rewrite Hid.
  - intros k Hk.
    rewrite (foldl_insert_const_lookup (λ m, m)), list_fmap_id.
    by rewrite decide_True.
Qed.

(** The keys of [notification_texts]: the integer ids of the rows, and the
    pieces of the text of [missingIDs], each kept as a string. *)
Lemma notification_texts_keys (api_result : APIResult Element)
    (e : APIResult (gmap PyKey (option (gmap string NoteValue)))) :
  notification_texts api_result = Ok e →
  ∃ rows missing,
    rowset_rows (result api_result) = Ok rows ∧
    listed_ids (result api_result) "missingIDs" = Ok missing ∧
    ∀ k, k ∈ dom (result e) ↔
         (∃ row z, row ∈ rows ∧ k = KInt z ∧
                   attr_int (attrib row) "notificationID" = Ok z) ∨
         (∃ s, s ∈ missing ∧ k = KStr s).
Proof.
  unfold notification_texts. intros Hrun. bind_inv Hrun. simplify_eq. simpl.
  rename a into rows, a0 into by_row, a1 into results.
  erewrite (for_each_ext _ _
    (λ x d, kv ← (z ← attr_int (attrib x) "notificationID";
                  data ← parse_keyval_data (text x);
                  Ok (KInt z, Some (notification_text z data)));
            Ok (<[kv.1 := kv.2]> d))) in E0.
  2:{ intros x t. destruct (attr_int (attrib x) "notificationID"); [|done].
      simpl. by destruct (parse_keyval_data (text x)). }
  assert (∃ missing,
    listed_ids (result api_result) "missingIDs" = Ok missing ∧
    results = foldl (λ d m, <[KStr m := None]> d) by_row missing)
    as (missing & Hmissing & ->).
  { unfold listed_ids.
    destruct (find (result api_result) "missingIDs") as [el|].
    - bind_inv E1. simplify_eq. simpl. by eexists.
    - simplify_eq. by exists []. }
  exists rows, missing. split_and!; [done | done |].
  intros k. rewrite elem_of_dom, (foldl_insert_const_lookup KStr).
  case_decide as Hk.
  - split; [|by eexists]. intros _. right.
    apply list_elem_of_fmap in Hk as (s & -> & Hs). by exists s.
  - rewrite <- elem_of_dom, (keyed_loop_dom _ _ _ _ k E0), dom_empty.
    split.
    + intros [Hin | (row & v & Hrow & Hf)]; [set_solver|].
      left. apply bind_Ok in Hf as (z & Hz & Hf).
      apply bind_Ok in Hf as (data & _ & [= <- <-]).
      by exists row, z.
    + intros [(row & z & Hrow & -> & Hz) | (s & Hs & ->)].
      * right.
        destruct (keyed_loop_each_Ok _ _ _ _ row E0 Hrow) as [[k v] Hf].
        exists row, v. split; [done|]. rewrite Hf. f_equal. f_equal.
        rewrite Hz in Hf. simpl in Hf.
        by destruct (parse_keyval_data (text row)); simplify_eq/=.
      * exfalso. apply Hk, list_elem_of_fmap. by exists s.
Qed.

(** ** Boolean fields *)

Lemma getitem_fails `{Countable K} {V} (d : gmap K V) (k : K) :
  d !! k = None → fails (getitem d k).
Proof. intros Hk. rewrite getitem_absent by done. by eexists. Qed.

Lemma attr_absent_fails {A} (a : gmap string string) (k : string)
    (f : string → pyresult A) :
  a !! k = None → fails (getitem a k ≫= f).
Proof. intros Hk. by apply bind_fails_l, getitem_fails. Qed.

Lemma notification_of_row_read (row : Element) (n : Notification) :
  notification_of_row row = Ok n →
  ∃ v, attrib row !! "read" = Some v ∧
       notification_read n = bool_decide (v = "1").
Proof.
  unfold notification_of_row. intros Hrow. bind_inv Hrow. simplify_eq. simpl.
  apply getitem_Ok in E3. eauto.
Qed.

Lemma notification_of_row_no_read (row : Element) :
  attrib row !! "read" = None → fails (notification_of_row row).
Proof.
  intros Hread. unfold notification_of_row.
  do 4 (apply bind_fails_r; intros ?). by apply attr_absent_fails.
Qed.

Lemma event_of_row_important (row : Element) (ev : Event) :
  event_of_row row = Ok ev →
  ∃ v, attrib row !! "importance" = Some v ∧
       event_important ev = bool_decide (v = "1").
Proof.
  unfold event_of_row. intros Hrow. bind_inv Hrow. simplify_eq. simpl.
  apply getitem_Ok in E5. eauto.
Qed.

Lemma event_of_row_no_importance (row : Element) :
  attrib row !! "importance" = None → fails (event_of_row row).
Proof.
  intros Himp. unfold event_of_row.
  do 6 (apply bind_fails_r; intros ?). by apply attr_absent_fails.
Qed.

Lemma skill_of_row_published (row : Element) (sk : Skill) :
  skill_of_row row = Ok sk →
  ∃ v, attrib row !! "published" = Some v ∧
       skill_published sk = bool_decide (v = "1").
Proof.
  unfold skill_of_row. intros Hrow. bind_inv Hrow. simplify_eq. simpl.
  apply getitem_Ok in E2. eauto.
Qed.

Lemma skill_of_row_no_published (row : Element) :
  attrib row !! "published" = None → fails (skill_of_row row).
Proof.
  intros Hpub. unfold skill_of_row.
  do 3 (apply bind_fails_r; intros ?). by apply attr_absent_fails.
Qed.

Lemma notifications_keyed (api_result : APIResult Element)
    (e : APIResult (gmap Z Notification)) :
  notifications api_result = Ok e →
  ∃ rows, rowset_rows (result api_result) = Ok rows ∧
    keyed_loop (λ row, n ← notification_of_row row; Ok (notification_id n, n))
               rows ∅ = Ok (result e).
Proof.
  unfold notifications. intros Hrun. bind_inv Hrun. simplify_eq. simpl.
  eexists. split; [done|]. unfold keyed_loop. rewrite <- E0.
  apply for_each_ext. intros x t. by destruct (notification_of_row x).
Qed.

Lemma calendar_events_keyed (api_result : APIResult Element)
    (e : APIResult (gmap Z Event)) :
  calendar_events api_result = Ok e →
  ∃ rows, rowset_rows (result api_result) = Ok rows ∧
    keyed_loop (λ row, ev ← event_of_row row; Ok (event_id ev, ev))
               rows ∅ = Ok (result e).
Proof.
  unfold calendar_events. intros Hrun. bind_inv Hrun. simplify_eq. simpl.
  eexists. split; [done|]. unfold keyed_loop. rewrite <- E0.
  apply for_each_ext. intros x t. by destruct (event_of_row x).
Qed.

(** The skills of a character sheet are the rows of the rowset named
    [skills], read one by one. *)
Lemma character_sheet_skills (order : DictOrder) (api_result : APIResult Element)
    (e : APIResult CharacterSheet) :
  character_sheet order api_result = Ok e →
  ∃ rowsets skills,
    rowsets_by_name (findall (result api_result) "rowset") = Ok rowsets ∧
    rowsets !! "skills" = Some skills ∧
    collect skill_of_row (children skills) = Ok (sheet_skills (result e)).
Proof.
  unfold character_sheet. intros Hrun. bind_inv Hrun. simplify_eq. simpl.
  apply getitem_Ok in E15. eauto.
Qed.

Lemma notification_of_row_id (row : Element) (n : Notification) :
  notification_of_row row = Ok n →
  attr_int (attrib row) "notificationID" = Ok (notification_id n).
Proof.
  unfold notification_of_row. intros Hrow. bind_inv Hrow. by simplify_eq.
Qed.

Lemma event_of_row_id (row : Element) (ev : Event) :
  event_of_row row = Ok ev →
  attr_int (attrib row) "eventID" = Ok (event_id ev).
Proof.
  unfold event_of_row. intros Hrow. bind_inv Hrow. by simplify_eq.
Qed.

Lemma medal_of_row_fields (row : Element) (m : Medal) :
  medal_of_row row = Ok m →
  attr_int (attrib row) "medalID" = Ok (medal_id m) ∧
  attrib row !! "reason" = Some (medal_reason m) ∧
  (∃ v, attrib row !! "status" = Some v ∧
        medal_public m = bool_decide (v = "public")) ∧
  attr_int (attrib row) "issuerID" = Ok (medal_issuer_id m) ∧
  attr_int (attrib row) "corporationID" = Ok (medal_corp_id m) ∧
  attrib row !! "title" = Some (medal_title m) ∧
  attrib row !! "description" = Some (medal_description m).
Proof.
  unfold medal_of_row. cbn zeta. intros Hrow. bind_inv Hrow.
  simplify_eq. simpl.
  repeat match goal with
         | H : getitem _ _ = Ok _ |- _ => apply getitem_Ok in H
         end.
  split_and!; eauto.
Qed.

(** In a loop [d[key(x)] = value(x)] the entry of a key comes from the last
    item with that key. *)
Lemma keyed_rows_last {V} (f : Element → pyresult V) (key : V → Z)
    (id_attr : string) (rows : list Element) (d : gmap Z V) (k : Z) (v : V) :
  (∀ row v, f row = Ok v → attr_int (attrib row) id_attr = Ok (key v)) →
  keyed_loop (λ row, v ← f row; Ok (key v, v)) rows ∅ = Ok d →
  d !! k = Some v →
  ∃ before row after, rows = before ++ row :: after ∧ f row = Ok v ∧
    attr_int (attrib row) id_attr = Ok k ∧
    ∀ later, later ∈ after → attr_int (attrib later) id_attr ≠ Ok k.
Proof.
  intros Hid Hloop Hk.
  destruct (keyed_loop_lookup_last _ _ _ _ _ _ Hloop Hk)
    as [[Hempty _] | (before & row & after & -> & Hf & Hafter)].
  { by rewrite lookup_empty in Hempty. }
  apply bind_Ok in Hf as (v' & Hv & [= <- <-]).
  exists before, row, after. split_and!; [done | done | by apply Hid |].
  intros later Hlater Hsame.
  assert (later ∈ before ++ row :: after) as Hin.
  { apply elem_of_app. right. by right. }
  destruct (keyed_loop_each_Ok _ _ _ _ _ Hloop Hin) as [[k' w] Hw].
  apply bind_Ok in Hw as (w' & Hw & [= <- <-]).
  apply (Hafter later w' Hlater). cbn beta. rewrite Hw. simpl.
  apply Hid in Hw. congruence.
Qed.

(** The rows of one rowset of [medals]. *)
Lemma medals_rows_from (rowsets : list Element) (rowset : Element)
    (rowset_name name : string) (d d' : gmap string (gmap Z Medal)) :
  attrib rowset !! "name" = Some rowset_name → _map !! rowset_name = Some name →
  (∀ nm of_name k m, d !! nm = Some of_name → of_name !! k = Some m →
                     medal_from rowsets nm k m) →
  for_each (findall rowset "row")
    (λ row result,
       medal ← medal_of_row row;
       of_name ← getitem result name;
       Ok (<[name := <[medal_id medal := medal]> of_name]> result)) d = Ok d' →
  ∀ nm of_name k m, d' !! nm = Some of_name → of_name !! k = Some m →
                    medal_from (rowsets ++ [rowset]) nm k m.
Proof.
  intros Hname Hmap Hd Hrun.
  cut (∀ nm of_name k m, d' !! nm = Some of_name → of_name !! k = Some m →
         medal_from rowsets nm k m ∨
         (nm = name ∧ ∃ row, row ∈ findall rowset "row" ∧
                             medal_of_row row = Ok m ∧ medal_id m = k)).
  { intros Hcut nm of_name k m Hnm Hk.
    destruct (Hcut nm of_name k m Hnm Hk)
      as [(rs & rn & row & Hrs & Hrest) | (-> & row & Hrow & Hm & Hid)].
    - exists rs, rn, row. split; [|done]. apply elem_of_app. by left.
    - exists rowset, rowset_name, row. split_and!; try done.
      apply elem_of_app. right. by left. }
  revert Hrun.
  apply (for_each_invariant
    (λ (done : list Element) (t : gmap string (gmap Z Medal)),
       ∀ nm of_name k m, t !! nm = Some of_name → of_name !! k = Some m →
         medal_from rowsets nm k m ∨
         (nm = name ∧ ∃ row, row ∈ done ∧
                             medal_of_row row = Ok m ∧ medal_id m = k))).
  - intros nm of_name k m Hnm Hk. left. by eapply Hd.
  - intros done x t t' IH Hstep nm of_name k m Hnm Hk.
    bind_inv Hstep. simplify_eq. apply getitem_Ok in E0.
    rename a into medal, a0 into of_name0.
    assert (∀ k' m', of_name0 !! k' = Some m' →
              medal_from rowsets name k' m' ∨
              (∃ row, row ∈ done ++ [x] ∧
                      medal_of_row row = Ok m' ∧ medal_id m' = k')) as Hold.
    { intros k' m' Hk'.
      destruct (IH name of_name0 k' m' E0 Hk')
        as [Hfrom | (_ & row & Hrow & Hrest)]; [by left|].
      right. exists row. split; [|done]. apply elem_of_app. by left. }
    destruct (decide (nm = name)) as [->|Hne].
    + rewrite lookup_insert_eq in Hnm. simplify_eq.
      destruct (decide (k = medal_id medal)) as [->|Hk'].
      * rewrite lookup_insert_eq in Hk. simplify_eq. right. split; [done|].
        exists x. split_and!; [|done..]. apply elem_of_app. right. by left.
      * rewrite lookup_insert_ne in Hk by done.
        destruct (Hold k m Hk) as [Hfrom | Hrow]; [by left | by right].
    + rewrite lookup_insert_ne in Hnm by done.
      destruct (IH nm of_name k m Hnm Hk)
        as [Hfrom | (-> & _)]; [by left | done].
Qed.

Lemma medals_from_rowsets (api_result : APIResult Element)
    (e : APIResult (gmap string (gmap Z Medal))) :
  medals api_result = Ok e →
  ∀ name of_name k m, result e !! name = Some of_name → of_name !! k = Some m →
    medal_from (findall (result api_result) "rowset") name k m.
Proof.
  unfold medals. intros Hrun. bind_inv Hrun. simplify_eq. simpl.
  revert E.
  apply (for_each_invariant
    (λ (done : list Element) (t : gmap string (gmap Z Medal)),
       ∀ name of_name k m, t !! name = Some of_name → of_name !! k = Some m →
         medal_from done name k m)).
  - intros name of_name k m Hname Hk. exfalso. simpl in Hname.
    destruct (decide (name = "current")) as [->|Hc].
    { rewrite lookup_insert_eq in Hname.
      simplify_eq; by rewrite ?lookup_empty in Hk. }
    destruct (decide (name = "other")) as [->|Ho].
    { rewrite lookup_insert_ne, lookup_insert_eq in Hname by done.
      simplify_eq; by rewrite ?lookup_empty in Hk. }
    rewrite !lookup_insert_ne in Hname by done.
    by rewrite lookup_empty in Hname.
  - intros done x t t' IH Hstep. bind_inv Hstep.
    apply getitem_Ok in E, E0. by eapply medals_rows_from.
Qed.

Lemma medals_row_fails (api_result : APIResult Element) (rowset row : Element) :
  rowset ∈ findall (result api_result) "rowset" → row ∈ findall rowset "row" →
  fails (medal_of_row row) → fails (medals api_result).
Proof.
  intros Hrowset Hrow Hfails. unfold medals. apply bind_fails_l.
  eapply for_each_fails_at; [exact Hrowset|]. intros t.
  do 2 (apply bind_fails_r; intros ?).
  eapply for_each_fails_at; [exact Hrow|]. intros t'. by apply bind_fails_l.
Qed.

(** C3, as the code has it.  The fields ['read'] of [notifications],
    ['important'] of [calendar_events] and ['published'] of the skills of
    [character_sheet] are true exactly when the attribute [read],
    [importance], [published] of the row they are read from is "1", and false
    for every other value the attribute holds.  The row of an entry of
    [notifications] or [calendar_events] is the last row of the response with
    the entry's key as its [notificationID] or [eventID]; the row of a skill
    is the row at its position.  ['public'] of [medals] follows another rule:
    it is true exactly when the [status] of the row is "public", so for "1"
    it is false.  A row without the attribute makes the operation raise.
    ['active'] of [current_training] is not computed here: it is what the
    getter [_bool] of [evelink.api] yields for [skillInTraining]. *)
Theorem boolean_fields_of_present_attributes (order : DictOrder)
    (api_result : APIResult Element) :
  (∀ e, notifications api_result = Ok e →
     ∃ rows, rowset_rows (result api_result) = Ok rows ∧
       ∀ k n, result e !! k = Some n →
         ∃ before row after v, rows = before ++ row :: after ∧
           attr_int (attrib row) "notificationID" = Ok k ∧
           (∀ later, later ∈ after →
              attr_int (attrib later) "notificationID" ≠ Ok k) ∧
           attrib row !! "read" = Some v ∧
           notification_read n = bool_decide (v = "1")) ∧
  (∀ rows row, rowset_rows (result api_result) = Ok rows → row ∈ rows →
     attrib row !! "read" = None → fails (notifications api_result)) ∧
  (∀ e, calendar_events api_result = Ok e →
     ∃ rows, rowset_rows (result api_result) = Ok rows ∧
       ∀ k ev, result e !! k = Some ev →
         ∃ before row after v, rows = before ++ row :: after ∧
           attr_int (attrib row) "eventID" = Ok k ∧
           (∀ later, later ∈ after →
              attr_int (attrib later) "eventID" ≠ Ok k) ∧
           attrib row !! "importance" = Some v ∧
           event_important ev = bool_decide (v = "1")) ∧
  (∀ rows row, rowset_rows (result api_result) = Ok rows → row ∈ rows →
     attrib row !! "importance" = None → fails (calendar_events api_result)) ∧
  (∀ e, character_sheet order api_result = Ok e →
     ∃ rowsets skills,
       rowsets_by_name (findall (result api_result) "rowset") = Ok rowsets ∧
       rowsets !! "skills" = Some skills ∧
       Forall2 (λ row sk, ∃ v, attrib row !! "published" = Some v ∧
                               skill_published sk = bool_decide (v = "1"))
               (children skills) (sheet_skills (result e))) ∧
  (∀ rowsets skills row,
     rowsets_by_name (findall (result api_result) "rowset") = Ok rowsets →
     rowsets !! "skills" = Some skills → row ∈ children skills →
     attrib row !! "published" = None →
     fails (character_sheet order api_result)) ∧
  (∀ e, medals api_result = Ok e →
     ∀ name of_name k m,
       result e !! name = Some of_name → of_name !! k = Some m →
       ∃ rowset rowset_name row v,
         rowset ∈ findall (result api_result) "rowset" ∧
         attrib rowset !! "name" = Some rowset_name ∧
         _map !! rowset_name = Some name ∧
         row ∈ findall rowset "row" ∧ medal_of_row row = Ok m ∧
         attr_int (attrib row) "medalID" = Ok k ∧
         attrib row !! "status" = Some v ∧
         medal_public m = bool_decide (v = "public") ∧
         (v = "1" → medal_public m = false)) ∧
  (∀ rowset row, rowset ∈ findall (result api_result) "rowset" →
     row ∈ findall rowset "row" → attrib row !! "status" = None →
     fails (medals api_result)) ∧
  (∀ e, current_training api_result = Ok e →
     _bool (elem_getters (result api_result)) "skillInTraining"
       = Ok (training_active (result e))).
Proof.
  split_and!.
  - intros e Hrun. apply notifications_keyed in Hrun as (rows & Hrows & Hloop).
    exists rows. split; [done|]. intros k n Hk.
    destruct (keyed_rows_last notification_of_row notification_id
                "notificationID" rows _ k n notification_of_row_id Hloop Hk)
      as (before & row & after & Hsplit & Hn & Hid & Hlater).
    apply notification_of_row_read in Hn as (v & Hv & Hread).
    by exists before, row, after, v.
  - intros rows row Hrows Hrow Hread. unfold notifications. rewrite Hrows. simpl.
    apply bind_fails_l. eapply for_each_fails_at; [done|]. intros t.
    by apply bind_fails_l, notification_of_row_no_read.
  - intros e Hrun. apply calendar_events_keyed in Hrun as (rows & Hrows & Hloop).
    exists rows. split; [done|]. intros k ev Hk.
    destruct (keyed_rows_last event_of_row event_id
                "eventID" rows _ k ev event_of_row_id Hloop Hk)
      as (before & row & after & Hsplit & Hev & Hid & Hlater).
    apply event_of_row_important in Hev as (v & Hv & Himp).
    by exists before, row, after, v.
  - intros rows row Hrows Hrow Himp. unfold calendar_events. rewrite Hrows. simpl.
    apply bind_fails_l. eapply for_each_fails_at; [done|]. intros t.
    by apply bind_fails_l, event_of_row_no_importance.
  - intros e Hrun.
    apply character_sheet_skills in Hrun as (rowsets & skills & Hby & Hsk & Hcol).
    exists rowsets, skills. split_and!; [done | done |].
    apply collect_Ok_Forall2 in Hcol.
    eapply Forall2_impl; [exact Hcol|]. intros row sk. apply skill_of_row_published.
  - intros rowsets skills row Hby Hsk Hrow Hpub. unfold character_sheet.
    do 15 (apply bind_fails_r; intros ?).
    rewrite Hby. simpl.
    apply getitem_Ok in Hsk. rewrite Hsk. simpl.
    apply bind_fails_l. eapply collect_fails_at; [done|].
    by apply skill_of_row_no_published.
  - intros e Hrun name of_name k m Hname Hk.
    destruct (medals_from_rowsets _ _ Hrun name of_name k m Hname Hk)
      as (rowset & rowset_name & row & Hrowset & Hrn & Hmap & Hrow & Hm & Hid).
    destruct (medal_of_row_fields _ _ Hm)
      as (Hmid & _ & (v & Hv & Hpublic) & _).
    exists rowset, rowset_name, row, v. split_and!; try done.
    + by rewrite <- Hid.
    + intros ->. by rewrite Hpublic.
  - intros rowset row Hrowset Hrow Hstatus.
    eapply medals_row_fails; [done | done |]. unfold medal_of_row. cbn zeta.
    do 2 (apply bind_fails_r; intros ?). by apply attr_absent_fails.
  - intros e Hrun. unfold current_training in Hrun. cbn zeta in Hrun.
    bind_inv Hrun. by simplify_eq.
Qed.

(** ** Zero and empty values *)

Lemma location_of_row_fields (row : Element) (l : Location) :
  location_of_row row = Ok l →
  ∃ name id x y z,
    attrib row !! "itemName" = Some name ∧
    attr_int (attrib row) "itemID" = Ok id ∧
    attr_float (attrib row) "x" = Ok x ∧
    attr_float (attrib row) "y" = Ok y ∧
    attr_float (attrib row) "z" = Ok z ∧
    l = mkLocation (str_or_none name) (int_or_none id)
                   (float_or_none x) (float_or_none y) (float_or_none z).
Proof.
  unfold location_of_row. intros Hrow. bind_inv Hrow. simplify_eq.
  apply getitem_Ok in E. by eexists _, _, _, _, _.
Qed.

Lemma locations_keyed (api_result : APIResult Element)
    (e : APIResult (gmap (option Z) Location)) :
  locations api_result = Ok e →
  ∃ rows, rowset_rows (result api_result) = Ok rows ∧
    keyed_loop (λ row, l ← location_of_row row; Ok (location_item_id l, l))
               rows ∅ = Ok (result e).
Proof.
  unfold locations. intros Hrun. bind_inv Hrun. simplify_eq. simpl.
  eexists. split; [done|]. unfold keyed_loop. rewrite <- E0.
  apply for_each_ext. intros x t. by destruct (location_of_row x).
Qed.

Lemma int_or_none_spec (z : Z) :
  int_or_none z = if decide (z = 0) then None else Some z.
Proof.
  unfold int_or_none. destruct (Z.eqb_spec z 0); by case_decide.
Qed.

(** ** Optional recipients of a mail *)

Lemma int_list_or_none_empty : int_list_or_none "" = Ok None.
Proof. reflexivity. Qed.

Lemma message_of_row_recipients (row : Element) (m : Message) :
  message_of_row row = Ok m →
  (attrib row !! "toCorpOrAllianceID" = Some "" → to_org_id (message_to m) = None) ∧
  (attrib row !! "toCharacterIDs" = Some "" → to_char_ids (message_to m) = None) ∧
  (attrib row !! "toListID" = Some "" → to_list_ids (message_to m) = None).
Proof.
  unfold message_of_row. intros Hrow. bind_inv Hrow. simplify_eq. simpl.
  apply getitem_Ok in E3, E5, E7.
  split_and!; intros Hempty.
  - rewrite Hempty in E3. injection E3 as <-. simpl in E4. by simplify_eq.
  - rewrite Hempty in E5. injection E5 as <-.
    rewrite int_list_or_none_empty in E6. by simplify_eq.
  - rewrite Hempty in E7. injection E7 as <-.
    rewrite int_list_or_none_empty in E8. by simplify_eq.
Qed.

Lemma int_list_or_none_succeeds (s : string) :
  s = "" ∨ succeeds (collect py_int (split "," s)) →
  succeeds (int_list_or_none s).
Proof.
  intros [-> | [ids Hids]]; [by eexists|].
  unfold int_list_or_none. destruct (str_truth s); [|by eexists].
  rewrite Hids. by eexists.
Qed.

Lemma message_of_row_succeeds (row : Element) :
  header_well_formed row → recipients_well_formed row →
  succeeds (message_of_row row).
Proof.
  intros ([id Hid] & [sender Hsender] & [sent Hsent] & [title Htitle])
         ((org & Horg & Horg') & (chars & Hchars & Hchars')
          & (lists & Hlists & Hlists')).
  apply int_list_or_none_succeeds in Hchars' as [cs Hcs].
  apply int_list_or_none_succeeds in Hlists' as [ls Hls].
  unfold message_of_row. rewrite Hid, Hsender, Hsent. simpl.
  apply getitem_Ok in Htitle, Horg, Hchars, Hlists.
  rewrite Htitle, Horg. simpl.
  assert (succeeds (if str_truth org then Some <$> py_int org
                    else Ok (None : option Z))) as [o Ho].
  { destruct Horg' as [-> | [z Hz]]; [by eexists|].
    destruct (str_truth org); [|by eexists]. rewrite Hz. by eexists. }
  rewrite Ho. simpl. rewrite Hchars. simpl. rewrite Hcs. simpl.
  rewrite Hlists. simpl. rewrite Hls. simpl. by eexists.
Qed.

(** C4. In [messages], a recipient attribute ([toCorpOrAllianceID],
    [toCharacterIDs], [toListID]) that is present and empty gives [None] in
    the matching field of the header, and raises nothing: the operation
    returns whenever every row has a well-formed header and recipient
    attributes that are each empty or lists of integers. *)
Theorem empty_recipients_are_null (api_result : APIResult Element)
    (rows : list Element) :
  rowset_rows (result api_result) = Ok rows →
  (∀ e, messages api_result = Ok e →
     Forall2 (λ row m,
        (attrib row !! "toCorpOrAllianceID" = Some "" →
           to_org_id (message_to m) = None) ∧
        (attrib row !! "toCharacterIDs" = Some "" →
           to_char_ids (message_to m) = None) ∧
        (attrib row !! "toListID" = Some "" →
           to_list_ids (message_to m) = None))
       rows (result e)) ∧
  (Forall (λ row, header_well_formed row ∧ recipients_well_formed row) rows →
   succeeds (messages api_result)).
Proof.
  intros Hrows. unfold messages. rewrite Hrows. simpl. split.
  - intros e Hrun. bind_inv Hrun. simplify_eq. simpl.
    apply collect_Ok_Forall2 in E.
    eapply Forall2_impl; [exact E|]. apply message_of_row_recipients.
  - intros Hall.
    assert (succeeds (collect message_of_row rows)) as [ms Hms].
    { apply collect_succeeds. eapply Forall_impl; [exact Hall|].
      intros row [Hh Hr]. by apply message_of_row_succeeds. }
    rewrite Hms. by eexists.
Qed.

(** ** Attendees by event *)

Lemma empty_events_lookup (event_ids : list PyKey) (k : PyKey) :
  empty_events event_ids !! k = if decide (k ∈ event_ids) then Some ∅ else None.
Proof.
  unfold empty_events.
  rewrite (foldl_insert_const_lookup (λ id_, id_)), list_fmap_id.
  by rewrite lookup_empty.
Qed.

Lemma attendees_inv_init (event_ids : list PyKey) :
  attendees_inv event_ids [] (empty_events event_ids).
Proof.
  split_and!.
  - intros id_ Hid. rewrite empty_events_lookup, decide_True by done. by eexists.
  - intros k of_event c a Hk Hc. rewrite empty_events_lookup in Hk.
    case_decide; simplify_eq; try by rewrite lookup_empty in Hc.
  - intros row Hrow. by apply elem_of_nil in Hrow.
Qed.

Lemma attendees_inv_step (event_ids : list PyKey) (done : list Element)
    (row : Element) (results results' : gmap PyKey (gmap Z Attendee)) :
  attendees_inv event_ids done results →
  add_attendee row results = Ok results' →
  attendees_inv event_ids (done ++ [row]) results'.
Proof.
  intros (Hreq & Hfrom & Hstored) Hadd. unfold add_attendee in Hadd.
  bind_inv Hadd. simplify_eq. rename a into att, a0 into ev.
  split_and!.
  - intros id_ Hid. destruct (decide (KInt ev = id_)) as [<-|Hne].
    + rewrite lookup_insert_eq. by eexists.
    + rewrite lookup_insert_ne by done. by apply Hreq.
  - intros k of_event c a Hk Hc.
    destruct (decide (KInt ev = k)) as [<-|Hne].
    + rewrite lookup_insert_eq in Hk. simplify_eq.
      destruct (decide (attendee_id att = c)) as [<-|Hc'].
      * rewrite lookup_insert_eq in Hc. simplify_eq.
        exists row, ev. split_and!; try done. apply elem_of_app. right. by left.
      * rewrite lookup_insert_ne in Hc by done.
        destruct (results !! KInt ev) as [of_event|] eqn:Hev; simpl in Hc.
        -- destruct (Hfrom _ _ _ _ Hev Hc) as (r & ev' & Hr & Hrest).
           exists r, ev'. split; [|done]. apply elem_of_app. by left.
        -- by rewrite lookup_empty in Hc.
    + rewrite lookup_insert_ne in Hk by done.
      destruct (Hfrom _ _ _ _ Hk Hc) as (r & ev' & Hr & Hrest).
      exists r, ev'. split; [|done]. apply elem_of_app. by left.
  - intros r Hr. apply elem_of_app in Hr as [Hr | Hr].
    + destruct (Hstored r Hr) as (a & ev' & of_event & Ha & Hev & Hlook & Hsome).
      destruct (decide (ev = ev')) as [<-|Hne].
      * exists a, ev. eexists. split_and!; [done | done | apply lookup_insert_eq |].
        rewrite Hlook. simpl.
        destruct (decide (attendee_id att = attendee_id a)) as [->|Hid].
        -- rewrite lookup_insert_eq. by eexists.
        -- by rewrite lookup_insert_ne.
      * exists a, ev', of_event. split_and!; try done.
        rewrite lookup_insert_ne; [done | congruence].
    + apply list_elem_of_singleton in Hr as ->.
      exists att, ev. eexists.
      split_and!; [done | done | apply lookup_insert_eq |].
      rewrite lookup_insert_eq. by eexists.
Qed.

Lemma attendee_of_row_fields (row : Element) (a : Attendee) :
  attendee_of_row row = Ok a →
  attr_int (attrib row) "characterID" = Ok (attendee_id a) ∧
  attrib row !! "characterName" = Some (attendee_name a) ∧
  attrib row !! "response" = Some (attendee_response a).
Proof.
  unfold attendee_of_row. cbn zeta. intros Hrow. bind_inv Hrow.
  simplify_eq. simpl. by rewrite <- !getitem_Ok.
Qed.

(** C9. [calendar_attendees] returns an entry for every requested event id,
    an empty mapping for one that no row of the response names.  Every
    attendee it returns comes from a row of the response: the key of the
    outer mapping is the integer of that row's [eventID], the key of the
    inner mapping and the attendee's ['id'] are the integer of its
    [characterID], and ['name'] and ['response'] are its [characterName] and
    [response] attributes.  Every row is stored: its event id is a key of the
    result, and its character id a key of the mapping found there. *)
Theorem calendar_attendees_entries (event_ids : list PyKey)
    (api_result : APIResult Element) (e : APIResult (gmap PyKey (gmap Z Attendee))) :
  calendar_attendees event_ids api_result = Ok e →
  ∃ rows, rowset_rows (result api_result) = Ok rows ∧
    (∀ id_, id_ ∈ event_ids → is_Some (result e !! id_)) ∧
    (∀ id_, id_ ∈ event_ids →
       (∀ row ev, row ∈ rows → attr_int (attrib row) "eventID" = Ok ev →
                  id_ ≠ KInt ev) →
       result e !! id_ = Some ∅) ∧
    (∀ k of_event c a, result e !! k = Some of_event → of_event !! c = Some a →
       ∃ row ev, row ∈ rows ∧
         attr_int (attrib row) "eventID" = Ok ev ∧ k = KInt ev ∧
         attr_int (attrib row) "characterID" = Ok c ∧
         attendee_id a = c ∧
         attrib row !! "characterName" = Some (attendee_name a) ∧
         attrib row !! "response" = Some (attendee_response a) ∧
         attendee_of_row row = Ok a) ∧
    (∀ row, row ∈ rows →
       ∃ ev c of_event a,
         attr_int (attrib row) "eventID" = Ok ev ∧
         attr_int (attrib row) "characterID" = Ok c ∧
         result e !! KInt ev = Some of_event ∧
         of_event !! c = Some a ∧ attendee_id a = c).
Proof.
  unfold calendar_attendees. intros Hrun. bind_inv Hrun. simplify_eq. simpl.
  rename a into rows, a0 into results.
  assert (attendees_inv event_ids rows results) as (Hreq & Hfrom & Hstored).
  { eapply (for_each_invariant (attendees_inv event_ids)); [| |exact E0].
    - apply attendees_inv_init.
    - intros done x t t'. apply attendees_inv_step. }
  exists rows. split_and!; try done.
  - intros id_ Hid Hnone. destruct (Hreq id_ Hid) as [of_event Hof].
    rewrite Hof. f_equal. apply map_empty. intros c.
    destruct (of_event !! c) as [a|] eqn:Hc; [|done].
    destruct (Hfrom _ _ _ _ Hof Hc) as (row & ev & Hrow & _ & _ & Hev & ->).
    by destruct (Hnone row ev).
  - intros k of_event c a Hk Hc.
    destruct (Hfrom _ _ _ _ Hk Hc) as (row & ev & Hrow & Ha & <- & Hev & ->).
    destruct (attendee_of_row_fields _ _ Ha) as (Hid & Hname & Hresp).
    by exists row, ev.
  - intros row Hrow.
    destruct (Hstored row Hrow) as (a & ev & of_event & Ha & Hev & Hof & [b Hb]).
    destruct (attendee_of_row_fields _ _ Ha) as (Hid & _ & _).
    destruct (Hfrom _ _ _ _ Hof Hb) as (_ & _ & _ & _ & Hbid & _).
    by exists ev, (attendee_id a), of_event, b.
Qed.

(** ** Absent rowsets and attributes *)

Lemma rowsets_by_name_lookup (rowsets : list Element) (by_name : gmap string Element)
    (name : string) (rowset : Element) :
  rowsets_by_name rowsets = Ok by_name → by_name !! name = Some rowset →
  rowset ∈ rowsets ∧ attrib rowset !! "name" = Some name.
Proof.
  intros Hby Hname.
  assert (keyed_loop (λ r, n ← getitem (attrib r) "name"; Ok (n, r)) rowsets ∅
          = Ok by_name) as Hloop.
  { unfold keyed_loop. rewrite <- Hby. apply for_each_ext.
    intros x t. by destruct (getitem (attrib x) "name"). }
  destruct (keyed_loop_lookup _ _ _ _ _ _ Hloop Hname) as [Hempty | (r & Hr & Hf)].
  { by rewrite lookup_empty in Hempty. }
  apply bind_Ok in Hf as (n & Hn & [= -> ->]). by apply getitem_Ok in Hn.
Qed.

Lemma rowsets_by_name_unnamed (rowsets : list Element) (rowset : Element) :
  rowset ∈ rowsets → attrib rowset !! "name" = None →
  fails (rowsets_by_name rowsets).
Proof.
  intros Hin Hname. eapply for_each_fails_at; [done|].
  intros t. by apply attr_absent_fails.
Qed.

Lemma standing_of_row_absent (row : Element) (k : string) :
  k ∈ ["fromID"; "fromName"; "standing"] → attrib row !! k = None →
  fails (standing_of_row row).
Proof.
  intros Hk Habsent. unfold standing_of_row, attr_int, attr_float.
  repeat (apply elem_of_cons in Hk as [-> | Hk]).
  - by apply bind_fails_l, attr_absent_fails.
  - apply bind_fails_r. intros ?. by apply attr_absent_fails.
  - do 2 (apply bind_fails_r; intros ?). by apply bind_fails_l, attr_absent_fails.
  - by apply elem_of_nil in Hk.
Qed.

Lemma standing_of_row_fields (row : Element) (s : Standing) :
  standing_of_row row = Ok s →
  attr_int (attrib row) "fromID" = Ok (standing_id s) ∧
  attrib row !! "fromName" = Some (standing_name s) ∧
  attr_float (attrib row) "standing" = Ok (standing_value s).
Proof.
  unfold standing_of_row. cbn zeta. intros Hrow. bind_inv Hrow.
  simplify_eq. simpl. by rewrite <- !getitem_Ok.
Qed.

Lemma wallet_row_absent (row : Element) (k : string) (ts exp : Z) :
  k ∈ ["balance"; "accountID"; "accountKey"] → attrib row !! k = None →
  fails (balance ← attr_float (attrib row) "balance";
         id ← attr_int (attrib row) "accountID";
         key ← attr_int (attrib row) "accountKey";
         Ok (mkAPIResult (mkWallet balance id key) ts exp)).
Proof.
  intros Hk Habsent. unfold attr_int, attr_float.
  repeat (apply elem_of_cons in Hk as [-> | Hk]).
  - by apply bind_fails_l, attr_absent_fails.
  - apply bind_fails_r. intros ?. by apply bind_fails_l, attr_absent_fails.
  - do 2 (apply bind_fails_r; intros ?). by apply bind_fails_l, attr_absent_fails.
  - by apply elem_of_nil in Hk.
Qed.

Lemma name_map_items_complete (order : DictOrder) (name : string) :
  valid_order order → name ∈ ["agents"; "NPCCorporations"; "factions"] →
  ∃ key, (key, name) ∈ name_map_items order.
Proof.
  intros [Hperm _] Hname.
  assert (∃ key, _name_map !! key = Some name) as [key Hkey].
  { repeat (apply elem_of_cons in Hname as [-> | Hname]).
    - by exists "agents".
    - by exists "corps".
    - by exists "factions".
    - by apply elem_of_nil in Hname. }
  exists key. rewrite Hperm. by apply elem_of_map_to_list.
Qed.


(** ** Independence of the iteration order *)

Lemma valid_orders_agree (order1 order2 : DictOrder) :
  valid_order order1 → valid_order order2 →
  name_map_items order1 ≡ₚ name_map_items order2 ∧
  NoDup ((name_map_items order1).*1) ∧
  corp_roles_items order1 ≡ₚ corp_roles_items order2 ∧
  NoDup ((corp_roles_items order1).*1).
Proof.
  intros [Hn1 Hc1] [Hn2 Hc2]. split_and!.
  - by rewrite Hn1, Hn2.
  - rewrite Hn1. apply NoDup_fst_map_to_list.
  - by rewrite Hc1, Hc2.
  - rewrite Hc1. apply NoDup_fst_map_to_list.
Qed.

(** Replays in the goal the steps whose results are known. *)
Ltac replay :=
  repeat first
    [ progress cbn [mbind pyresult_bind]
    | match goal with E : ?m = Ok _ |- context [?m] => rewrite E end ].

Lemma standings_of_key (rowsets : gmap string Element) (item : string * string)
    (k : string) (v : gmap Z Standing) :
  standings_of rowsets item = Ok (k, v) → k = item.1.
Proof. unfold standings_of. intros Hf. bind_inv Hf. by simplify_eq. Qed.

Lemma roles_of_key (rowsets : gmap string Element) (item : string * string)
    (k : string) (v : gmap Z (Named Z string)) :
  roles_of rowsets item = Ok (k, v) → k = item.1.
Proof. unfold roles_of. intros Hf. bind_inv Hf. by simplify_eq. Qed.

Lemma standings_loop_keyed (rowsets : gmap string Element)
    (items : list (string * string)) :
  for_each items
    (λ '(key, rowset_name) result,
       rowset ← getitem rowsets rowset_name;
       entries ← for_each (findall rowset "row")
         (λ row entries,
            s ← standing_of_row row;
            Ok (<[standing_id s := s]> entries)) ∅;
       Ok (<[key := entries]> result)) ∅
  = keyed_loop (standings_of rowsets) items ∅.
Proof.
  unfold keyed_loop. apply for_each_ext. intros [key name] t.
  unfold standings_of. cbn [fst snd].
  destruct (getitem rowsets name) as [rowset|err];
    cbn [mbind pyresult_bind]; [|done].
  by destruct (for_each (findall rowset "row") _ ∅).
Qed.

Lemma roles_loop_keyed (rowsets : gmap string Element)
    (items : list (string * string)) :
  for_each items
    (λ '(our_role, ccp_role) roles,
       rowset ← getitem rowsets ccp_role;
       entries ← named_rows "roleID" "roleName" (children rowset);
       Ok (<[our_role := entries]> roles)) ∅
  = keyed_loop (roles_of rowsets) items ∅.
Proof.
  unfold keyed_loop. apply for_each_ext. intros [key name] t.
  unfold roles_of. cbn [fst snd].
  destruct (getitem rowsets name) as [rowset|err];
    cbn [mbind pyresult_bind]; [|done].
  by destruct (named_rows "roleID" "roleName" (children rowset)).
Qed.

Lemma standings_order (order1 order2 : DictOrder) (api_result : APIResult Element)
    (e : APIResult (gmap string (gmap Z Standing))) :
  valid_order order1 → valid_order order2 →
  standings order1 api_result = Ok e → standings order2 api_result = Ok e.
Proof.
  intros H1 H2 Hrun.
  destruct (valid_orders_agree _ _ H1 H2) as (Hperm & Hnodup & _ & _).
  unfold standings in *. bind_inv Hrun. simplify_eq. replay.
  rewrite standings_loop_keyed in *.
  match goal with
  | E : keyed_loop (standings_of _) _ _ = Ok _ |- _ =>
      by rewrite (keyed_loop_perm _ _ _ (standings_of_key _) Hperm Hnodup _ _ E)
  end.
Qed.

Lemma character_sheet_order (order1 order2 : DictOrder)
    (api_result : APIResult Element) (e : APIResult CharacterSheet) :
  valid_order order1 → valid_order order2 →
  character_sheet order1 api_result = Ok e →
  character_sheet order2 api_result = Ok e.
Proof.
  intros H1 H2 Hrun.
  destruct (valid_orders_agree _ _ H1 H2) as (_ & _ & Hperm & Hnodup).
  unfold character_sheet in *. bind_inv Hrun. simplify_eq. replay.
  rewrite roles_loop_keyed in *.
  match goal with
  | E : keyed_loop (roles_of _) _ _ = Ok _ |- _ =>
      rewrite (keyed_loop_perm _ _ _ (roles_of_key _) Hperm Hnodup _ _ E)
  end.
  by replay.
Qed.

(** C8. What an operation returns is a function of the document alone: the
    only freedom a run has, the order in which [iteritems()] yields the items
    of [_name_map] and of the role table, does not show in the result.  Two
    runs on one document return equal envelopes, and one raises exactly when
    the other does. *)
Theorem results_depend_on_the_document_only (order1 order2 : DictOrder)
    (op : Operation) (api_result : APIResult Element) :
  valid_order order1 → valid_order order2 →
  (∀ e, call order1 op api_result = Ok e → call order2 op api_result = Ok e) ∧
  (fails (call order1 op api_result) → fails (call order2 op api_result)).
Proof.
  intros H1 H2.
  assert (∀ o1 o2, valid_order o1 → valid_order o2 →
            ∀ e, call o1 op api_result = Ok e → call o2 op api_result = Ok e)
    as Hsame.
  { intros o1 o2 Ho1 Ho2 e. destruct op; cbn [call shape];
      lazymatch goal with
      | |- standings _ _ = _ → _ => by apply standings_order
      | |- character_sheet _ _ = _ → _ => by apply character_sheet_order
      | |- _ => exact (λ Hrun, Hrun)
      end. }
  split; [by apply Hsame|].
  intros [err Herr].
  destruct (call order2 op api_result) as [e|err'] eqn:Hrun2; [|by eexists].
  apply (Hsame order2 order1) in Hrun2; [|done..]. congruence.
Qed.

(** ** Location inheritance in the asset tree *)

Lemma normalize_items_lookup (parent : Z) (items : list ItemElem) (i : nat) :
  normalize_items parent items !! i = normalize_item parent <$> items !! i.
Proof.
  unfold normalize_items. revert i.
  induction items as [|e items IH]; intros [|i]; simpl; auto.
Qed.

Lemma location_id_normalize (parent : Z) (el : ItemElem) :
  location_id (normalize_item parent el) = default parent (own_location el).
Proof. by destruct el. Qed.

Lemma contents_normalize (parent : Z) (el : ItemElem) :
  contents (normalize_item parent el) =
    normalize_items (default parent (own_location el)) <$> nested_rowset el.
Proof. destruct el as [? ? ? ? ? ? [sub|]]; done. Qed.

Lemma last_explicit (parent : Z) (own : option Z) (below : list Z) :
  default parent (last (option_list own ++ below)) =
    default (default parent own) (last below).
Proof.
  rewrite last_app. destruct (last below); [done|]. by destruct own.
Qed.

(** The explicit ids on the way to an item: those on the way to its parent,
    then its own. *)
Lemma explicit_on_path_own (path : list nat) (items : list ItemElem)
    (el : ItemElem) :
  elem_at path items = Some el →
  explicit_on_path path items =
    explicit_on_path (removelast path) items ++ option_list (own_location el).
Proof.
  revert items. induction path as [|i rest IH]; intros items Hel; [done|].
  simpl in Hel. destruct (items !! i) as [e0|] eqn:Hi; [|done].
  destruct rest as [|j rest'].
  - simplify_eq. simpl. rewrite Hi.
    destruct (nested_rowset el); simpl; by rewrite app_nil_r.
  - destruct (nested_rowset e0) as [sub|] eqn:Hsub; [|done].
    specialize (IH sub Hel).
    change (removelast (i :: j :: rest')) with (i :: removelast (j :: rest')).
    cbn [explicit_on_path]. rewrite Hi, Hsub, <- app_assoc. f_equal.
    by rewrite <- IH.
Qed.

(** The item found at a path of the normalized tree is the image of the item
    element at that path, and its location id is the last explicit id on the
    way down, the inherited one when there is none. *)
Lemma item_at_normalize (path : list nat) (parent : Z) (items : list ItemElem)
    (a : AssetItem) :
  item_at path (normalize_items parent items) = Some a →
  ∃ el, elem_at path items = Some el ∧
        location_id a = default parent (last (explicit_on_path path items)).
Proof.
  revert parent items. induction path as [|i rest IH]; intros parent items Ha;
    [done|].
  simpl in Ha. rewrite normalize_items_lookup in Ha.
  destruct (items !! i) as [e0|] eqn:Hi; [|done]. simpl in Ha.
  destruct rest as [|j rest'].
  - simplify_eq. exists e0. simpl. rewrite Hi. split; [done|].
    rewrite location_id_normalize.
    destruct (nested_rowset e0); simpl; rewrite last_explicit; by simpl.
  - rewrite contents_normalize in Ha.
    destruct (nested_rowset e0) as [sub|] eqn:Hsub; [|done]. simpl in Ha.
    destruct (IH _ _ Ha) as (el & Hel & Hloc).
    exists el. cbn [elem_at explicit_on_path]. rewrite Hi, Hsub.
    split; [done|]. by rewrite last_explicit.
Qed.

(** The parent of an item that is in the tree is in the tree. *)
Lemma item_at_parent (path : list nat) (items : list AssetItem) (a : AssetItem) :
  item_at path items = Some a → removelast path ≠ [] →
  is_Some (item_at (removelast path) items).
Proof.
  revert items. induction path as [|i rest IH]; intros items Ha Hup; [done|].
  destruct rest as [|j rest']; [done|].
  simpl in Ha. destruct (items !! i) as [a0|] eqn:Hi; [|done].
  destruct (contents a0) as [sub|] eqn:Hsub; [|done].
  change (removelast (i :: j :: rest')) with (i :: removelast (j :: rest')).
  cbn [item_at]. rewrite Hi.
  destruct (removelast (j :: rest')) as [|j' up] eqn:Hrem; [by eexists|].
  rewrite Hsub. by apply (IH sub Ha).
Qed.

Lemma normalize_groups_lookup (groups : list LocationGroup) (k : Z) (c : Container) :
  normalize_groups groups !! k = Some c →
  ∃ g, g ∈ groups ∧ group_id g = k ∧
       c = mkContainer k (normalize_items k (group_items g)).
Proof.
  unfold normalize_groups.
  cut (∀ acc : gmap Z Container,
         foldl (λ result g,
                  <[group_id g :=
                      mkContainer (group_id g)
                        (normalize_items (group_id g) (group_items g))]> result)
               acc groups !! k = Some c →
         acc !! k = Some c ∨
         ∃ g, g ∈ groups ∧ group_id g = k ∧
              c = mkContainer k (normalize_items k (group_items g))).
  { intros Hgen Hk. destruct (Hgen ∅ Hk) as [Hempty|]; [|done].
    by rewrite lookup_empty in Hempty. }
  induction groups as [|g groups IH]; intros acc Hk; simpl in Hk; [by left|].
  destruct (IH _ Hk) as [Hacc | (g' & Hin & Hrest)].
  - destruct (decide (group_id g = k)) as [<-|Hne].
    + rewrite lookup_insert_eq in Hacc. simplify_eq.
      right. exists g. split; [left | done].
    + rewrite lookup_insert_ne in Hacc by done. by left.
  - right. exists g'. split; [by right | done].
Qed.

(** C1. In the result of [assets], every container comes from a location
    group with its id, and for the item at any path below it: without an
    explicit location id of its own the item has the resolved location id of
    its parent (the container's for a top-level item); with one it has its
    own; in both cases the id is the last explicit one met on the way down
    from the group, or the group's id when there is none; and it stays the
    same whatever nested rowset the item element carries, so that no child
    has a part in it. *)
Theorem location_id_is_inherited_downward (api_result : APIResult Element)
    (e : APIResult (gmap Z Container)) :
  assets api_result = Ok e →
  ∃ groups, asset_groups (result api_result) = Ok groups ∧
    ∀ k c, result e !! k = Some c →
      ∃ g, g ∈ groups ∧ group_id g = k ∧ container_location_id c = k ∧
        ∀ path a, item_at path (container_contents c) = Some a →
          ∃ el, elem_at path (group_items g) = Some el ∧
            (own_location el = None →
               parent_location c path = Some (location_id a)) ∧
            (∀ l, own_location el = Some l → location_id a = l) ∧
            location_id a =
              default k (last (explicit_on_path path (group_items g))) ∧
            (∀ rs', location_id a =
                    location_id (normalize_item
                      (default k (last (explicit_on_path (removelast path)
                                                         (group_items g))))
                      (let 'item_elem i t q loc f u _ := el in
                       item_elem i t q loc f u rs'))).
Proof.
  unfold assets, parse_assets. intros Hrun. bind_inv Hrun. bind_inv E.
  simplify_eq. simpl. rename a0 into groups. exists groups. split; [done|]. intros k c Hk.
  apply normalize_groups_lookup in Hk as (g & Hg & Hid & ->).
  exists g. split_and!; try done. intros path a Ha. simpl in Ha.
  destruct (item_at_normalize _ _ _ _ Ha) as (el & Hel & Hloc).
  exists el. split; [done|].
  pose proof (explicit_on_path_own _ _ _ Hel) as Hown.
  rewrite Hown, last_app in Hloc.
  split_and!.
  - intros Hnone. rewrite Hnone in Hloc. simpl in Hloc.
    unfold parent_location. cbn [container_location_id container_contents].
    destruct (removelast path) as [|j up] eqn:Hup.
    + simpl in Hloc. by rewrite Hloc.
    + destruct (item_at_parent _ _ _ Ha) as [p Hp]; [by rewrite Hup|].
      rewrite Hup in Hp. rewrite Hp. simpl. f_equal.
      destruct (item_at_normalize _ _ _ _ Hp) as (_ & _ & ->). by rewrite Hloc.
  - intros l Hl. by rewrite Hl in Hloc.
  - by rewrite Hown, last_app.
  - intros rs'. rewrite Hloc. destruct el as [i t q [l|] f u rs]; simpl; [done|].
    by destruct (last _).
Qed.

End Properties.

(** * Sample runs *)

Lemma sample_orders_valid :
  valid_order (RT:=sample_runtime) sample_order ∧
  valid_order (RT:=sample_runtime) sample_order'.
Proof.
  unfold valid_order. repeat split; apply (bool_decide_unpack _); by vm_compute.
Qed.

Lemma location_id_is_inherited_downward_witness :
  ∃ e, assets (RT:=sample_runtime) assets_doc = Ok e ∧
    ∀ c a, result e !! 60003760 = Some c →
           item_at [0; 0]%nat (container_contents c) = Some a →
           parent_location c [0; 0]%nat = Some (location_id a) ∧
           location_id a = 60003760.
Proof.
  eexists. split; [reflexivity|]. intros c a Hc Ha.
  destruct (location_id_is_inherited_downward (RT:=sample_runtime)
              assets_doc _ eq_refl)
    as (groups & Hgroups & Hall).
  destruct (Hall _ _ Hc) as (g & Hg & Hid & _ & Hpath).
  destruct (Hpath _ _ Ha) as (el & Hel & Hinherit & _ & Hlast & _).
  vm_compute in Hgroups. injection Hgroups as <-.
  apply list_elem_of_singleton in Hg as ->.
  vm_compute in Hel. injection Hel as <-.
  split; [by apply Hinherit | exact Hlast].
Defined.

Lemma envelope_timestamps_pass_through_witness :
  ∃ e, call (RT:=sample_runtime) sample_order OpWalletBalance wallet_doc = Ok e ∧
       timestamp e = 1255885531 ∧ expires e = 1258571131.
Proof.
  eexists. split; [reflexivity|].
  apply (envelope_timestamps_pass_through (RT:=sample_runtime)
           sample_order OpWalletBalance wallet_doc).
  reflexivity.
Defined.

(** C2, at the failing input: the id listed as missing is stored under the
    string "2"; the integer 2 is not a key of the result. *)
Lemma notification_texts_missing_id_is_a_string_key :
  ∃ e, notification_texts (RT:=sample_runtime) notification_texts_doc = Ok e ∧
       dom (result e) = {[ KInt 1; KStr "2" ]} ∧
       result e !! KStr "2" = Some None ∧
       result e !! KInt 2 = None.
Proof. eexists. split_and!; reflexivity. Qed.

Lemma message_bodies_keys_witness :
  ∃ e, message_bodies message_bodies_doc = Ok e ∧
       1 ∈ dom (result e) ∧ 2 ∈ dom (result e) ∧ result e !! 2 = Some None.
Proof.
  eexists. split; [reflexivity|].
  destruct (message_bodies_keys message_bodies_doc _ eq_refl)
    as (rows & missing & Hrows & Hmissing & Hdom & Hnull).
  vm_compute in Hrows. injection Hrows as <-.
  vm_compute in Hmissing. injection Hmissing as <-.
  split_and!.
  - apply Hdom. left. eexists. split; [left | reflexivity].
  - apply Hdom. right. left.
  - apply Hnull. left.
Defined.

Lemma notification_texts_keys_witness :
  ∃ e, notification_texts (RT:=sample_runtime) notification_texts_doc = Ok e ∧
       KStr "2" ∈ dom (result e) ∧ KInt 2 ∉ dom (result e).
Proof.
  eexists. split; [reflexivity|].
  destruct (notification_texts_keys (RT:=sample_runtime)
              notification_texts_doc _ eq_refl)
    as (rows & missing & Hrows & Hmissing & Hdom).
  vm_compute in Hrows. injection Hrows as <-.
  vm_compute in Hmissing. injection Hmissing as <-.
  split.
  - apply Hdom. right. exists "2". split; [left | done].
  - intros Hin.
    apply Hdom in Hin as [(r & z & Hr & Hz & Hid) | (s & _ & Hs)];
      [|discriminate Hs].
    injection Hz as <-. apply list_elem_of_singleton in Hr as ->.
    vm_compute in Hid. discriminate Hid.
Defined.

Lemma boolean_absent_attribute_counterexample :
  notifications (RT:=sample_runtime) notifications_without_read = Raise KeyError.
Proof. reflexivity. Qed.

Lemma boolean_fields_of_present_attributes_witness :
  fails (notifications (RT:=sample_runtime) notifications_without_read) ∧
  ∃ e, notifications (RT:=sample_runtime) notifications_doc = Ok e ∧
       ∀ k n, result e !! k = Some n →
              ∃ v, notification_read n = bool_decide (v = "1").
Proof.
  pose proof (boolean_fields_of_present_attributes (RT:=sample_runtime)
                sample_order) as Hbool.
  split.
  - destruct (Hbool notifications_without_read) as (_ & Habsent & _).
    eapply Habsent; [reflexivity | left | reflexivity].
  - eexists. split; [reflexivity|]. intros k n Hk.
    destruct (Hbool notifications_doc) as (Hread & _).
    destruct (Hread _ eq_refl) as (rows & _ & Hall).
    destruct (Hall k n Hk) as (before & r & after & v & _ & _ & _ & _ & Hv).
    by exists v.
Defined.

Lemma empty_recipients_are_null_witness :
  ∃ rows e, rowset_rows (result messages_doc) = Ok rows ∧
    messages (RT:=sample_runtime) messages_doc = Ok e ∧
    Forall2 (λ row m,
        (attrib row !! "toCorpOrAllianceID" = Some "" →
           to_org_id (message_to m) = None) ∧
        (attrib row !! "toCharacterIDs" = Some "" →
           to_char_ids (message_to m) = None) ∧
        (attrib row !! "toListID" = Some "" →
           to_list_ids (message_to m) = None))
      rows (result e).
Proof.
  eexists _, _. split; [reflexivity|].
  split; [reflexivity|].
  apply (empty_recipients_are_null (RT:=sample_runtime) messages_doc);
    reflexivity.
Defined.


Lemma zero_item_id_counterexample :
  (e ← locations (RT:=sample_runtime) zero_location_doc;
   Ok (map_to_list (result e)))
  = Ok [(None, mkLocation (RT:=sample_runtime)
                 (Some "x") None (Some (15, 1%nat)) None (Some (-3, 0%nat)))].
Proof. reflexivity. Qed.


Lemma results_depend_on_the_document_only_witness :
  valid_order (RT:=sample_runtime) sample_order ∧
  valid_order (RT:=sample_runtime) sample_order' ∧
  ∃ e, call (RT:=sample_runtime) sample_order OpCharacterSheet sheet_doc = Ok e ∧
       call (RT:=sample_runtime) sample_order' OpCharacterSheet sheet_doc = Ok e.
Proof.
  destruct sample_orders_valid as [Hvalid Hvalid'].
  split; [exact Hvalid|]. split; [exact Hvalid'|].
  eexists. split; [reflexivity|].
  apply (results_depend_on_the_document_only (RT:=sample_runtime)
           sample_order sample_order' OpCharacterSheet sheet_doc Hvalid Hvalid').
  reflexivity.
Defined.

Lemma calendar_attendees_entries_witness :
  ∃ e, calendar_attendees [KInt 1; KInt 2] attendees_doc = Ok e ∧
       is_Some (result e !! KInt 1) ∧ result e !! KInt 2 = Some ∅.
Proof.
  eexists. split; [reflexivity|].
  destruct (calendar_attendees_entries [KInt 1; KInt 2] attendees_doc _ eq_refl)
    as (rows & Hrows & Hrequested & Hempty & _).
  split; [apply Hrequested; set_solver|].
  apply Hempty; [set_solver|]. intros r ev Hr Hev.
  vm_compute in Hrows. injection Hrows as <-.
  repeat (apply elem_of_cons in Hr as [-> | Hr]);
    [vm_compute in Hev; injection Hev as <-; discriminate..
    | by apply elem_of_nil in Hr].
Defined.

(** * Further properties of the methods *)

(** ** Loops that store under a key *)

Lemma for_each_app {A S} (xs ys : list A) (body : A → S → pyresult S) (s : S) :
  for_each (xs ++ ys) body s = s' ← for_each xs body s; for_each ys body s'.
Proof.
  revert s. induction xs as [|x xs IH]; intros s; simpl; [done|].
  destruct (body x s); simpl; [apply IH | done].
Qed.

(** A key that no pass stores keeps its value. *)
Lemma keyed_loop_untouched {A K V} `{Countable K} (f : A → pyresult (K * V))
    (xs : list A) (d d' : gmap K V) (k : K) :
  keyed_loop f xs d = Ok d' →
  (∀ x v, x ∈ xs → f x ≠ Ok (k, v)) → d' !! k = d !! k.
Proof.
  unfold keyed_loop. revert d.
  induction xs as [|x xs IH]; intros d Hrun Hother; simpl in Hrun.
  - by simplify_eq.
  - apply bind_Ok in Hrun as (d1 & Hx & Hrun).
    apply bind_Ok in Hx as ([k1 v1] & Hf & [= <-]).
    rewrite (IH _ Hrun); [|intros y v Hy; apply Hother; by right].
    simpl. apply lookup_insert_ne. intros ->.
    by apply (Hother x v1); [left|].
Qed.

(** The last pass that stores under a key decides its value. *)
Lemma keyed_loop_last {A K V} `{Countable K} (f : A → pyresult (K * V))
    (before after : list A) (x : A) (d d' : gmap K V) (k : K) (v : V) :
  keyed_loop f (before ++ x :: after) d = Ok d' → f x = Ok (k, v) →
  (∀ y v', y ∈ after → f y ≠ Ok (k, v')) → d' !! k = Some v.
Proof.
  unfold keyed_loop. rewrite for_each_app. intros Hrun Hf Hafter.
  apply bind_Ok in Hrun as (d1 & _ & Hrun). simpl in Hrun.
  rewrite Hf in Hrun. simpl in Hrun.
  rewrite (keyed_loop_untouched f after _ _ k Hrun); [apply lookup_insert_eq|].
  intros y v' Hy. by apply Hafter.
Qed.

Lemma foldl_add_sum {A} (f : A → Z) (l : list A) (start : Z) :
  foldl (λ total x, total + f x) start l = start + sum_Z (f <$> l).
Proof.
  revert start. induction l as [|x l IH]; intros start; cbn [foldl].
  - rewrite fmap_nil. unfold sum_Z. cbn [foldr]. lia.
  - rewrite IH, fmap_cons. unfold sum_Z. cbn [foldr]. lia.
Qed.

Lemma deref_Some {A} (o : option A) (a : A) : deref o = Ok a → o = Some a.
Proof. destruct o; simpl; intros Ho; by simplify_eq. Qed.

Section FurtherProperties.
Context {RT : Runtime}.

(** ** notifications: one entry per id, the last row of an id wins *)

(** When [notifications] returns, the keys of its result are exactly the
    ids of the rows, every entry carries its key as ['id'], and a row that
    no later row repeats the id of is the row its entry is built from. *)
Theorem notifications_entries (api_result : APIResult Element)
    (e : APIResult (gmap Z Notification)) :
  notifications api_result = Ok e →
  ∃ rows, rowset_rows (result api_result) = Ok rows ∧
    (∀ k, k ∈ dom (result e) ↔
          ∃ row, row ∈ rows ∧ attr_int (attrib row) "notificationID" = Ok k) ∧
    (∀ k n, result e !! k = Some n → notification_id n = k) ∧
    (∀ before row after n, rows = before ++ row :: after →
       notification_of_row row = Ok n →
       (∀ later, later ∈ after →
          attr_int (attrib later) "notificationID" ≠ Ok (notification_id n)) →
       result e !! notification_id n = Some n).
Proof.
  intros Hrun. apply notifications_keyed in Hrun as (rows & Hrows & Hloop).
  exists rows. split; [done|]. split_and!.
  - intros k. rewrite (keyed_loop_dom _ _ _ _ k Hloop), dom_empty. split.
    + intros [Hin | (row & n & Hrow & Hf)]; [set_solver|].
      apply bind_Ok in Hf as (n' & Hn & [= <- <-]).
      exists row. split; [done|]. by apply notification_of_row_id.
    + intros (row & Hrow & Hid). right.
      destruct (keyed_loop_each_Ok _ _ _ _ row Hloop Hrow) as [[k' n] Hf].
      exists row, n. split; [done|]. rewrite Hf. do 2 f_equal.
      apply bind_Ok in Hf as (n' & Hn & [= <- <-]).
      apply notification_of_row_id in Hn. congruence.
  - intros k n Hk.
    destruct (keyed_loop_lookup _ _ _ _ _ _ Hloop Hk) as [Hempty | (row & _ & Hf)].
    { by rewrite lookup_empty in Hempty. }
    by apply bind_Ok in Hf as (n' & _ & [= <- <-]).
  - intros before row after n -> Hn Hafter.
    eapply keyed_loop_last; [exact Hloop | cbn beta; by rewrite Hn |].
    intros later n' Hlater Hf.
    apply bind_Ok in Hf as (n'' & Hn'' & [= Hid <-]).
    apply notification_of_row_id in Hn''. rewrite Hid in Hn''.
    by apply (Hafter later).
Qed.

(** ** mailing_lists *)

Lemma mailing_lists_keyed (api_result : APIResult Element)
    (e : APIResult (gmap Z string)) :
  mailing_lists api_result = Ok e →
  ∃ rows, rowset_rows (result api_result) = Ok rows ∧
    keyed_loop (λ row, display_name ← getitem (attrib row) "displayName";
                       list_id ← attr_int (attrib row) "listID";
                       Ok (list_id, display_name))
               rows ∅ = Ok (result e).
Proof.
  unfold mailing_lists. intros Hrun. bind_inv Hrun. simplify_eq. simpl.
  eexists. split; [done|]. unfold keyed_loop. rewrite <- E0.
  apply for_each_ext. intros x t.
  destruct (getitem (attrib x) "displayName"); [|done]. simpl.
  by destruct (attr_int (attrib x) "listID").
Qed.

(** When [mailing_lists] returns, every row has a [displayName] and an
    integer [listID], the result maps exactly the list ids of the rows, each
    to the display name of a row with that id, and to the one of the last
    such row. *)
Theorem mailing_lists_entries (api_result : APIResult Element)
    (e : APIResult (gmap Z string)) :
  mailing_lists api_result = Ok e →
  ∃ rows, rowset_rows (result api_result) = Ok rows ∧
    (∀ row, row ∈ rows →
       is_Some (attrib row !! "displayName") ∧
       succeeds (attr_int (attrib row) "listID")) ∧
    (∀ k, k ∈ dom (result e) ↔
          ∃ row, row ∈ rows ∧ attr_int (attrib row) "listID" = Ok k) ∧
    (∀ k name, result e !! k = Some name →
       ∃ row, row ∈ rows ∧ attr_int (attrib row) "listID" = Ok k ∧
              attrib row !! "displayName" = Some name) ∧
    (∀ before row after k name, rows = before ++ row :: after →
       attr_int (attrib row) "listID" = Ok k →
       attrib row !! "displayName" = Some name →
       (∀ later, later ∈ after → attr_int (attrib later) "listID" ≠ Ok k) →
       result e !! k = Some name).
Proof.
  intros Hrun. apply mailing_lists_keyed in Hrun as (rows & Hrows & Hloop).
  exists rows. split; [done|].
  assert (∀ row k name,
    (display_name ← getitem (attrib row) "displayName";
     list_id ← attr_int (attrib row) "listID";
     Ok (list_id, display_name)) = Ok (k, name) ↔
    attrib row !! "displayName" = Some name ∧
    attr_int (attrib row) "listID" = Ok k) as Hf.
  { intros row k name. split.
    - intros Hok. bind_inv Hok. simplify_eq. by apply getitem_Ok in E.
    - intros [Hname Hid]. apply getitem_Ok in Hname. by rewrite Hname, Hid. }
  split_and!.
  - intros row Hrow.
    destruct (keyed_loop_each_Ok _ _ _ _ row Hloop Hrow) as [[k name] Hok].
    apply Hf in Hok as [Hname Hid]. split; by eexists.
  - intros k. rewrite (keyed_loop_dom _ _ _ _ k Hloop), dom_empty. split.
    + intros [Hin | (row & name & Hrow & Hok)]; [set_solver|].
      apply Hf in Hok as [_ Hid]. by exists row.
    + intros (row & Hrow & Hid). right.
      destruct (keyed_loop_each_Ok _ _ _ _ row Hloop Hrow) as [[k' name] Hok].
      exists row, name. split; [done|].
      destruct (proj1 (Hf _ _ _) Hok) as [Hname Hid']. apply Hf.
      split; [done|]. congruence.
  - intros k name Hk.
    destruct (keyed_loop_lookup _ _ _ _ _ _ Hloop Hk) as [Hempty | (row & Hrow & Hok)].
    { by rewrite lookup_empty in Hempty. }
    apply Hf in Hok as [Hname Hid]. by exists row.
  - intros before row after k name -> Hid Hname Hafter.
    eapply keyed_loop_last; [exact Hloop | by apply Hf |].
    intros later name' Hlater Hok. apply Hf in Hok as [_ Hid'].
    by apply (Hafter later).
Qed.

(** ** locations: the key of an entry *)

(** When [locations] returns, the keys of its result are the item ids of
    the rows with zero replaced by [None]: the integer 0 is never a key, and
    [None] is a key exactly when some row has the item id 0, so that all such
    rows share one entry. *)
Theorem locations_keys (api_result : APIResult Element)
    (e : APIResult (gmap (option Z) Location)) :
  locations api_result = Ok e →
  ∃ rows, rowset_rows (result api_result) = Ok rows ∧
    (∀ k, k ∈ dom (result e) ↔
          ∃ row id, row ∈ rows ∧ attr_int (attrib row) "itemID" = Ok id ∧
                    k = int_or_none id) ∧
    (Some 0 ∉ dom (result e)) ∧
    (None ∈ dom (result e) ↔
       ∃ row, row ∈ rows ∧ attr_int (attrib row) "itemID" = Ok 0).
Proof.
  intros Hrun. apply locations_keyed in Hrun as (rows & Hrows & Hloop).
  exists rows. split; [done|].
  assert (∀ k, k ∈ dom (result e) ↔
               ∃ row id, row ∈ rows ∧ attr_int (attrib row) "itemID" = Ok id ∧
                         k = int_or_none id) as Hdom.
  { intros k. rewrite (keyed_loop_dom _ _ _ _ k Hloop), dom_empty. split.
    - intros [Hin | (row & l & Hrow & Hf)]; [set_solver|].
      apply bind_Ok in Hf as (l' & Hl & [= <- <-]).
      apply location_of_row_fields in Hl
        as (name & id & x & y & z & _ & Hid & _ & _ & _ & ->).
      by exists row, id.
    - intros (row & id & Hrow & Hid & ->). right.
      destruct (keyed_loop_each_Ok _ _ _ _ row Hloop Hrow) as [[k l] Hf].
      exists row, l. split; [done|]. rewrite Hf. do 2 f_equal.
      apply bind_Ok in Hf as (l' & Hl & [= <- <-]).
      apply location_of_row_fields in Hl
        as (name & id' & x & y & z & _ & Hid' & _ & _ & _ & ->).
      simpl. congruence. }
  split_and!; [done | |].
  - intros (row & id & _ & _ & Hk)%Hdom. rewrite int_or_none_spec in Hk.
    case_decide; congruence.
  - rewrite Hdom. split.
    + intros (row & id & Hrow & Hid & Hk). rewrite int_or_none_spec in Hk.
      case_decide; [|done]. subst. by exists row.
    + intros (row & Hrow & Hid). by exists row, 0.
Qed.

(** ** calendar_attendees and event_attendees: the keys *)

(** When [calendar_attendees] returns, the keys of its result are the
    requested ids, as they were given, and the integer event ids of the
    rows; nothing else. *)
Theorem calendar_attendees_keys (event_ids : list PyKey)
    (api_result : APIResult Element) (e : APIResult (gmap PyKey (gmap Z Attendee))) :
  calendar_attendees event_ids api_result = Ok e →
  ∃ rows, rowset_rows (result api_result) = Ok rows ∧
    ∀ k, k ∈ dom (result e) ↔
         k ∈ event_ids ∨
         ∃ row ev, row ∈ rows ∧ attr_int (attrib row) "eventID" = Ok ev ∧
                   k = KInt ev.
Proof.
  unfold calendar_attendees. intros Hrun. bind_inv Hrun. simplify_eq. simpl.
  rename a into rows, a0 into results. exists rows. split; [done|].
  revert E0.
  apply (for_each_invariant
    (λ done (t : gmap PyKey (gmap Z Attendee)),
       ∀ k, k ∈ dom t ↔
            k ∈ event_ids ∨
            ∃ row ev, row ∈ done ∧ attr_int (attrib row) "eventID" = Ok ev ∧
                      k = KInt ev)).
  - intros k. rewrite elem_of_dom, empty_events_lookup. split.
    + intros [v Hv]. case_decide; [by left | done].
    + intros [Hk | (row & ev & Hrow & _)]; [|by apply elem_of_nil in Hrow].
      rewrite decide_True by done. by eexists.
  - intros done x t t' IH Hadd k. unfold add_attendee in Hadd.
    bind_inv Hadd. simplify_eq.
    rewrite dom_insert, elem_of_union, elem_of_singleton, IH. split.
    + intros [-> | [Hk | (row & ev & Hrow & Hev & ->)]].
      * right. exists x, a0. split; [|done]. apply elem_of_app. right. by left.
      * by left.
      * right. exists row, ev. split; [|done]. apply elem_of_app. by left.
    + intros [Hk | (row & ev & Hrow & Hev & ->)]; [right; by left|].
      apply elem_of_app in Hrow as [Hrow | Hrow].
      * right. right. by exists row, ev.
      * apply list_elem_of_singleton in Hrow as ->. left. congruence.
Qed.

(** With an integer id, [event_attendees] returns whenever the call of
    [calendar_attendees] it wraps does, with the entry of that id and the
    same two time stamps; the lookup never misses. *)
Theorem event_attendees_of_integer_id (z : Z) (api_result : APIResult Element)
    (e : APIResult (gmap PyKey (gmap Z Attendee))) :
  calendar_attendees [KInt z] api_result = Ok e →
  ∃ of_event, result e !! KInt z = Some of_event ∧
    event_attendees (KInt z) api_result =
      Ok (mkAPIResult of_event (timestamp e) (expires e)).
Proof.
  intros Hrun.
  destruct (calendar_attendees_keys _ _ _ Hrun) as (rows & _ & Hdom).
  assert (KInt z ∈ dom (result e)) as [of_event Hof]%elem_of_dom.
  { apply Hdom. left. by left. }
  exists of_event. split; [done|].
  unfold event_attendees. rewrite Hrun. simpl.
  apply getitem_Ok in Hof. by rewrite Hof.
Qed.

(** With the id given as a string, [event_attendees] looks up the integer
    while [calendar_attendees] has prepared the entry of the string: it
    raises [KeyError] when no row names the event, although the wrapped call
    returned. *)
Theorem event_attendees_of_string_id (s : string) (z : Z)
    (api_result : APIResult Element) (e : APIResult (gmap PyKey (gmap Z Attendee)))
    (rows : list Element) :
  calendar_attendees [KStr s] api_result = Ok e →
  rowset_rows (result api_result) = Ok rows →
  py_int s = Ok z →
  (∀ row, row ∈ rows → attr_int (attrib row) "eventID" ≠ Ok z) →
  result e !! KStr s = Some ∅ ∧
  event_attendees (KStr s) api_result = Raise KeyError.
Proof.
  intros Hrun Hrows Hz Hnone.
  destruct (calendar_attendees_keys _ _ _ Hrun) as (rows' & Hrows' & Hdom).
  rewrite Hrows in Hrows'. injection Hrows' as <-.
  assert (result e !! KInt z = None) as Hmiss.
  { apply not_elem_of_dom. intros [Hin | (row & ev & Hrow & Hev & [= <-])]%Hdom.
    - by apply list_elem_of_singleton in Hin.
    - by apply (Hnone row). }
  split.
  - unfold calendar_attendees in Hrun. rewrite Hrows in Hrun. simpl in Hrun.
    bind_inv Hrun. simplify_eq. simpl.
    assert (attendees_inv [KStr s] rows a) as (Hreq & Hfrom & _).
    { eapply (for_each_invariant (attendees_inv [KStr s])); [| |exact E].
      - apply attendees_inv_init.
      - intros done x t t'. apply attendees_inv_step. }
    destruct (Hreq (KStr s)) as [of_event Hof]; [by left|].
    rewrite Hof. f_equal. apply map_empty. intros c.
    destruct (of_event !! c) as [att|] eqn:Hc; [|done].
    by destruct (Hfrom _ _ _ _ Hof Hc) as (row & ev & _ & _ & _ & _ & ?).
  - unfold event_attendees. rewrite Hrun. simpl. rewrite Hz. simpl.
    by rewrite (getitem_absent _ _ Hmiss).
Qed.

(** ** medals *)

(** The inner loop of [medals] keeps the two keys of the result. *)
Lemma medals_rows_dom (name : string) (rows : list Element)
    (d d' : gmap string (gmap Z Medal)) :
  for_each rows
    (λ row result,
       medal ← medal_of_row row;
       of_name ← getitem result name;
       Ok (<[name := <[medal_id medal := medal]> of_name]> result)) d = Ok d' →
  dom d' = dom d.
Proof.
  revert d. induction rows as [|row rows IH]; intros d Hrun; simpl in Hrun.
  - by simplify_eq.
  - apply bind_Ok in Hrun as (d1 & Hrow & Hrun). rewrite (IH _ Hrun).
    bind_inv Hrow. simplify_eq. apply getitem_Ok in E0.
    rewrite dom_insert_L. apply (elem_of_dom_2 (D:=gset string)) in E0.
    by apply subseteq_union_1_L, singleton_subseteq_l.
Qed.

(** When [medals] returns, its result has exactly the keys ['current'] and
    ['other'], whatever rowsets the document holds (both are empty mappings
    for a document without rowsets), and every rowset of the document is
    named [currentCorporation] or [otherCorporations]: a rowset without a
    name or with another name makes [medals] raise. *)
Theorem medals_keys (api_result : APIResult Element) :
  (∀ e, medals api_result = Ok e →
        dom (result e) = {[ "current"; "other" ]} ∧
        ∀ rowset, rowset ∈ findall (result api_result) "rowset" →
          attrib rowset !! "name" = Some "currentCorporation" ∨
          attrib rowset !! "name" = Some "otherCorporations") ∧
  (findall (result api_result) "rowset" = [] →
   ∃ e, medals api_result = Ok e ∧
        result e !! "current" = Some ∅ ∧ result e !! "other" = Some ∅).
Proof.
  split.
  - intros e Hrun. unfold medals in Hrun. bind_inv Hrun. simplify_eq. simpl.
    split.
    + revert E.
      apply (for_each_invariant
        (λ (_ : list Element) (t : gmap string (gmap Z Medal)),
           dom t = {[ "current"; "other" ]})).
      * apply set_eq. intros k. rewrite elem_of_dom.
        rewrite elem_of_union, !elem_of_singleton. split.
        -- intros [v Hv]. destruct (decide (k = "current")) as [->|]; [by left|].
           destruct (decide (k = "other")) as [->|]; [by right|].
           simpl in Hv. rewrite !lookup_insert_ne in Hv by done.
           by rewrite lookup_empty in Hv.
        -- intros [-> | ->]; by eexists.
      * intros done x t t' IH Hstep. bind_inv Hstep.
        apply medals_rows_dom in Hstep. by rewrite Hstep.
    + intros rowset Hin.
      destruct (attrib rowset !! "name") as [name|] eqn:Hname.
      * destruct (_map !! name) as [key|] eqn:Hkey.
        -- destruct (decide (name = "currentCorporation")) as [->|]; [by left|].
           destruct (decide (name = "otherCorporations")) as [->|]; [by right|].
           unfold _map in Hkey. simpl in Hkey.
           rewrite !lookup_insert_ne in Hkey by done.
           by rewrite lookup_empty in Hkey.
        -- exfalso. eapply fails_not_Ok; [|exact E].
           eapply for_each_fails_at; [exact Hin|]. intros t.
           apply getitem_Ok in Hname. rewrite Hname. simpl.
           by apply bind_fails_l, getitem_fails.
      * exfalso. eapply fails_not_Ok; [|exact E].
        eapply for_each_fails_at; [exact Hin|]. intros t.
        by apply attr_absent_fails.
  - intros Hnone. unfold medals. rewrite Hnone. simpl. eexists. by split_and!.
Qed.

(** ** standings: the three keys and their rowsets *)

Lemma valid_order_items (order : DictOrder) :
  valid_order order →
  (∀ key name, (key, name) ∈ name_map_items order ↔ _name_map !! key = Some name) ∧
  (∀ key name, (key, name) ∈ corp_roles_items order ↔ corp_roles !! key = Some name).
Proof.
  intros [Hn Hc]. split; intros key name.
  - by rewrite Hn, elem_of_map_to_list.
  - by rewrite Hc, elem_of_map_to_list.
Qed.

(** A loop over the items of a dictionary that stores under the key of each
    item: the result has the keys of the dictionary, and the value of a key
    is what the pass of its item computed. *)
Lemma keyed_loop_over_items {V} (table : gmap string string)
    (items : list (string * string))
    (f : string * string → pyresult (string * V)) (d : gmap string V) :
  (∀ key name, (key, name) ∈ items ↔ table !! key = Some name) →
  (∀ item k v, f item = Ok (k, v) → k = item.1) →
  keyed_loop f items ∅ = Ok d →
  dom d = dom table ∧
  ∀ key name, table !! key = Some name →
    ∃ v, d !! key = Some v ∧ f (key, name) = Ok (key, v).
Proof.
  intros Hitems Hkey Hloop.
  assert (∀ k, k ∈ dom d ↔ k ∈ dom table) as Hdom.
  { intros k. rewrite (keyed_loop_dom _ _ _ _ k Hloop), dom_empty. split.
    - intros [Hin | ([key name] & v & Hin & Hf)]; [set_solver|].
      apply Hkey in Hf as ->. apply Hitems in Hin. by apply elem_of_dom_2 in Hin.
    - intros [name Hname]%elem_of_dom. right. apply Hitems in Hname.
      destruct (keyed_loop_each_Ok _ _ _ _ _ Hloop Hname) as [[k' v] Hf].
      exists (k, name), v. split; [done|].
      by rewrite Hf, (Hkey _ _ _ Hf). }
  split; [by apply set_eq|].
  intros key name Hname.
  assert (key ∈ dom d) as [v Hv]%elem_of_dom by (apply Hdom; by eapply elem_of_dom_2).
  exists v. split; [done|].
  destruct (keyed_loop_lookup _ _ _ _ _ _ Hloop Hv) as [Hempty | ([key' name'] & Hin & Hf)].
  { by rewrite lookup_empty in Hempty. }
  pose proof (Hkey _ _ _ Hf) as Hk. simpl in Hk. subst key'.
  apply Hitems in Hin. by simplify_eq.
Qed.

(** When [standings] returns, its result has exactly the keys of [_name_map]
    (['agents'], ['corps'], ['factions']); the value of each is read from the
    rowset that [_name_map] names for it (['corps'] from [NPCCorporations]).
    Each of its entries comes from a row of that rowset: the key and the
    entry's ['id'] are the integer of the row's [fromID], ['name'] is its
    [fromName] and ['standing'] the float of its [standing]; and the [fromID]
    of every row of the rowset is a key. *)
Theorem standings_keys (order : DictOrder) (api_result : APIResult Element)
    (e : APIResult (gmap string (gmap Z Standing))) :
  valid_order order → standings order api_result = Ok e →
  dom (result e) = dom _name_map ∧
  ∃ npc by_name,
    find (result api_result) "characterNPCStandings" = Some npc ∧
    rowsets_by_name (findall npc "rowset") = Ok by_name ∧
    ∀ key name, _name_map !! key = Some name →
      ∃ rowset entries,
        by_name !! name = Some rowset ∧ result e !! key = Some entries ∧
        (∀ k s, entries !! k = Some s →
           standing_id s = k ∧
           ∃ row, row ∈ findall rowset "row" ∧
             attr_int (attrib row) "fromID" = Ok k ∧
             attrib row !! "fromName" = Some (standing_name s) ∧
             attr_float (attrib row) "standing" = Ok (standing_value s) ∧
             standing_of_row row = Ok s) ∧
        (∀ row, row ∈ findall rowset "row" →
           ∃ k, attr_int (attrib row) "fromID" = Ok k ∧ is_Some (entries !! k)).
Proof.
  intros Horder Hrun. unfold standings in Hrun. bind_inv Hrun. simplify_eq.
  simpl. rename a into npc, a0 into by_name, a1 into res.
  rewrite standings_loop_keyed in E1.
  destruct (keyed_loop_over_items _name_map _ _ _
              (proj1 (valid_order_items _ Horder)) (standings_of_key by_name) E1)
    as [Hdom Hvalues].
  split; [done|]. exists npc, by_name. apply deref_Some in E.
  split_and!; [done | done |]. intros key name Hname.
  destruct (Hvalues key name Hname) as (entries & Hentries & Hf).
  unfold standings_of in Hf. bind_inv Hf. simplify_eq. simpl in *.
  apply getitem_Ok in E2. exists a, entries.
  assert (keyed_loop (λ row, s ← standing_of_row row; Ok (standing_id s, s))
                     (findall a "row") ∅ = Ok entries) as Hrows.
  { unfold keyed_loop. rewrite <- E3. apply for_each_ext.
    intros x t. by destruct (standing_of_row x). }
  split_and!; [done | done | |].
  - intros k s Hk.
    destruct (keyed_loop_lookup _ _ _ _ _ _ Hrows Hk) as [Hempty | (row & Hrow & Hs)].
    { by rewrite lookup_empty in Hempty. }
    apply bind_Ok in Hs as (s' & Hs & [= <- <-]). split; [done|].
    destruct (standing_of_row_fields _ _ Hs) as (Hid & Hn & Hv). by exists row.
  - intros row Hrow.
    destruct (keyed_loop_each_Ok _ _ _ _ _ Hrows Hrow) as [[k s] Hs].
    apply bind_Ok in Hs as (s' & Hs & [= <- <-]).
    destruct (standing_of_row_fields _ _ Hs) as (Hid & _ & _).
    exists (standing_id s'). split; [done|]. apply elem_of_dom.
    apply (keyed_loop_dom _ _ _ _ (standing_id s') Hrows). right.
    exists row, s'. split; [done|]. by rewrite Hs.
Qed.

(** ** character_sheet: attributes, skills, certificates, roles, titles *)

(** What [character_sheet] computes after the scalar fields, step by step. *)
Lemma character_sheet_parts (order : DictOrder) (api_result : APIResult Element)
    (e : APIResult CharacterSheet) :
  character_sheet order api_result = Ok e →
  let doc := result api_result in
  let sheet := result e in
  ∃ by_name skills certificates titles,
    rowsets_by_name (findall doc "rowset") = Ok by_name ∧
    by_name !! "skills" = Some skills ∧
    by_name !! "certificates" = Some certificates ∧
    by_name !! "corporationTitles" = Some titles ∧
    keyed_loop (λ attr, a ← attribute_of doc attr; Ok (attr, a))
               attribute_names ∅ = Ok (sheet_attributes sheet) ∧
    collect skill_of_row (children skills) = Ok (sheet_skills sheet) ∧
    sheet_skillpoints sheet =
      foldl (λ total s, total + skill_skillpoints s) 0 (sheet_skills sheet) ∧
    for_each (children certificates)
      (λ cert certs, c ← attr_int (attrib cert) "certificateID";
                     Ok ({[ c ]} ∪ certs)) (∅ : gset Z)
      = Ok (sheet_certificates sheet) ∧
    keyed_loop (roles_of by_name) (corp_roles_items order) ∅
      = Ok (sheet_roles sheet) ∧
    named_rows "titleID" "titleName" (children titles) = Ok (sheet_titles sheet).
Proof.
  unfold character_sheet. intros Hrun. bind_inv Hrun. simplify_eq. simpl.
  rewrite roles_loop_keyed in *.
  repeat match goal with H : getitem _ _ = Ok _ |- _ => apply getitem_Ok in H end.
  eexists _, _, _, _. split_and!; try done.
  match goal with
  | H : for_each attribute_names _ _ = Ok _ |- _ => rewrite <- H
  end.
  unfold keyed_loop. apply for_each_ext. intros x t.
  by destruct (attribute_of (result api_result) x).
Qed.

Lemma attribute_of_total (doc : Element) (attr : string) (a : Attribute) :
  attribute_of doc attr = Ok a →
  py_int_of (findtext_path doc ["attributes"; attr]) = Ok (attribute_base a) ∧
  match find_path doc ["attributeEnhancers"; attr +:+ "Bonus"] with
  | Some bonus =>
      ∃ b, attribute_bonus a = Some b ∧
           py_int_of (findtext bonus "augmentatorValue") = Ok (bonus_value b) ∧
           bonus_name b = findtext bonus "augmentatorName" ∧
           attribute_total a = attribute_base a + bonus_value b
  | None => attribute_bonus a = None ∧ attribute_total a = attribute_base a
  end.
Proof.
  unfold attribute_of. intros Ha.
  destruct (py_int_of (findtext_path doc ["attributes"; attr])) as [base|] eqn:Hb;
    [|done].
  simpl in Ha. split; [|].
  - destruct (find_path doc _) as [bonus|]; [bind_inv Ha|]; by simplify_eq.
  - destruct (find_path doc _) as [bonus|].
    + bind_inv Ha. simplify_eq. simpl. by eexists.
    + by simplify_eq.
Qed.

(** When [character_sheet] returns, its ['attributes'] have exactly the five
    attribute names as keys; the base of each is the integer text of
    [attributes/<name>]; with an element [attributeEnhancers/<name>Bonus] the
    entry has a bonus with the enhancer's value and name and its total is the
    base plus that value, and without one it has no bonus and total equals
    base. *)
Theorem character_sheet_attributes (order : DictOrder)
    (api_result : APIResult Element) (e : APIResult CharacterSheet) :
  character_sheet order api_result = Ok e →
  let doc := result api_result in
  dom (sheet_attributes (result e)) = list_to_set attribute_names ∧
  ∀ attr a, sheet_attributes (result e) !! attr = Some a →
    py_int_of (findtext_path doc ["attributes"; attr]) = Ok (attribute_base a) ∧
    match find_path doc ["attributeEnhancers"; attr +:+ "Bonus"] with
    | Some bonus =>
        ∃ b, attribute_bonus a = Some b ∧
             py_int_of (findtext bonus "augmentatorValue") = Ok (bonus_value b) ∧
             bonus_name b = findtext bonus "augmentatorName" ∧
             attribute_total a = attribute_base a + bonus_value b
    | None => attribute_bonus a = None ∧ attribute_total a = attribute_base a
    end.
Proof.
  intros Hrun doc.
  destruct (character_sheet_parts _ _ _ Hrun)
    as (by_name & skills & certs & titles & _ & _ & _ & _ & Hattrs & _).
  split.
  - apply set_eq. intros k.
    rewrite (keyed_loop_dom _ _ _ _ k Hattrs), dom_empty, elem_of_list_to_set.
    split.
    + intros [Hin | (attr & a & Hattr & Hf)]; [set_solver|].
      by apply bind_Ok in Hf as (a' & _ & [= <- <-]).
    + intros Hk. right.
      destruct (keyed_loop_each_Ok _ _ _ _ k Hattrs Hk) as [[k' a] Hf].
      exists k, a. split; [done|]. rewrite Hf.
      by apply bind_Ok in Hf as (a' & _ & [= <- <-]).
  - intros attr a Ha.
    destruct (keyed_loop_lookup _ _ _ _ _ _ Hattrs Ha) as [Hempty | (x & _ & Hf)].
    { by rewrite lookup_empty in Hempty. }
    apply bind_Ok in Hf as (a' & Hof & [= <- <-]).
    by apply attribute_of_total.
Qed.

Lemma skill_of_row_skillpoints (row : Element) (sk : Skill) :
  skill_of_row row = Ok sk →
  attr_int (attrib row) "skillpoints" = Ok (skill_skillpoints sk) ∧
  attr_int (attrib row) "typeID" = Ok (skill_id sk) ∧
  attr_int (attrib row) "level" = Ok (skill_level sk).
Proof.
  unfold skill_of_row. intros Hrow. bind_inv Hrow. by simplify_eq.
Qed.

(** When [character_sheet] returns, ['skills'] lists the children of the
    rowset named [skills] in document order, one skill per child, and
    ['skillpoints'] is the sum of the skill points of these skills. *)
Theorem character_sheet_skillpoints (order : DictOrder)
    (api_result : APIResult Element) (e : APIResult CharacterSheet) :
  character_sheet order api_result = Ok e →
  ∃ by_name skills,
    rowsets_by_name (findall (result api_result) "rowset") = Ok by_name ∧
    by_name !! "skills" = Some skills ∧
    Forall2 (λ row sk,
               attr_int (attrib row) "skillpoints" = Ok (skill_skillpoints sk) ∧
               attr_int (attrib row) "typeID" = Ok (skill_id sk) ∧
               attr_int (attrib row) "level" = Ok (skill_level sk))
            (children skills) (sheet_skills (result e)) ∧
    sheet_skillpoints (result e) =
      sum_Z (skill_skillpoints <$> sheet_skills (result e)).
Proof.
  intros Hrun.
  destruct (character_sheet_parts _ _ _ Hrun)
    as (by_name & skills & certs & titles & Hby & Hsk & _ & _ & _ & Hcol & Hsum & _).
  exists by_name, skills. split_and!; [done | done | |].
  - apply collect_Ok_Forall2 in Hcol. eapply Forall2_impl; [exact Hcol|].
    intros row sk. apply skill_of_row_skillpoints.
  - rewrite Hsum, foldl_add_sum. lia.
Qed.

(** When [character_sheet] returns, ['certificates'] is the set of the
    certificate ids of the children of the rowset named [certificates]. *)
Theorem character_sheet_certificates (order : DictOrder)
    (api_result : APIResult Element) (e : APIResult CharacterSheet) :
  character_sheet order api_result = Ok e →
  ∃ by_name certificates,
    rowsets_by_name (findall (result api_result) "rowset") = Ok by_name ∧
    by_name !! "certificates" = Some certificates ∧
    ∀ c, c ∈ sheet_certificates (result e) ↔
         ∃ cert, cert ∈ children certificates ∧
                 attr_int (attrib cert) "certificateID" = Ok c.
Proof.
  intros Hrun.
  destruct (character_sheet_parts _ _ _ Hrun)
    as (by_name & skills & certs & titles & Hby & _ & Hcerts & _ & _ & _ & _
        & Hloop & _).
  exists by_name, certs. split_and!; [done | done |].
  revert Hloop.
  apply (for_each_invariant
    (λ done (t : gset Z),
       ∀ c, c ∈ t ↔ ∃ cert, cert ∈ done ∧
                            attr_int (attrib cert) "certificateID" = Ok c)).
  - intros c. split; [set_solver|]. intros (cert & Hcert & _).
    by apply elem_of_nil in Hcert.
  - intros done x t t' IH Hstep c. bind_inv Hstep. simplify_eq.
    rewrite elem_of_union, elem_of_singleton, IH. split.
    + intros [-> | (cert & Hcert & Hc)].
      * exists x. split; [|done]. apply elem_of_app. right. by left.
      * exists cert. split; [|done]. apply elem_of_app. by left.
    + intros (cert & Hcert & Hc). apply elem_of_app in Hcert as [Hcert | Hcert].
      * right. by exists cert.
      * apply list_elem_of_singleton in Hcert as ->. left. congruence.
Qed.

(** The entries of a rowset of roles or titles. *)
Lemma named_rows_entries (id_attr name_attr : string) (rows : list Element)
    (entries : gmap Z (Named Z string)) (k : Z) (entry : Named Z string) :
  named_rows id_attr name_attr rows = Ok entries → entries !! k = Some entry →
  named_id entry = k ∧
  ∃ row, row ∈ rows ∧ attr_int (attrib row) id_attr = Ok k ∧
         attrib row !! name_attr = Some (named_name entry).
Proof.
  intros Hrows Hk.
  assert (keyed_loop (λ row, id ← attr_int (attrib row) id_attr;
                             name ← getitem (attrib row) name_attr;
                             Ok (id, mkNamed id name)) rows ∅ = Ok entries)
    as Hloop.
  { unfold keyed_loop. rewrite <- Hrows. apply for_each_ext. intros x t.
    cbn zeta. destruct (attr_int (attrib x) id_attr); [|done]. simpl.
    by destruct (getitem (attrib x) name_attr). }
  destruct (keyed_loop_lookup _ _ _ _ _ _ Hloop Hk) as [Hempty | (row & Hrow & Hf)].
  { by rewrite lookup_empty in Hempty. }
  bind_inv Hf. simplify_eq. simpl. apply getitem_Ok in E0.
  split; [done|]. by exists row.
Qed.

(** When [character_sheet] returns, ['roles'] has exactly the keys of the
    role table; the value of each is read from the rowset the table names
    for it, each of its entries keyed by the [roleID] of a child of that
    rowset and carrying that child's [roleName]; ['titles'] is read the same
    way from the rowset named [corporationTitles]. *)
Theorem character_sheet_roles (order : DictOrder)
    (api_result : APIResult Element) (e : APIResult CharacterSheet) :
  valid_order order → character_sheet order api_result = Ok e →
  ∃ by_name titles,
    rowsets_by_name (findall (result api_result) "rowset") = Ok by_name ∧
    by_name !! "corporationTitles" = Some titles ∧
    dom (sheet_roles (result e)) = dom corp_roles ∧
    (∀ our_role ccp_role, corp_roles !! our_role = Some ccp_role →
       ∃ rowset entries,
         by_name !! ccp_role = Some rowset ∧
         sheet_roles (result e) !! our_role = Some entries ∧
         ∀ k role, entries !! k = Some role →
           named_id role = k ∧
           ∃ row, row ∈ children rowset ∧
                  attr_int (attrib row) "roleID" = Ok k ∧
                  attrib row !! "roleName" = Some (named_name role)) ∧
    (∀ k title, sheet_titles (result e) !! k = Some title →
       named_id title = k ∧
       ∃ row, row ∈ children titles ∧
              attr_int (attrib row) "titleID" = Ok k ∧
              attrib row !! "titleName" = Some (named_name title)).
Proof.
  intros Horder Hrun.
  destruct (character_sheet_parts _ _ _ Hrun)
    as (by_name & skills & certs & titles & Hby & _ & _ & Htitles & _ & _ & _
        & _ & Hroles & Hnamed).
  destruct (keyed_loop_over_items corp_roles _ _ _
              (proj2 (valid_order_items _ Horder)) (roles_of_key by_name) Hroles)
    as [Hdom Hvalues].
  exists by_name, titles. split_and!; [done | done | done | |].
  - intros our_role ccp_role Hrole.
    destruct (Hvalues _ _ Hrole) as (entries & Hentries & Hf).
    unfold roles_of in Hf. bind_inv Hf. simplify_eq. simpl in *.
    apply getitem_Ok in E. exists a, entries. split_and!; [done | done |].
    intros k role. by apply named_rows_entries.
  - intros k title. by apply named_rows_entries.
Qed.

(** ** skill_queue: one line per row, in document order *)

(** When [skill_queue] returns, its result has one line per row of the
    rowset, in the order of the rows (it is not sorted by queue position),
    and the line at an index is read from the row at that index. *)
Theorem skill_queue_in_document_order (api_result : APIResult Element)
    (e : APIResult (list QueueLine)) :
  skill_queue api_result = Ok e →
  ∃ rows, rowset_rows (result api_result) = Ok rows ∧
    length (result e) = length rows ∧
    ∀ i row line, rows !! i = Some row → result e !! i = Some line →
      let a := attrib row in
      attr_int a "queuePosition" = Ok (queue_position line) ∧
      attr_int a "typeID" = Ok (queue_type_id line) ∧
      attr_int a "level" = Ok (queue_level line) ∧
      attr_int a "startSP" = Ok (queue_start_sp line) ∧
      attr_int a "endSP" = Ok (queue_end_sp line) ∧
      attr_ts a "startTime" = Ok (queue_start_ts line) ∧
      attr_ts a "endTime" = Ok (queue_end_ts line).
Proof.
  unfold skill_queue. intros Hrun. bind_inv Hrun. simplify_eq. simpl.
  rename a into rows, a0 into lines. exists rows. split; [done|].
  apply collect_Ok_Forall2 in E0. split.
  - symmetry. by eapply Forall2_length.
  - intros i row line Hrow Hline.
    pose proof (Forall2_lookup_lr _ _ _ _ _ _ E0 Hrow Hline) as Hread.
    cbn beta zeta in Hread. bind_inv Hread. by simplify_eq.
Qed.

(** ** messages: recipients that are not empty *)

Lemma int_list_or_none_nonempty (s : string) (o : option (list Z)) :
  int_list_or_none s = Ok o → s ≠ "" →
  ∃ ids, o = Some ids ∧ Forall2 (λ piece id, py_int piece = Ok id) (split "," s) ids.
Proof.
  unfold int_list_or_none. intros Ho Hs.
  destruct s as [|c s]; [done|]. cbn [str_truth] in Ho.
  bind_inv Ho. simplify_eq. eexists. split; [done|].
  by apply collect_Ok_Forall2.
Qed.

Lemma message_of_row_nonempty (row : Element) (m : Message) :
  message_of_row row = Ok m →
  attr_int (attrib row) "messageID" = Ok (message_id m) ∧
  (∀ s, attrib row !! "toCorpOrAllianceID" = Some s → s ≠ "" →
     ∃ z, py_int s = Ok z ∧ to_org_id (message_to m) = Some z) ∧
  (∀ s, attrib row !! "toCharacterIDs" = Some s → s ≠ "" →
     ∃ ids, to_char_ids (message_to m) = Some ids ∧
            Forall2 (λ piece id, py_int piece = Ok id) (split "," s) ids) ∧
  (∀ s, attrib row !! "toListID" = Some s → s ≠ "" →
     ∃ ids, to_list_ids (message_to m) = Some ids ∧
            Forall2 (λ piece id, py_int piece = Ok id) (split "," s) ids).
Proof.
  unfold message_of_row. cbn zeta. intros Hrow.
  bind_inv Hrow. simplify_eq. simpl.
  apply getitem_Ok in E3, E5, E7. split_and!; [done | | |].
  - intros s Hs Hne. rewrite Hs in E3. injection E3 as <-.
    destruct s as [|c s]; [done|]. cbn [str_truth] in E4.
    destruct (py_int (String c s)) as [z|]; [|done]. simplify_eq/=. by exists z.
  - intros s Hs Hne. rewrite Hs in E5. injection E5 as <-.
    destruct (int_list_or_none_nonempty _ _ E6 Hne) as (ids & -> & Hids).
    by exists ids.
  - intros s Hs Hne. rewrite Hs in E7. injection E7 as <-.
    destruct (int_list_or_none_nonempty _ _ E8 Hne) as (ids & -> & Hids).
    by exists ids.
Qed.

(** When [messages] returns, it has one header per row, in the order of the
    rows; a recipient attribute that is not empty gives the integer it holds
    ([toCorpOrAllianceID]) or the list of the integers between its commas, in
    their order ([toCharacterIDs], [toListID]). *)
Theorem messages_recipients (api_result : APIResult Element)
    (e : APIResult (list Message)) :
  messages api_result = Ok e →
  ∃ rows, rowset_rows (result api_result) = Ok rows ∧
    Forall2 (λ row m,
      attr_int (attrib row) "messageID" = Ok (message_id m) ∧
      (∀ s, attrib row !! "toCorpOrAllianceID" = Some s → s ≠ "" →
         ∃ z, py_int s = Ok z ∧ to_org_id (message_to m) = Some z) ∧
      (∀ s, attrib row !! "toCharacterIDs" = Some s → s ≠ "" →
         ∃ ids, to_char_ids (message_to m) = Some ids ∧
                Forall2 (λ piece id, py_int piece = Ok id) (split "," s) ids) ∧
      (∀ s, attrib row !! "toListID" = Some s → s ≠ "" →
         ∃ ids, to_list_ids (message_to m) = Some ids ∧
                Forall2 (λ piece id, py_int piece = Ok id) (split "," s) ids))
      rows (result e).
Proof.
  unfold messages. intros Hrun. bind_inv Hrun. simplify_eq. simpl.
  rename a into rows. exists rows. split; [done|].
  apply collect_Ok_Forall2 in E0. eapply Forall2_impl; [exact E0|].
  apply message_of_row_nonempty.
Qed.

(** ** The companion element of missing ids, at its edges *)

(** [message_bodies] raises when the [missingMessageIDs] element is there
    and has no text, or has a text with an empty piece between its commas:
    an empty text, or one with a comma at its start, at its end, or next to
    another comma.  [int('')] is a ValueError. *)
Theorem message_bodies_malformed_missing_ids (api_result : APIResult Element)
    (missing_set : Element) :
  find (result api_result) "missingMessageIDs" = Some missing_set →
  text missing_set = None ∨
  (∃ t, text missing_set = Some t ∧ "" ∈ split "," t) →
  fails (message_bodies api_result).
Proof.
  intros Hfind Hbad. unfold message_bodies. cbn zeta.
  do 2 (apply bind_fails_r; intros ?). apply bind_fails_l. rewrite Hfind.
  destruct Hbad as [-> | (t & -> & Hpiece)]; simpl.
  - by eexists.
  - apply bind_fails_l. eapply collect_fails_at; [exact Hpiece|]. by eexists.
Qed.

(** When [notification_texts] returns and there is a [missingIDs] element,
    every piece between the commas of its text is a key of the result, as a
    string, with the value [None]; for an empty text this is the one key
    [""]. Without text [notification_texts] raises. *)
Theorem notification_texts_missing_entries (api_result : APIResult Element)
    (missing_ids : Element) :
  find (result api_result) "missingIDs" = Some missing_ids →
  (∀ e t piece, notification_texts api_result = Ok e →
     text missing_ids = Some t → piece ∈ split "," t →
     result e !! KStr piece = Some None) ∧
  (∀ e, notification_texts api_result = Ok e → text missing_ids = Some "" →
     result e !! KStr "" = Some None) ∧
  (text missing_ids = None → fails (notification_texts api_result)).
Proof.
  intros Hfind.
  assert (∀ e t piece, notification_texts api_result = Ok e →
            text missing_ids = Some t → piece ∈ split "," t →
            result e !! KStr piece = Some None) as Hpieces.
  { intros e t piece Hrun Ht Hpiece. unfold notification_texts in Hrun.
    cbn zeta in Hrun. rewrite Hfind, Ht in Hrun. simpl in Hrun.
    bind_inv Hrun. simplify_eq. simpl.
    rewrite (foldl_insert_const_lookup KStr), decide_True; [done|].
    apply list_elem_of_fmap. by exists piece. }
  split_and!; [done | |].
  - intros e Hrun Ht. apply (Hpieces e "" ""); [done | done | by left].
  - intros Hnone. unfold notification_texts. cbn zeta.
    do 2 (apply bind_fails_r; intros ?). apply bind_fails_l.
    rewrite Hfind, Hnone. by eexists.
Qed.

End FurtherProperties.

(** ** Sample runs of the further properties *)

Lemma notifications_entries_witness :
  ∃ e, notifications (RT:=sample_runtime) repeated_notification_doc = Ok e ∧
       result e !! 7 =
         Some (mkNotification (RT:=sample_runtime) 7 16 1 "2009-12-02 10:54:00" false).
Proof.
  eexists. split; [reflexivity|].
  destruct (notifications_entries (RT:=sample_runtime)
              repeated_notification_doc _ eq_refl)
    as (rows & Hrows & _ & _ & Hlast).
  vm_compute in Hrows. injection Hrows as <-.
  refine (Hlast [_] _ [] (mkNotification (RT:=sample_runtime) 7 16 1 _ false)
            eq_refl eq_refl _).
  intros later Hlater. by apply elem_of_nil in Hlater.
Defined.

Lemma mailing_lists_entries_witness :
  ∃ e, mailing_lists mailing_lists_doc = Ok e ∧
       result e !! 141157801 = Some "EVEMarketScanner".
Proof.
  eexists. split; [reflexivity|].
  destruct (mailing_lists_entries mailing_lists_doc _ eq_refl)
    as (rows & Hrows & _ & _ & _ & Hlast).
  vm_compute in Hrows. injection Hrows as <-.
  refine (Hlast [_] _ [] _ _ eq_refl eq_refl eq_refl _).
  intros later Hlater. by apply elem_of_nil in Hlater.
Defined.

Lemma locations_keys_witness :
  ∃ e, locations (RT:=sample_runtime) zero_location_doc = Ok e ∧
       None ∈ dom (result e) ∧ Some 0 ∉ dom (result e).
Proof.
  eexists. split; [reflexivity|].
  destruct (locations_keys (RT:=sample_runtime) zero_location_doc _ eq_refl)
    as (rows & Hrows & _ & Hzero & Hnone).
  vm_compute in Hrows. injection Hrows as <-.
  split; [|exact Hzero]. apply Hnone. eexists. split; [left | reflexivity].
Defined.

Lemma calendar_attendees_keys_witness :
  ∃ e, calendar_attendees [KInt 1; KInt 2] attendees_doc = Ok e ∧
       KInt 2 ∈ dom (result e) ∧ KInt 3 ∉ dom (result e).
Proof.
  eexists. split; [reflexivity|].
  destruct (calendar_attendees_keys [KInt 1; KInt 2] attendees_doc _ eq_refl)
    as (rows & Hrows & Hdom).
  vm_compute in Hrows. injection Hrows as <-.
  split.
  - apply Hdom. left. right. left.
  - intros Hin. apply Hdom in Hin as [Hin | (r & ev & Hr & Hev & Hk)].
    + repeat (apply elem_of_cons in Hin as [Hin | Hin]; [discriminate Hin|]).
      by apply elem_of_nil in Hin.
    + injection Hk as <-.
      repeat (apply elem_of_cons in Hr as [-> | Hr];
              [vm_compute in Hev; discriminate Hev|]).
      by apply elem_of_nil in Hr.
Defined.

Lemma event_attendees_of_integer_id_witness :
  ∃ e, calendar_attendees [KInt 1] attendees_doc = Ok e ∧
    ∃ of_event, result e !! KInt 1 = Some of_event ∧
      event_attendees (KInt 1) attendees_doc =
        Ok (mkAPIResult of_event (timestamp e) (expires e)).
Proof.
  eexists. split; [reflexivity|].
  by apply event_attendees_of_integer_id.
Defined.

Lemma event_attendees_of_string_id_witness :
  py_int "5" = Ok 5 ∧
  event_attendees (KStr "5") attendees_doc = Raise KeyError.
Proof.
  split; [reflexivity|].
  refine (proj2 (event_attendees_of_string_id "5" 5 attendees_doc _ _
                   eq_refl eq_refl eq_refl _)).
  intros r Hr Hev. vm_compute in Hr.
  repeat (apply elem_of_cons in Hr as [-> | Hr];
          [vm_compute in Hev; discriminate Hev|]).
  by apply elem_of_nil in Hr.
Defined.

Lemma medals_keys_witness :
  ∃ e, medals medals_doc = Ok e ∧ dom (result e) = {[ "current"; "other" ]}.
Proof.
  eexists. split; [reflexivity|].
  by apply (proj1 (medals_keys medals_doc)).
Defined.

Lemma standings_keys_witness :
  ∃ e, standings (RT:=sample_runtime) sample_order standings_doc = Ok e ∧
       dom (result e) = dom _name_map.
Proof.
  eexists. split; [reflexivity|].
  exact (proj1 (standings_keys (RT:=sample_runtime) sample_order standings_doc _
                  (proj1 sample_orders_valid) eq_refl)).
Defined.

Lemma character_sheet_attributes_witness :
  ∃ e, character_sheet (RT:=sample_runtime) sample_order sheet_doc = Ok e ∧
       dom (sheet_attributes (result e)) = list_to_set attribute_names.
Proof.
  eexists. split; [reflexivity|].
  exact (proj1 (character_sheet_attributes (RT:=sample_runtime)
                  sample_order sheet_doc _ eq_refl)).
Defined.

Lemma character_sheet_skillpoints_witness :
  ∃ e, character_sheet (RT:=sample_runtime) sample_order sheet_doc = Ok e ∧
       sheet_skillpoints (result e) =
         sum_Z (skill_skillpoints <$> sheet_skills (result e)).
Proof.
  eexists. split; [reflexivity|].
  destruct (character_sheet_skillpoints (RT:=sample_runtime)
              sample_order sheet_doc _ eq_refl)
    as (by_name & skills & _ & _ & _ & Hsum).
  exact Hsum.
Defined.

Lemma character_sheet_certificates_witness :
  ∃ e, character_sheet (RT:=sample_runtime) sample_order sheet_doc = Ok e ∧
       ∀ c, c ∈ sheet_certificates (result e) →
            ∃ cert, attr_int (attrib cert) "certificateID" = Ok c.
Proof.
  eexists. split; [reflexivity|]. intros c Hc.
  destruct (character_sheet_certificates (RT:=sample_runtime)
              sample_order sheet_doc _ eq_refl)
    as (by_name & certs & _ & _ & Hiff).
  apply Hiff in Hc as (cert & _ & Hcert). by exists cert.
Defined.

Lemma character_sheet_roles_witness :
  ∃ e, character_sheet (RT:=sample_runtime) sample_order sheet_doc = Ok e ∧
       dom (sheet_roles (result e)) = dom sample_corp_roles.
Proof.
  eexists. split; [reflexivity|].
  destruct (character_sheet_roles (RT:=sample_runtime) sample_order sheet_doc _
              (proj1 sample_orders_valid) eq_refl)
    as (by_name & titles & _ & _ & Hdom & _).
  exact Hdom.
Defined.

Lemma skill_queue_in_document_order_witness :
  ∃ e, skill_queue (RT:=sample_runtime) skill_queue_doc = Ok e ∧
       length (result e) = 2%nat.
Proof.
  eexists. split; [reflexivity|].
  destruct (skill_queue_in_document_order (RT:=sample_runtime)
              skill_queue_doc _ eq_refl) as (rows & Hrows & Hlength & _).
  vm_compute in Hrows. injection Hrows as <-. exact Hlength.
Defined.

Lemma messages_recipients_witness :
  ∃ e rows, messages (RT:=sample_runtime) messages_doc = Ok e ∧
            rowset_rows (result messages_doc) = Ok rows ∧
            length rows = length (result e).
Proof.
  eexists.
  destruct (messages_recipients (RT:=sample_runtime) messages_doc _ eq_refl)
    as (rows & Hrows & Hall).
  exists rows. split_and!; [reflexivity | exact Hrows |].
  by eapply Forall2_length.
Defined.

Lemma message_bodies_malformed_missing_ids_witness :
  fails (message_bodies trailing_comma_doc).
Proof.
  eapply (message_bodies_malformed_missing_ids trailing_comma_doc);
    [reflexivity|].
  right. exists "2,". split; [reflexivity|]. right. left.
Defined.

Lemma notification_texts_missing_entries_witness :
  ∃ e, notification_texts (RT:=sample_runtime) notification_texts_doc = Ok e ∧
       result e !! KStr "2" = Some None.
Proof.
  eexists. split; [reflexivity|].
  refine (proj1 (notification_texts_missing_entries (RT:=sample_runtime)
                   notification_texts_doc _ eq_refl) _ "2" "2" eq_refl eq_refl _).
  left.
Defined.

(** * Numbers and required lookups, operation by operation *)

(** ** Entries and the rows they are read from *)

(** In a loop in which each pass stores one entry, an entry of the result
    was stored by the pass of some item. *)
Lemma for_each_stored {A K V} `{Countable K} (P : A → K → V → Prop)
    (body : A → gmap K V → pyresult (gmap K V)) (xs : list A) (d : gmap K V) :
  (∀ x t t', body x t = Ok t' → ∃ k v, t' = <[k := v]> t ∧ P x k v) →
  for_each xs body ∅ = Ok d →
  ∀ k v, d !! k = Some v → ∃ x, x ∈ xs ∧ P x k v.
Proof.
  intros Hbody. 
  apply (for_each_invariant
    (λ (done : list A) (t : gmap K V),
       ∀ k v, t !! k = Some v → ∃ x, x ∈ done ∧ P x k v)).
  - intros k v Hk. by rewrite lookup_empty in Hk.
  - intros done x t t' IH Hstep k v Hk.
    destruct (Hbody _ _ _ Hstep) as (k' & v' & -> & HP).
    destruct (decide (k' = k)) as [->|Hne].
    + rewrite lookup_insert_eq in Hk. simplify_eq.
      exists x. split; [|done]. apply elem_of_app. right. by left.
    + rewrite lookup_insert_ne in Hk by done.
      destruct (IH k v Hk) as (y & Hy & HPy).
      exists y. split; [|done]. apply elem_of_app. by left.
Qed.

Lemma rows_stored {K V} `{Countable K} (doc : Element) (rows : list Element)
    (body : Element → gmap K V → pyresult (gmap K V)) (d : gmap K V)
    (P : Element → K → V → Prop) :
  rowset_rows doc = Ok rows → for_each rows body ∅ = Ok d →
  (∀ x t t', body x t = Ok t' → ∃ k v, t' = <[k := v]> t ∧ P x k v) →
  ∀ k v, d !! k = Some v → from_row doc (λ row, P row k v).
Proof.
  intros Hrows Hrun Hbody k v Hk.
  destruct (for_each_stored P body rows d Hbody Hrun k v Hk) as (row & Hrow & HP).
  by exists rows, row.
Qed.

Lemma from_row_impl (doc : Element) (P Q : Element → Prop) :
  from_row doc P → (∀ row, P row → Q row) → from_row doc Q.
Proof.
  intros (rows & row & Hrows & Hrow & HP) HPQ. exists rows, row. auto.
Qed.

Lemma collect_from {A B} (f : A → pyresult B) (xs : list A) (ys : list B)
    (y : B) :
  collect f xs = Ok ys → y ∈ ys → ∃ x, x ∈ xs ∧ f x = Ok y.
Proof.
  intros Hrun%collect_Ok_Forall2 Hy.
  induction Hrun as [|x y' xs ys Hxy _ IH]; [by apply elem_of_nil in Hy|].
  apply elem_of_cons in Hy as [-> | Hy].
  - exists x. split; [left | done].
  - destruct (IH Hy) as (x' & Hx' & Hf). exists x'. split; [by right | done].
Qed.

Lemma reads_int_zero (row : Element) (fields : list (string * Z)) (k : string)
    (z : Z) :
  reads_int row fields → (k, z) ∈ fields → attrib row !! k = Some "0" → z = 0.
Proof.
  intros Hreads Hin Hzero.
  apply (proj1 (Forall_forall _ _) Hreads) in Hin. simpl in Hin.
  unfold attr_int in Hin. apply getitem_Ok in Hzero. rewrite Hzero in Hin.
  simpl in Hin. by injection Hin.
Qed.

Lemma attr_int_absent_or_empty (a : gmap string string) (k : string) :
  a !! k = None ∨ a !! k = Some "" → fails (attr_int a k).
Proof.
  unfold attr_int, getitem. intros [-> | ->]; by eexists.
Qed.

(** Splits every equation [(x ← m; k x) = Ok b] of the context. *)
Ltac bind_inv_all :=
  repeat match goal with
         | H : (_ ≫= _) = Ok _ |- _ => bind_inv H
         end.

(** Closes [reads_int] and [reads_float] goals from the equations of the
    attributes in the context. *)
Ltac reads :=
  unfold reads_int, reads_float;
  repeat first [apply Forall_nil | apply Forall_cons | split];
  simpl; try done.

Section Numbers.
Context {RT : Runtime}.

(** C6, as the code has it.  Five fields are read with [or None]: in
    [locations] the id of an entry (also its key) and its coordinates, in
    [character_sheet] the alliance id.  The id is [None] exactly when the
    integer of [itemID] is zero, a coordinate exactly when the float of its
    attribute is false as a truth value ([float_truth], which for a Python
    float means zero), the alliance id when the getter yields zero or
    nothing; each holds the number otherwise.  Every other number that the
    operations read from the attribute of a row, or from the text of an
    [attributes] element, is kept as it is parsed, zero included: the field
    is the integer (or the float) of the attribute of a row of the response.
    Reading an absent or an empty attribute as an integer raises; for
    [itemID] this makes [locations] raise.  Only the three recipient
    attributes of [messages] give [None] when they are empty. *)
Theorem zero_is_null_where_or_none (order : DictOrder)
    (api_result : APIResult Element) :
  let doc := result api_result in
  (∀ e, locations api_result = Ok e →
     ∃ rows, rowset_rows doc = Ok rows ∧
       ∀ k l, result e !! k = Some l →
         ∃ row id x y z, row ∈ rows ∧
           attr_int (attrib row) "itemID" = Ok id ∧
           attr_float (attrib row) "x" = Ok x ∧
           attr_float (attrib row) "y" = Ok y ∧
           attr_float (attrib row) "z" = Ok z ∧
           k = location_item_id l ∧
           location_item_id l = (if decide (id = 0) then None else Some id) ∧
           location_x l = (if float_truth x then Some x else None) ∧
           location_y l = (if float_truth y then Some y else None) ∧
           location_z l = (if float_truth z then Some z else None)) ∧
  (∀ rows row, rowset_rows doc = Ok rows → row ∈ rows →
     attrib row !! "itemID" = None ∨ attrib row !! "itemID" = Some "" →
     fails (locations api_result)) ∧
  (∀ e, character_sheet order api_result = Ok e →
     ∃ alliance_id,
       _int (elem_getters doc) "allianceID" = Ok alliance_id ∧
       named_id (sheet_alliance (result e)) =
         match alliance_id with
         | Some z => if decide (z = 0) then None else Some z
         | None => None
         end) ∧
  (∀ row fields k z, reads_int row fields → (k, z) ∈ fields →
     attrib row !! k = Some "0" → z = 0) ∧
  (∀ a k, a !! k = None ∨ a !! k = Some "" → fails (attr_int a k)) ∧
  (∀ e, wallet_info api_result = Ok e →
     ∃ rowset row, find doc "rowset" = Some rowset ∧
       find rowset "row" = Some row ∧
       reads_int row [("accountID", wallet_id (result e));
                      ("accountKey", wallet_key (result e))] ∧
       reads_float row [("balance", wallet_balance_field (result e))]) ∧
  (∀ e k n, notifications api_result = Ok e → result e !! k = Some n →
     from_row doc (λ row,
       notification_id n = k ∧
       reads_int row [("notificationID", k);
                      ("typeID", notification_type_id n);
                      ("senderID", notification_sender_id n)])) ∧
  (∀ e k v, notification_texts api_result = Ok e →
     result e !! KInt k = Some v →
     from_row doc (λ row, reads_int row [("notificationID", k)])) ∧
  (∀ e key entries k s, standings order api_result = Ok e →
     result e !! key = Some entries → entries !! k = Some s →
     ∃ npc rowset row,
       find doc "characterNPCStandings" = Some npc ∧
       rowset ∈ findall npc "rowset" ∧ row ∈ findall rowset "row" ∧
       standing_id s = k ∧ reads_int row [("fromID", k)] ∧
       reads_float row [("standing", standing_value s)]) ∧
  (∀ e, character_sheet order api_result = Ok e →
     let sheet := result e in
     (∀ attr a, sheet_attributes sheet !! attr = Some a →
        py_int_of (findtext_path doc ["attributes"; attr])
          = Ok (attribute_base a)) ∧
     (∀ sk, sk ∈ sheet_skills sheet →
        ∃ rowset row, rowset ∈ findall doc "rowset" ∧ row ∈ children rowset ∧
          reads_int row [("typeID", skill_id sk); ("level", skill_level sk);
                         ("skillpoints", skill_skillpoints sk)]) ∧
     (∀ c, c ∈ sheet_certificates sheet →
        ∃ rowset row, rowset ∈ findall doc "rowset" ∧ row ∈ children rowset ∧
          reads_int row [("certificateID", c)]) ∧
     (∀ role entries k entry, sheet_roles sheet !! role = Some entries →
        entries !! k = Some entry →
        ∃ rowset row, rowset ∈ findall doc "rowset" ∧ row ∈ children rowset ∧
          named_id entry = k ∧ reads_int row [("roleID", k)]) ∧
     (∀ k entry, sheet_titles sheet !! k = Some entry →
        ∃ rowset row, rowset ∈ findall doc "rowset" ∧ row ∈ children rowset ∧
          named_id entry = k ∧ reads_int row [("titleID", k)])) ∧
  (∀ e k r, research api_result = Ok e → result e !! k = Some r →
     from_row doc (λ row,
       research_id r = k ∧
       reads_int row [("agentID", k); ("skillTypeID", research_skill_id r)] ∧
       reads_float row [("pointsPerDay", research_per_day r);
                        ("remainderPoints", research_remaining r)])) ∧
  (∀ e line, skill_queue api_result = Ok e → line ∈ result e →
     from_row doc (λ row,
       reads_int row [("queuePosition", queue_position line);
                      ("typeID", queue_type_id line);
                      ("level", queue_level line);
                      ("startSP", queue_start_sp line);
                      ("endSP", queue_end_sp line)])) ∧
  (∀ e m, messages api_result = Ok e → m ∈ result e →
     from_row doc (λ row,
       reads_int row [("messageID", message_id m);
                      ("senderID", message_sender_id m)] ∧
       (attrib row !! "toCorpOrAllianceID" = Some "0" →
          to_org_id (message_to m) = Some 0) ∧
       (attrib row !! "toCorpOrAllianceID" = Some "" →
          to_org_id (message_to m) = None) ∧
       (attrib row !! "toCharacterIDs" = Some "" →
          to_char_ids (message_to m) = None) ∧
       (attrib row !! "toListID" = Some "" →
          to_list_ids (message_to m) = None))) ∧
  (∀ e k v, message_bodies api_result = Ok e → result e !! k = Some v →
     from_row doc (λ row, reads_int row [("messageID", k)]) ∨
     ∃ missing t piece,
       find doc "missingMessageIDs" = Some missing ∧ text missing = Some t ∧
       piece ∈ split "," t ∧ py_int piece = Ok k) ∧
  (∀ e k name, mailing_lists api_result = Ok e → result e !! k = Some name →
     from_row doc (λ row, reads_int row [("listID", k)])) ∧
  (∀ e k ev, calendar_events api_result = Ok e → result e !! k = Some ev →
     from_row doc (λ row,
       event_id ev = k ∧
       reads_int row [("eventID", k); ("ownerID", named_id (event_owner ev));
                      ("duration", event_duration ev)])) ∧
  (∀ event_ids e key of_event c a,
     calendar_attendees event_ids api_result = Ok e →
     result e !! key = Some of_event → of_event !! c = Some a →
     from_row doc (λ row, ∃ ev,
       key = KInt ev ∧ attendee_id a = c ∧
       reads_int row [("eventID", ev); ("characterID", c)])) ∧
  (∀ e name of_name k m, medals api_result = Ok e →
     result e !! name = Some of_name → of_name !! k = Some m →
     ∃ rowset row, rowset ∈ findall doc "rowset" ∧ row ∈ findall rowset "row" ∧
       medal_id m = k ∧
       reads_int row [("medalID", k); ("issuerID", medal_issuer_id m);
                      ("corporationID", medal_corp_id m)]) ∧
  (∀ e k n, contact_notifications api_result = Ok e → result e !! k = Some n →
     from_row doc (λ row,
       note_id n = k ∧
       reads_int row [("notificationID", k);
                      ("senderID", named_id (note_sender n))])).
Proof.
  intros doc. subst doc. split_and!.
  - (* locations *)
    intros e Hrun. apply locations_keyed in Hrun as (rows & Hrows & Hloop).
    exists rows. split; [done|]. intros k l Hk.
    destruct (keyed_loop_lookup _ _ _ _ _ _ Hloop Hk) as [Hempty | (row & Hrow & Hf)].
    { by rewrite lookup_empty in Hempty. }
    apply bind_Ok in Hf as (l' & Hl & [= <- <-]).
    apply location_of_row_fields in Hl
      as (name & id & x & y & z & _ & Hid & Hx & Hy & Hz & ->).
    exists row, id, x, y, z. simpl. rewrite int_or_none_spec.
    by split_and!.
  - intros rows row Hrows Hrow Hid. unfold locations. rewrite Hrows. simpl.
    apply bind_fails_l. eapply for_each_fails_at; [done|]. intros t.
    apply bind_fails_l. unfold location_of_row.
    apply bind_fails_r. intros name. apply bind_fails_l.
    by apply attr_int_absent_or_empty.
  - intros e Hrun. unfold character_sheet in Hrun. bind_inv Hrun.
    simplify_eq. simpl. exists a8. split; [done|].
    destruct a8 as [z|]; simpl; [apply int_or_none_spec | done].
  - apply reads_int_zero.
  - apply attr_int_absent_or_empty.
  - (* wallet_info *)
    intros e Hrun. unfold wallet_info in Hrun. bind_inv Hrun. simplify_eq.
    apply deref_Some in E, E0. exists a, a0. simpl. split_and!; [done | done | |]; reads.
  - (* notifications *)
    intros e k n Hrun. unfold notifications in Hrun. bind_inv Hrun.
    simplify_eq. simpl. revert k n. eapply rows_stored; [done | done |].
    intros x t t' Hb. unfold notification_of_row in Hb. cbn beta zeta in Hb.
    bind_inv_all. simplify_eq. eexists _, _. split; [done|]. reads.
  - (* notification_texts *)
    intros e k v Hrun Hk. unfold notification_texts in Hrun. cbn zeta in Hrun.
    bind_inv Hrun. simplify_eq. simpl in Hk.
    rename a into rows, a0 into stored.
    assert (stored !! KInt k = Some v) as Hstored.
    { destruct (find (result api_result) "missingIDs") as [missing|];
        [|by simplify_eq].
      bind_inv E1. simplify_eq.
      rewrite (foldl_insert_const_lookup KStr) in Hk.
      case_decide as Hin; [|done].
      by apply list_elem_of_fmap in Hin as (piece & [=] & _). }
    eapply from_row_impl.
    + eapply (rows_stored _ _ _ _
                (λ row key _, ∀ k, key = KInt k →
                                   reads_int row [("notificationID", k)]));
        [exact E | exact E0 | | exact Hstored].
      intros x t t' Hb. cbn beta zeta in Hb. bind_inv_all. simplify_eq. eexists _, _.
      split; [done|]. intros k' [= <-]. reads.
    + intros row Hrow. by apply Hrow.
  - (* standings *)
    intros e key entries k s Hrun Hkey Hk. unfold standings in Hrun.
    bind_inv Hrun. simplify_eq. simpl in Hkey.
    rename a into npc, a0 into by_name.
    apply deref_Some in E. rewrite standings_loop_keyed in E1.
    destruct (keyed_loop_lookup _ _ _ _ _ _ E1 Hkey)
      as [Hempty | (item & Hitem & Hf)].
    { by rewrite lookup_empty in Hempty. }
    unfold standings_of in Hf. bind_inv Hf. simplify_eq.
    rename a into rowset. apply getitem_Ok in E2.
    destruct (rowsets_by_name_lookup _ _ _ _ E0 E2) as [Hin _].
    assert (∃ row, row ∈ findall rowset "row" ∧
                   standing_id s = k ∧ standing_of_row row = Ok s)
      as (row & Hrow & Hid & Hs).
    { revert k s Hk. eapply for_each_stored; [|exact E3].
      intros x t t' Hb. cbn beta in Hb. bind_inv_all. simplify_eq.
      by eexists _, _. }
    destruct (standing_of_row_fields _ _ Hs) as (Hfrom & _ & Hval).
    exists npc, rowset, row. rewrite Hid in Hfrom. split_and!; try done; reads.
  - (* character_sheet *)
    intros e Hrun sheet. subst sheet.
    destruct (character_sheet_parts _ _ _ Hrun)
      as (by_name & skills & certs & titles & Hby & Hsk & Hce & Hti & Hattrs
          & Hskills & _ & Hcerts & Hroles & Htitles).
    split_and!.
    + intros attr a Ha.
      destruct (keyed_loop_lookup _ _ _ _ _ _ Hattrs Ha)
        as [Hempty | (x & _ & Hf)].
      { by rewrite lookup_empty in Hempty. }
      apply bind_Ok in Hf as (a' & Hatt & [= <- <-]).
      by apply attribute_of_total in Hatt as [Hbase _].
    + intros sk Hin.
      destruct (collect_from _ _ _ _ Hskills Hin) as (row & Hrow & Hf).
      destruct (rowsets_by_name_lookup _ _ _ _ Hby Hsk) as [Hrs _].
      exists skills, row. split_and!; [done | done |].
      unfold skill_of_row in Hf. cbn zeta in Hf. bind_inv Hf. simplify_eq.
      reads.
    + intros c Hc.
      destruct (rowsets_by_name_lookup _ _ _ _ Hby Hce) as [Hrs _].
      exists certs.
      cut (∃ cert, cert ∈ children certs ∧
                   attr_int (attrib cert) "certificateID" = Ok c).
      { intros (cert & Hcert & Hid). exists cert. split_and!; try done. reads. }
      revert c Hc. revert Hcerts.
      apply (for_each_invariant
        (λ (done : list Element) (t : gset Z),
           ∀ c, c ∈ t → ∃ cert, cert ∈ done ∧
                  attr_int (attrib cert) "certificateID" = Ok c)).
      * intros c Hc. by apply not_elem_of_empty in Hc.
      * intros done x t t' IH Hstep c Hc. bind_inv Hstep. simplify_eq.
        apply elem_of_union in Hc as [->%elem_of_singleton | Hc].
        -- exists x. split; [|done]. apply elem_of_app. right. by left.
        -- destruct (IH c Hc) as (cert & Hcert & Hid).
           exists cert. split; [|done]. apply elem_of_app. by left.
    + intros role entries k entry Hrole Hk.
      destruct (keyed_loop_lookup _ _ _ _ _ _ Hroles Hrole)
        as [Hempty | (item & _ & Hf)].
      { by rewrite lookup_empty in Hempty. }
      unfold roles_of in Hf. bind_inv Hf. simplify_eq.
      rename a into rowset. apply getitem_Ok in E.
      destruct (rowsets_by_name_lookup _ _ _ _ Hby E) as [Hrs _].
      destruct (named_rows_entries _ _ _ _ _ _ E0 Hk)
        as (Hid & row & Hrow & Hrid & _).
      exists rowset, row. split_and!; try done. reads.
    + intros k entry Hk.
      destruct (rowsets_by_name_lookup _ _ _ _ Hby Hti) as [Hrs _].
      destruct (named_rows_entries _ _ _ _ _ _ Htitles Hk)
        as (Hid & row & Hrow & Hrid & _).
      exists titles, row. split_and!; try done. reads.
  - (* research *)
    intros e k r Hrun. unfold research in Hrun. bind_inv Hrun.
    simplify_eq. simpl. revert k r. eapply rows_stored; [done | done |].
    intros x t t' Hb. cbn beta zeta in Hb.
    bind_inv_all. simplify_eq. eexists _, _. split; [done|]. reads.
  - (* skill_queue *)
    intros e line Hrun Hline. unfold skill_queue in Hrun. bind_inv Hrun.
    simplify_eq. simpl in Hline.
    destruct (collect_from _ _ _ _ E0 Hline) as (row & Hrow & Hf).
    exists a, row. split_and!; [done | done |].
    cbn beta zeta in Hf. bind_inv Hf. simplify_eq. reads.
  - (* messages *)
    intros e m Hrun Hm. unfold messages in Hrun. bind_inv Hrun.
    simplify_eq. simpl in Hm.
    destruct (collect_from _ _ _ _ E0 Hm) as (row & Hrow & Hf).
    exists a, row. do 2 (split; [done|]).
    destruct (message_of_row_recipients _ _ Hf) as (Horg & Hchars & Hlists).
    unfold message_of_row in Hf. cbn zeta in Hf. bind_inv Hf. simplify_eq.
    split; [reads|]. split; [|done]. simpl. intros Hzero.
    match goal with
    | H : getitem (attrib row) "toCorpOrAllianceID" = Ok ?s,
      H' : (if str_truth ?s then _ else _) = Ok _ |- _ =>
        apply getitem_Ok in H; rewrite Hzero in H; injection H as <-;
        simpl in H'; by injection H' as <-
    end.
  - (* message_bodies *)
    intros e k v Hrun Hk. unfold message_bodies in Hrun. cbn zeta in Hrun.
    bind_inv Hrun. simplify_eq. simpl in Hk.
    rename a into rows, a0 into stored.
    assert (∀ k' v', stored !! k' = Some v' →
              from_row (result api_result)
                       (λ row, reads_int row [("messageID", k')])) as Hrows.
    { eapply rows_stored; [exact E | exact E0 |].
      intros x t t' Hb. cbn beta zeta in Hb. bind_inv_all. simplify_eq. eexists _, _.
      split; [done|]. reads. }
    destruct (find (result api_result) "missingMessageIDs")
      as [missing|] eqn:Hfind.
    + bind_inv E1. simplify_eq.
      match goal with
      | H : deref (text missing) = Ok _ |- _ =>
          apply deref_Some in H; rename H into Htext
      end.
      match goal with
      | H : collect py_int _ = Ok _ |- _ => rename H into Hids
      end.
      rewrite (foldl_insert_const_lookup (λ x, x)), list_fmap_id in Hk.
      case_decide as Hin.
      * right. destruct (collect_from _ _ _ _ Hids Hin) as (piece & Hp & Hint).
        by eexists missing, _, piece.
      * left. by eapply Hrows.
    + simplify_eq. left. by eapply Hrows.
  - (* mailing_lists *)
    intros e k name Hrun. unfold mailing_lists in Hrun. bind_inv Hrun.
    simplify_eq. simpl. revert k name. eapply rows_stored; [done | done |].
    intros x t t' Hb. cbn beta zeta in Hb.
    bind_inv_all. simplify_eq. eexists _, _. split; [done|]. reads.
  - (* calendar_events *)
    intros e k ev Hrun. unfold calendar_events in Hrun. bind_inv Hrun.
    simplify_eq. simpl. revert k ev. eapply rows_stored; [done | done |].
    intros x t t' Hb. unfold event_of_row in Hb. cbn beta zeta in Hb.
    bind_inv_all. simplify_eq. eexists _, _. split; [done|]. reads.
  - (* calendar_attendees *)
    intros event_ids e key of_event c a Hrun Hkey Hc.
    unfold calendar_attendees in Hrun. bind_inv Hrun. simplify_eq.
    simpl in Hkey. rename a0 into rows, a1 into results.
    assert (attendees_inv event_ids rows results) as (_ & Hfrom & _).
    { eapply (for_each_invariant (attendees_inv event_ids)); [| |exact E0].
      - apply attendees_inv_init.
      - intros done x t t'. apply attendees_inv_step. }
    destruct (Hfrom _ _ _ _ Hkey Hc) as (row & ev & Hrow & Ha & Hid & Hev & ->).
    destruct (attendee_of_row_fields _ _ Ha) as (Hcid & _).
    rewrite Hid in Hcid.
    exists rows, row. split_and!; [done | done |]. exists ev.
    split_and!; try done. reads.
  - (* medals *)
    intros e name of_name k m Hrun Hname Hk.
    destruct (medals_from_rowsets _ _ Hrun name of_name k m Hname Hk)
      as (rowset & rowset_name & row & Hrowset & _ & _ & Hrow & Hm & Hid).
    destruct (medal_of_row_fields _ _ Hm) as (Hmid & _ & _ & Hiss & Hcorp & _).
    rewrite Hid in Hmid.
    exists rowset, row. split_and!; try done. reads.
  - (* contact_notifications *)
    intros e k n Hrun. unfold contact_notifications in Hrun. bind_inv Hrun.
    simplify_eq. simpl. revert k n. eapply rows_stored; [done | done |].
    intros x t t' Hb. cbn beta zeta in Hb.
    bind_inv_all. simplify_eq. eexists _, _. split; [done|]. reads.
Qed.

End Numbers.

(** ** Lookups that raise *)

(** Proves that a body fails from [H : a !! k = None], where the body reads
    [a[k]] among its steps. *)
Lemma getitem_bind_fails `{Countable K} {V A} (d : gmap K V) (k : K)
    (f : V → pyresult A) :
  d !! k = None → fails (getitem d k ≫= f).
Proof. intros Hk. by apply bind_fails_l, getitem_fails. Qed.

Ltac absent_attr :=
  cbn beta zeta;
  solve [ by apply getitem_fails
        | by apply getitem_bind_fails
        | apply bind_fails_l; absent_attr
        | apply bind_fails_r; intros ?; absent_attr ].

Lemma rowsets_by_name_absent (rowsets : list Element)
    (by_name : gmap string Element) (name : string) :
  rowsets_by_name rowsets = Ok by_name →
  (∀ rowset, rowset ∈ rowsets → attrib rowset !! "name" ≠ Some name) →
  by_name !! name = None.
Proof.
  intros Hby Hnone. destruct (by_name !! name) as [rowset|] eqn:Hlook; [|done].
  destruct (rowsets_by_name_lookup _ _ _ _ Hby Hlook) as [Hin Hattr].
  by destruct (Hnone rowset Hin).
Qed.

Lemma medal_of_row_absent (row : Element) (k : string) :
  k ∈ medal_attributes → attrib row !! k = None → fails (medal_of_row row).
Proof.
  intros Hk Habsent. unfold medal_attributes in Hk.
  unfold medal_of_row, attr_int.
  repeat (apply elem_of_cons in Hk as [-> | Hk]);
    [absent_attr.. | by apply elem_of_nil in Hk].
Qed.

Lemma named_rows_absent (id_attr name_attr : string) (rows : list Element)
    (row : Element) (k : string) :
  row ∈ rows → k ∈ [id_attr; name_attr] → attrib row !! k = None →
  fails (named_rows id_attr name_attr rows).
Proof.
  intros Hrow Hk Habsent. unfold named_rows.
  eapply for_each_fails_at; [exact Hrow|]. intros t. unfold attr_int.
  repeat (apply elem_of_cons in Hk as [-> | Hk]);
    [absent_attr.. | by apply elem_of_nil in Hk].
Qed.

Section Lookups.
Context {RT : Runtime}.

Lemma first_rowset_row_absent (order : DictOrder) (op : Operation)
    (api_result : APIResult Element) (rows : list Element) (row : Element)
    (k : string) :
  rowset_rows (result api_result) = Ok rows → row ∈ rows →
  k ∈ row_attributes op → attrib row !! k = None →
  fails (call order op api_result).
Proof.
  intros Hrows Hrow Hk Habsent.
  destruct op; cbn [row_attributes] in Hk;
    try (by apply elem_of_nil in Hk); cbn [call shape].
  all: lazymatch goal with
       | |- fails (event_attendees _ _) =>
           unfold event_attendees; apply bind_fails_l
       | _ => idtac
       end.
  all: unfold notifications, notification_texts, research, skill_queue,
         messages, message_bodies, mailing_lists, calendar_events,
         calendar_attendees, contact_notifications, locations;
       cbn zeta; rewrite Hrows;
       cbn [mbind pyresult_bind]; apply bind_fails_l;
       first [eapply for_each_fails_at | eapply collect_fails_at];
       [exact Hrow | try intros t].
  all: unfold notification_of_row, message_of_row, event_of_row, add_attendee,
         attendee_of_row, location_of_row, attr_int, attr_float, attr_ts.
  all: repeat (apply elem_of_cons in Hk as [-> | Hk]);
         [absent_attr.. | by apply elem_of_nil in Hk].
Qed.

(** C5, as the code has it.  An operation raises when a rowset that it
    looks up is absent: the first rowset for the operations that open with
    [find('rowset')] (and the row of [wallet_info] in it), the element
    [characterNPCStandings] and the rowsets [agents], [NPCCorporations] and
    [factions] of [standings], the rowsets [skills], [certificates],
    [corporationTitles] and those of the role table of [character_sheet], and
    the elements [attributes/<name>] of [character_sheet].  It raises when a
    rowset that it files by name has no name, and when a row that it reads
    lacks an attribute that it indexes.  [wallet_balance] and
    [event_attendees] raise when the call they wrap does.  [medals] looks no
    rowset up: it reads the rowsets that are there, raises for one whose name
    is not in [_map], and returns for a document without rowsets. *)
Theorem absent_rowset_or_attribute_raises (order : DictOrder)
    (api_result : APIResult Element) :
  valid_order order →
  let doc := result api_result in
  (find doc "rowset" = None → fails (wallet_info api_result)) ∧
  (∀ rowset, find doc "rowset" = Some rowset → find rowset "row" = None →
     fails (wallet_info api_result)) ∧
  (∀ rowset row k, find doc "rowset" = Some rowset →
     find rowset "row" = Some row →
     k ∈ ["balance"; "accountID"; "accountKey"] → attrib row !! k = None →
     fails (wallet_info api_result)) ∧
  (find doc "characterNPCStandings" = None → fails (standings order api_result)) ∧
  (∀ npc rowset, find doc "characterNPCStandings" = Some npc →
     rowset ∈ findall npc "rowset" → attrib rowset !! "name" = None →
     fails (standings order api_result)) ∧
  (∀ npc name, find doc "characterNPCStandings" = Some npc →
     name ∈ ["agents"; "NPCCorporations"; "factions"] →
     (∀ rowset, rowset ∈ findall npc "rowset" →
                attrib rowset !! "name" ≠ Some name) →
     fails (standings order api_result)) ∧
  (∀ npc by_name name rowset row k,
     find doc "characterNPCStandings" = Some npc →
     rowsets_by_name (findall npc "rowset") = Ok by_name →
     name ∈ ["agents"; "NPCCorporations"; "factions"] →
     by_name !! name = Some rowset → row ∈ findall rowset "row" →
     k ∈ ["fromID"; "fromName"; "standing"] → attrib row !! k = None →
     fails (standings order api_result)) ∧
  (∀ event_ids op, op ∈ single_rowset_operations event_ids →
     find doc "rowset" = None → fails (call order op api_result)) ∧
  (∀ event_id, find doc "rowset" = None →
     fails (event_attendees event_id api_result)) ∧
  (fails (wallet_info api_result) → fails (wallet_balance api_result)) ∧
  (∀ event_id, fails (calendar_attendees [event_id] api_result) →
     fails (event_attendees event_id api_result)) ∧
  (∀ op rows row k, rowset_rows doc = Ok rows → row ∈ rows →
     k ∈ row_attributes op → attrib row !! k = None →
     fails (call order op api_result)) ∧
  (∀ rowset, rowset ∈ findall doc "rowset" → attrib rowset !! "name" = None →
     fails (character_sheet order api_result)) ∧
  (∀ name,
     name ∈ ["skills"; "certificates"; "corporationTitles"] ∨
     (∃ role, corp_roles !! role = Some name) →
     (∀ rowset, rowset ∈ findall doc "rowset" →
                attrib rowset !! "name" ≠ Some name) →
     fails (character_sheet order api_result)) ∧
  (∀ attr, attr ∈ attribute_names →
     findtext_path doc ["attributes"; attr] = None →
     fails (character_sheet order api_result)) ∧
  (∀ by_name name rowset row k,
     rowsets_by_name (findall doc "rowset") = Ok by_name →
     by_name !! name = Some rowset → row ∈ children rowset →
     k ∈ sheet_row_attributes name ∨
     ((∃ role, corp_roles !! role = Some name) ∧ k ∈ ["roleID"; "roleName"]) →
     attrib row !! k = None →
     fails (character_sheet order api_result)) ∧
  (∀ rowset, rowset ∈ findall doc "rowset" → attrib rowset !! "name" = None →
     fails (medals api_result)) ∧
  (∀ rowset name, rowset ∈ findall doc "rowset" →
     attrib rowset !! "name" = Some name → _map !! name = None →
     fails (medals api_result)) ∧
  (∀ rowset row k, rowset ∈ findall doc "rowset" → row ∈ findall rowset "row" →
     k ∈ medal_attributes → attrib row !! k = None →
     fails (medals api_result)) ∧
  (findall doc "rowset" = [] →
   ∃ e, medals api_result = Ok e ∧
        result e = list_to_map [("current", ∅); ("other", ∅)]).
Proof.
  intros Horder doc. subst doc. split_and!.
  - intros Hnone. unfold wallet_info. rewrite Hnone. by eexists.
  - intros rowset Hrowset Hnone. unfold wallet_info.
    rewrite Hrowset. simpl. rewrite Hnone. by eexists.
  - intros rowset row k Hrowset Hrow Hk Habsent. unfold wallet_info.
    rewrite Hrowset. simpl. rewrite Hrow. simpl.
    by eapply wallet_row_absent.
  - intros Hnone. unfold standings. rewrite Hnone. by eexists.
  - intros npc rowset Hnpc Hin Hname. unfold standings. rewrite Hnpc. simpl.
    by eapply bind_fails_l, rowsets_by_name_unnamed.
  - intros npc name Hnpc Hname Hnone. unfold standings. rewrite Hnpc. simpl.
    destruct (name_map_items_complete order name Horder Hname) as [key Hkey].
    destruct (rowsets_by_name (findall npc "rowset")) as [by_name|err] eqn:Hby;
      [|by eexists].
    simpl. apply bind_fails_l.
    eapply for_each_fails_at; [exact Hkey|]. intros t. simpl.
    apply bind_fails_l, getitem_fails. by eapply rowsets_by_name_absent.
  - intros npc by_name name rowset row k Hnpc Hby Hname Hlook Hrow Hk Habsent.
    unfold standings. rewrite Hnpc. simpl. rewrite Hby. simpl.
    destruct (name_map_items_complete order name Horder Hname) as [key Hkey].
    apply bind_fails_l.
    eapply for_each_fails_at; [exact Hkey|]. intros t. simpl.
    apply getitem_Ok in Hlook. rewrite Hlook. simpl.
    apply bind_fails_l. eapply for_each_fails_at; [exact Hrow|]. intros t'.
    by eapply bind_fails_l, standing_of_row_absent.
  - intros event_ids op Hop Hnone. unfold single_rowset_operations in Hop.
    repeat (apply elem_of_cons in Hop as [-> | Hop]);
      [..|by apply elem_of_nil in Hop]; cbn [call shape].
    all: unfold wallet_info, notifications, notification_texts, research,
           skill_queue, messages, message_bodies, mailing_lists,
           calendar_events, calendar_attendees, contact_notifications,
           locations, rowset_rows; cbn zeta; rewrite Hnone; by eexists.
  - intros event_id Hnone. unfold event_attendees, calendar_attendees, rowset_rows.
    cbn zeta. rewrite Hnone. by eexists.
  - intros Hfails. unfold wallet_balance. by apply bind_fails_l.
  - intros event_id Hfails. unfold event_attendees. by apply bind_fails_l.
  - intros op rows row k. apply first_rowset_row_absent.
  - (* character_sheet: a rowset without a name *)
    intros rowset Hin Hname. unfold character_sheet. cbn zeta.
    do 15 (apply bind_fails_r; intros ?).
    by eapply bind_fails_l, rowsets_by_name_unnamed.
  - (* character_sheet: a rowset that is looked up by name *)
    intros name Hname Hnone. unfold character_sheet. cbn zeta.
    do 15 (apply bind_fails_r; intros ?).
    destruct (rowsets_by_name (findall (result api_result) "rowset"))
      as [by_name|err] eqn:Hby; [|by eexists].
    cbn [mbind pyresult_bind].
    pose proof (rowsets_by_name_absent _ _ _ Hby Hnone) as Habsent.
    destruct Hname as [Hname | [role Hrole]].
    + repeat (apply elem_of_cons in Hname as [-> | Hname]);
        [absent_attr.. | by apply elem_of_nil in Hname].
    + do 4 (apply bind_fails_r; intros ?). apply bind_fails_l.
      apply (proj2 (valid_order_items _ Horder)) in Hrole.
      eapply for_each_fails_at; [exact Hrole|]. intros t.
      cbn beta iota. by apply getitem_bind_fails.
  - (* character_sheet: the five attributes *)
    intros attr Hattr Hnone. unfold character_sheet. cbn zeta.
    do 14 (apply bind_fails_r; intros ?). apply bind_fails_l.
    eapply for_each_fails_at; [exact Hattr|]. intros t.
    apply bind_fails_l. unfold attribute_of. rewrite Hnone. by eexists.
  - (* character_sheet: the attributes of the rows *)
    intros by_name name rowset row k Hby Hlook Hrow Hk Habsent.
    unfold character_sheet. cbn zeta.
    do 15 (apply bind_fails_r; intros ?).
    rewrite Hby. cbn [mbind pyresult_bind]. apply getitem_Ok in Hlook.
    destruct Hk as [Hk | [[role Hrole] Hk]].
    + unfold sheet_row_attributes in Hk.
      repeat case_decide; subst; [| | |by apply elem_of_nil in Hk].
      * rewrite Hlook. cbn [mbind pyresult_bind]. apply bind_fails_l.
        eapply collect_fails_at; [exact Hrow|].
        unfold skill_of_row, attr_int.
        repeat (apply elem_of_cons in Hk as [-> | Hk]);
          [absent_attr.. | by apply elem_of_nil in Hk].
      * do 2 (apply bind_fails_r; intros ?).
        rewrite Hlook. cbn [mbind pyresult_bind]. apply bind_fails_l.
        eapply for_each_fails_at; [exact Hrow|]. intros t. unfold attr_int.
        repeat (apply elem_of_cons in Hk as [-> | Hk]);
          [absent_attr.. | by apply elem_of_nil in Hk].
      * do 5 (apply bind_fails_r; intros ?).
        rewrite Hlook. cbn [mbind pyresult_bind]. apply bind_fails_l.
        by eapply named_rows_absent.
    + do 4 (apply bind_fails_r; intros ?). apply bind_fails_l.
      apply (proj2 (valid_order_items _ Horder)) in Hrole.
      eapply for_each_fails_at; [exact Hrole|]. intros t.
      cbn beta iota. rewrite Hlook. cbn [mbind pyresult_bind].
      by eapply bind_fails_l, named_rows_absent.
  - (* medals: a rowset without a name *)
    intros rowset Hin Hname. unfold medals. apply bind_fails_l.
    eapply for_each_fails_at; [exact Hin|]. intros t.
    by apply getitem_bind_fails.
  - (* medals: a rowset with a name that is not in [_map] *)
    intros rowset name Hin Hname Hmap. unfold medals. apply bind_fails_l.
    eapply for_each_fails_at; [exact Hin|]. intros t.
    apply getitem_Ok in Hname. rewrite Hname. cbn [mbind pyresult_bind].
    by apply getitem_bind_fails.
  - (* medals: the attributes of the rows *)
    intros rowset row k Hrowset Hrow Hk Habsent.
    eapply medals_row_fails; [done | done |]. by eapply medal_of_row_absent.
  - (* medals: no rowset is looked up *)
    intros Hnone. unfold medals. rewrite Hnone. by eexists.
Qed.
End Lookups.

(** ** Sample runs *)

Lemma absent_rowset_or_attribute_raises_witness :
  valid_order (RT:=sample_runtime) sample_order ∧
  fails (wallet_info (RT:=sample_runtime) no_rowset_doc) ∧
  fails (standings (RT:=sample_runtime) sample_order standings_without_factions) ∧
  fails (notifications (RT:=sample_runtime) notifications_without_read).
Proof.
  destruct sample_orders_valid as [Hvalid _]. split; [exact Hvalid|].
  split_and!.
  - destruct (absent_rowset_or_attribute_raises (RT:=sample_runtime)
                sample_order no_rowset_doc Hvalid) as (Hwallet & _).
    apply Hwallet. reflexivity.
  - destruct (absent_rowset_or_attribute_raises (RT:=sample_runtime)
                sample_order standings_without_factions Hvalid)
      as (_ & _ & _ & _ & _ & Hnamed & _).
    eapply (Hnamed _ "factions"); [reflexivity | set_solver |].
    intros rowset Hrowset. vm_compute in Hrowset.
    repeat (apply elem_of_cons in Hrowset as [-> | Hrowset]);
      [vm_compute; discriminate.. | by apply elem_of_nil in Hrowset].
  - destruct (absent_rowset_or_attribute_raises (RT:=sample_runtime)
                sample_order notifications_without_read Hvalid)
      as (_ & _ & _ & _ & _ & _ & _ & _ & _ & _ & _ & Hrows & _).
    eapply (Hrows OpNotifications _ _ "read");
      [reflexivity | left | | reflexivity].
    right. right. right. right. left.
Defined.

Lemma medals_without_rowsets_counterexample :
  medals no_rowset_doc
  = Ok (mkAPIResult (list_to_map [("current", ∅); ("other", ∅)])
                    (timestamp no_rowset_doc) (expires no_rowset_doc)).
Proof. reflexivity. Qed.

Lemma zero_is_null_where_or_none_witness :
  ∃ e, character_sheet (RT:=sample_runtime) sample_order sheet_doc = Ok e ∧
       named_id (sheet_alliance (result e)) = None.
Proof.
  eexists. split; [reflexivity|].
  destruct (zero_is_null_where_or_none (RT:=sample_runtime)
              sample_order sheet_doc) as (_ & _ & Hsheet & _).
  destruct (Hsheet _ eq_refl) as (alliance & Hget & ->).
  vm_compute in Hget. by injection Hget as <-.
Defined.
